(** * Rotary encoder module firmware: a shallow embedding and its properties

    The firmware (RotaryEncoderModule.ino) is one interrupt handler
    ([updatePosition], with [processPosition]) and one cooperative main loop
    ([loop]) over a set of global variables.  The globals become the record
    [State]; every function of the sketch becomes a computation in a small
    state monad [M] whose results also record the two ways in which the C
    code leaves the sequential world: spinning in a blocking serial read
    ([Blocked]) and indexing an array outside its bounds ([Fault]). *)

From Stdlib Require Import ZArith Lia Bool List.
From stdpp Require Import base list.
Import ListNotations.

Local Open Scope Z_scope.

(** ** Machine integers

    Values are mathematical integers; every conversion the C code performs
    on the 32-bit ARM target is written out. *)

Definition u8 (x : Z) : Z := x mod 2 ^ 8.
Definition u16 (x : Z) : Z := x mod 2 ^ 16.
Definition u32 (x : Z) : Z := x mod 2 ^ 32.
Definition i16 (x : Z) : Z := (x + 2 ^ 15) mod 2 ^ 16 - 2 ^ 15.
Definition i32 (x : Z) : Z := (x + 2 ^ 31) mod 2 ^ 32 - 2 ^ 31.

(** [boolean b = <byte>]: any non-zero byte is true. *)
Definition to_boolean (b : Z) : bool := negb (b =? 0).

(** The bytes of the [typeBuffer] union on the little-endian target:
    [typeBuffer.uint8[k]] after a store to [typeBuffer.uint16] or
    [typeBuffer.uint32]. *)
Definition byte_at (k : Z) (v : Z) : Z := Z.land (Z.shiftr v (8 * k)) 255.
Definition le16 (v : Z) : list Z := [byte_at 0 v; byte_at 1 v].
Definition le32 (v : Z) : list Z := [byte_at 0 v; byte_at 1 v; byte_at 2 v; byte_at 3 v].

(** ** Constants of the sketch *)

Definition FirmwareVersion : Z := 5.
Definition moduleName : list Z := [82; 111; 116; 97; 114; 121; 69; 110; 99; 111; 100; 101; 114].
Definition maxThresholds : Z := 8.
Definition dataMax : Z := 4294967295.
Definition sdReadBufferSize : Z := 2048.
Definition positionBufferSize : Z := 1024.
Definition usbStreamingBufferSize : Z := 1000.
(** [outputStreamDatatype] is never assigned after its initialisation to ['H']. *)
Definition outputStreamDatatype : Z := 72.

(** ** External collaborators *)

(** Modelled from the spec: the serial transport object (ArCOM, not part of
    the sketch), "assumed to provide blocking byte/array read and write
    primitives".  A channel is the queue of bytes that have arrived and not
    been read yet, and the sequence of bytes written so far. *)
Record ArCOM : Type := mkArCOM { rx : list Z; tx : list Z }.

(** Modelled from the spec: the file object of the storage medium (SdFat,
    not part of the sketch): a byte sequence with a read/write position. *)
Record File : Type := mkFile { content : list Z; cursor : Z }.

(** The three channels, in the priority order of [loop]; the value of
    [opSource] is 0, 1 or 2. *)
Inductive Source : Type := FromUSB | FromStateMachine | FromOutputStream.

Definition opSource_code (c : Source) : Z :=
  match c with FromUSB => 0 | FromStateMachine => 1 | FromOutputStream => 2 end.

(** ** The global variables

    Arrays are lists; the two-column buffers [positionBuffer[i][k]] and
    [timeBuffer[i][k]] are lists of rows.  Globals that every function
    writes before it reads them ([opCode], [opSource], [param], [newOp],
    [typeBuffer], [thisInd], [sdWriteBuffer], [nFullBufferReads],
    [nRemainderBytes], [EncoderPinAValue], [EncoderPinBValue]) are bound
    locally in the functions that use them. *)

Record State : Type := mkState {
  thresholds : list Z;
  thresholdActive : list bool;
  nThresholds : Z;
  wrapPoint : Z;
  nWraps : Z;
  usbStreaming : bool;
  sendEvents : bool;
  isLogging : bool;
  moduleStreaming : bool;
  EncoderPos : Z;
  currentDir : Z;
  loggedDataAvailable : bool;
  wrappingEnabled : bool;
  wrapMode : Z;
  LastEncoderPinAValue : bool;
  dataPos : Z;
  currentTime : Z;
  wrapPointInverse : Z;
  moduleStreamPrefix : Z;
  sdReadBuffer : list Z;
  positionBuffer : list (Z * Z);
  timeBuffer : list (Z * Z);
  iPositionBuffer : Z * Z;
  positionBufferFlag : bool;
  currentPositionBuffer : Z;
  thisPositionBuffer : Z;
  nPositions : Z;
  newEventType : Z;
  newEventCode : Z;
  newEventTime : Z;
  newEvent : bool;
  usbStreamingBufferPos : Z;
  usbStreamingBuffer : list Z;
  DataFile : File;
  myUSB : ArCOM;
  StateMachineCOM : ArCOM;
  OutputStreamCOM : ArCOM
}.

Definition set_thresholds (v : list Z) (s : State) : State :=
  {| thresholds := v; thresholdActive := thresholdActive s; nThresholds := nThresholds s;
     wrapPoint := wrapPoint s; nWraps := nWraps s; usbStreaming := usbStreaming s;
     sendEvents := sendEvents s; isLogging := isLogging s; moduleStreaming := moduleStreaming s;
     EncoderPos := EncoderPos s; currentDir := currentDir s;
     loggedDataAvailable := loggedDataAvailable s; wrappingEnabled := wrappingEnabled s;
     wrapMode := wrapMode s; LastEncoderPinAValue := LastEncoderPinAValue s; dataPos := dataPos s;
     currentTime := currentTime s; wrapPointInverse := wrapPointInverse s;
     moduleStreamPrefix := moduleStreamPrefix s; sdReadBuffer := sdReadBuffer s;
     positionBuffer := positionBuffer s; timeBuffer := timeBuffer s;
     iPositionBuffer := iPositionBuffer s; positionBufferFlag := positionBufferFlag s;
     currentPositionBuffer := currentPositionBuffer s; thisPositionBuffer := thisPositionBuffer s;
     nPositions := nPositions s; newEventType := newEventType s; newEventCode := newEventCode s;
     newEventTime := newEventTime s; newEvent := newEvent s;
     usbStreamingBufferPos := usbStreamingBufferPos s; usbStreamingBuffer := usbStreamingBuffer s;
     DataFile := DataFile s; myUSB := myUSB s; StateMachineCOM := StateMachineCOM s;
     OutputStreamCOM := OutputStreamCOM s |}.

Definition set_thresholdActive (v : list bool) (s : State) : State :=
  {| thresholds := thresholds s; thresholdActive := v; nThresholds := nThresholds s;
     wrapPoint := wrapPoint s; nWraps := nWraps s; usbStreaming := usbStreaming s;
     sendEvents := sendEvents s; isLogging := isLogging s; moduleStreaming := moduleStreaming s;
     EncoderPos := EncoderPos s; currentDir := currentDir s;
     loggedDataAvailable := loggedDataAvailable s; wrappingEnabled := wrappingEnabled s;
     wrapMode := wrapMode s; LastEncoderPinAValue := LastEncoderPinAValue s; dataPos := dataPos s;
     currentTime := currentTime s; wrapPointInverse := wrapPointInverse s;
     moduleStreamPrefix := moduleStreamPrefix s; sdReadBuffer := sdReadBuffer s;
     positionBuffer := positionBuffer s; timeBuffer := timeBuffer s;
     iPositionBuffer := iPositionBuffer s; positionBufferFlag := positionBufferFlag s;
     currentPositionBuffer := currentPositionBuffer s; thisPositionBuffer := thisPositionBuffer s;
     nPositions := nPositions s; newEventType := newEventType s; newEventCode := newEventCode s;
     newEventTime := newEventTime s; newEvent := newEvent s;
     usbStreamingBufferPos := usbStreamingBufferPos s; usbStreamingBuffer := usbStreamingBuffer s;
     DataFile := DataFile s; myUSB := myUSB s; StateMachineCOM := StateMachineCOM s;
     OutputStreamCOM := OutputStreamCOM s |}.

Definition set_nThresholds (v : Z) (s : State) : State :=
  {| thresholds := thresholds s; thresholdActive := thresholdActive s; nThresholds := v;
     wrapPoint := wrapPoint s; nWraps := nWraps s; usbStreaming := usbStreaming s;
     sendEvents := sendEvents s; isLogging := isLogging s; moduleStreaming := moduleStreaming s;
     EncoderPos := EncoderPos s; currentDir := currentDir s;
     loggedDataAvailable := loggedDataAvailable s; wrappingEnabled := wrappingEnabled s;
     wrapMode := wrapMode s; LastEncoderPinAValue := LastEncoderPinAValue s; dataPos := dataPos s;
     currentTime := currentTime s; wrapPointInverse := wrapPointInverse s;
     moduleStreamPrefix := moduleStreamPrefix s; sdReadBuffer := sdReadBuffer s;
     positionBuffer := positionBuffer s; timeBuffer := timeBuffer s;
     iPositionBuffer := iPositionBuffer s; positionBufferFlag := positionBufferFlag s;
     currentPositionBuffer := currentPositionBuffer s; thisPositionBuffer := thisPositionBuffer s;
     nPositions := nPositions s; newEventType := newEventType s; newEventCode := newEventCode s;
     newEventTime := newEventTime s; newEvent := newEvent s;
     usbStreamingBufferPos := usbStreamingBufferPos s; usbStreamingBuffer := usbStreamingBuffer s;
     DataFile := DataFile s; myUSB := myUSB s; StateMachineCOM := StateMachineCOM s;
     OutputStreamCOM := OutputStreamCOM s |}.

Definition set_wrapPoint (v : Z) (s : State) : State :=
  {| thresholds := thresholds s; thresholdActive := thresholdActive s;
     nThresholds := nThresholds s; wrapPoint := v; nWraps := nWraps s;
     usbStreaming := usbStreaming s; sendEvents := sendEvents s; isLogging := isLogging s;
     moduleStreaming := moduleStreaming s; EncoderPos := EncoderPos s; currentDir := currentDir s;
     loggedDataAvailable := loggedDataAvailable s; wrappingEnabled := wrappingEnabled s;
     wrapMode := wrapMode s; LastEncoderPinAValue := LastEncoderPinAValue s; dataPos := dataPos s;
     currentTime := currentTime s; wrapPointInverse := wrapPointInverse s;
     moduleStreamPrefix := moduleStreamPrefix s; sdReadBuffer := sdReadBuffer s;
     positionBuffer := positionBuffer s; timeBuffer := timeBuffer s;
     iPositionBuffer := iPositionBuffer s; positionBufferFlag := positionBufferFlag s;
     currentPositionBuffer := currentPositionBuffer s; thisPositionBuffer := thisPositionBuffer s;
     nPositions := nPositions s; newEventType := newEventType s; newEventCode := newEventCode s;
     newEventTime := newEventTime s; newEvent := newEvent s;
     usbStreamingBufferPos := usbStreamingBufferPos s; usbStreamingBuffer := usbStreamingBuffer s;
     DataFile := DataFile s; myUSB := myUSB s; StateMachineCOM := StateMachineCOM s;
     OutputStreamCOM := OutputStreamCOM s |}.

Definition set_nWraps (v : Z) (s : State) : State :=
  {| thresholds := thresholds s; thresholdActive := thresholdActive s;
     nThresholds := nThresholds s; wrapPoint := wrapPoint s; nWraps := v;
     usbStreaming := usbStreaming s; sendEvents := sendEvents s; isLogging := isLogging s;
     moduleStreaming := moduleStreaming s; EncoderPos := EncoderPos s; currentDir := currentDir s;
     loggedDataAvailable := loggedDataAvailable s; wrappingEnabled := wrappingEnabled s;
     wrapMode := wrapMode s; LastEncoderPinAValue := LastEncoderPinAValue s; dataPos := dataPos s;
     currentTime := currentTime s; wrapPointInverse := wrapPointInverse s;
     moduleStreamPrefix := moduleStreamPrefix s; sdReadBuffer := sdReadBuffer s;
     positionBuffer := positionBuffer s; timeBuffer := timeBuffer s;
     iPositionBuffer := iPositionBuffer s; positionBufferFlag := positionBufferFlag s;
     currentPositionBuffer := currentPositionBuffer s; thisPositionBuffer := thisPositionBuffer s;
     nPositions := nPositions s; newEventType := newEventType s; newEventCode := newEventCode s;
     newEventTime := newEventTime s; newEvent := newEvent s;
     usbStreamingBufferPos := usbStreamingBufferPos s; usbStreamingBuffer := usbStreamingBuffer s;
     DataFile := DataFile s; myUSB := myUSB s; StateMachineCOM := StateMachineCOM s;
     OutputStreamCOM := OutputStreamCOM s |}.

Definition set_usbStreaming (v : bool) (s : State) : State :=
  {| thresholds := thresholds s; thresholdActive := thresholdActive s;
     nThresholds := nThresholds s; wrapPoint := wrapPoint s; nWraps := nWraps s; usbStreaming := v;
     sendEvents := sendEvents s; isLogging := isLogging s; moduleStreaming := moduleStreaming s;
     EncoderPos := EncoderPos s; currentDir := currentDir s;
     loggedDataAvailable := loggedDataAvailable s; wrappingEnabled := wrappingEnabled s;
     wrapMode := wrapMode s; LastEncoderPinAValue := LastEncoderPinAValue s; dataPos := dataPos s;
     currentTime := currentTime s; wrapPointInverse := wrapPointInverse s;
     moduleStreamPrefix := moduleStreamPrefix s; sdReadBuffer := sdReadBuffer s;
     positionBuffer := positionBuffer s; timeBuffer := timeBuffer s;
     iPositionBuffer := iPositionBuffer s; positionBufferFlag := positionBufferFlag s;
     currentPositionBuffer := currentPositionBuffer s; thisPositionBuffer := thisPositionBuffer s;
     nPositions := nPositions s; newEventType := newEventType s; newEventCode := newEventCode s;
     newEventTime := newEventTime s; newEvent := newEvent s;
     usbStreamingBufferPos := usbStreamingBufferPos s; usbStreamingBuffer := usbStreamingBuffer s;
     DataFile := DataFile s; myUSB := myUSB s; StateMachineCOM := StateMachineCOM s;
     OutputStreamCOM := OutputStreamCOM s |}.

Definition set_sendEvents (v : bool) (s : State) : State :=
  {| thresholds := thresholds s; thresholdActive := thresholdActive s;
     nThresholds := nThresholds s; wrapPoint := wrapPoint s; nWraps := nWraps s;
     usbStreaming := usbStreaming s; sendEvents := v; isLogging := isLogging s;
     moduleStreaming := moduleStreaming s; EncoderPos := EncoderPos s; currentDir := currentDir s;
     loggedDataAvailable := loggedDataAvailable s; wrappingEnabled := wrappingEnabled s;
     wrapMode := wrapMode s; LastEncoderPinAValue := LastEncoderPinAValue s; dataPos := dataPos s;
     currentTime := currentTime s; wrapPointInverse := wrapPointInverse s;
     moduleStreamPrefix := moduleStreamPrefix s; sdReadBuffer := sdReadBuffer s;
     positionBuffer := positionBuffer s; timeBuffer := timeBuffer s;
     iPositionBuffer := iPositionBuffer s; positionBufferFlag := positionBufferFlag s;
     currentPositionBuffer := currentPositionBuffer s; thisPositionBuffer := thisPositionBuffer s;
     nPositions := nPositions s; newEventType := newEventType s; newEventCode := newEventCode s;
     newEventTime := newEventTime s; newEvent := newEvent s;
     usbStreamingBufferPos := usbStreamingBufferPos s; usbStreamingBuffer := usbStreamingBuffer s;
     DataFile := DataFile s; myUSB := myUSB s; StateMachineCOM := StateMachineCOM s;
     OutputStreamCOM := OutputStreamCOM s |}.

Definition set_isLogging (v : bool) (s : State) : State :=
  {| thresholds := thresholds s; thresholdActive := thresholdActive s;
     nThresholds := nThresholds s; wrapPoint := wrapPoint s; nWraps := nWraps s;
     usbStreaming := usbStreaming s; sendEvents := sendEvents s; isLogging := v;
     moduleStreaming := moduleStreaming s; EncoderPos := EncoderPos s; currentDir := currentDir s;
     loggedDataAvailable := loggedDataAvailable s; wrappingEnabled := wrappingEnabled s;
     wrapMode := wrapMode s; LastEncoderPinAValue := LastEncoderPinAValue s; dataPos := dataPos s;
     currentTime := currentTime s; wrapPointInverse := wrapPointInverse s;
     moduleStreamPrefix := moduleStreamPrefix s; sdReadBuffer := sdReadBuffer s;
     positionBuffer := positionBuffer s; timeBuffer := timeBuffer s;
     iPositionBuffer := iPositionBuffer s; positionBufferFlag := positionBufferFlag s;
     currentPositionBuffer := currentPositionBuffer s; thisPositionBuffer := thisPositionBuffer s;
     nPositions := nPositions s; newEventType := newEventType s; newEventCode := newEventCode s;
     newEventTime := newEventTime s; newEvent := newEvent s;
     usbStreamingBufferPos := usbStreamingBufferPos s; usbStreamingBuffer := usbStreamingBuffer s;
     DataFile := DataFile s; myUSB := myUSB s; StateMachineCOM := StateMachineCOM s;
     OutputStreamCOM := OutputStreamCOM s |}.

Definition set_moduleStreaming (v : bool) (s : State) : State :=
  {| thresholds := thresholds s; thresholdActive := thresholdActive s;
     nThresholds := nThresholds s; wrapPoint := wrapPoint s; nWraps := nWraps s;
     usbStreaming := usbStreaming s; sendEvents := sendEvents s; isLogging := isLogging s;
     moduleStreaming := v; EncoderPos := EncoderPos s; currentDir := currentDir s;
     loggedDataAvailable := loggedDataAvailable s; wrappingEnabled := wrappingEnabled s;
     wrapMode := wrapMode s; LastEncoderPinAValue := LastEncoderPinAValue s; dataPos := dataPos s;
     currentTime := currentTime s; wrapPointInverse := wrapPointInverse s;
     moduleStreamPrefix := moduleStreamPrefix s; sdReadBuffer := sdReadBuffer s;
     positionBuffer := positionBuffer s; timeBuffer := timeBuffer s;
     iPositionBuffer := iPositionBuffer s; positionBufferFlag := positionBufferFlag s;
     currentPositionBuffer := currentPositionBuffer s; thisPositionBuffer := thisPositionBuffer s;
     nPositions := nPositions s; newEventType := newEventType s; newEventCode := newEventCode s;
     newEventTime := newEventTime s; newEvent := newEvent s;
     usbStreamingBufferPos := usbStreamingBufferPos s; usbStreamingBuffer := usbStreamingBuffer s;
     DataFile := DataFile s; myUSB := myUSB s; StateMachineCOM := StateMachineCOM s;
     OutputStreamCOM := OutputStreamCOM s |}.

Definition set_EncoderPos (v : Z) (s : State) : State :=
  {| thresholds := thresholds s; thresholdActive := thresholdActive s;
     nThresholds := nThresholds s; wrapPoint := wrapPoint s; nWraps := nWraps s;
     usbStreaming := usbStreaming s; sendEvents := sendEvents s; isLogging := isLogging s;
     moduleStreaming := moduleStreaming s; EncoderPos := v; currentDir := currentDir s;
     loggedDataAvailable := loggedDataAvailable s; wrappingEnabled := wrappingEnabled s;
     wrapMode := wrapMode s; LastEncoderPinAValue := LastEncoderPinAValue s; dataPos := dataPos s;
     currentTime := currentTime s; wrapPointInverse := wrapPointInverse s;
     moduleStreamPrefix := moduleStreamPrefix s; sdReadBuffer := sdReadBuffer s;
     positionBuffer := positionBuffer s; timeBuffer := timeBuffer s;
     iPositionBuffer := iPositionBuffer s; positionBufferFlag := positionBufferFlag s;
     currentPositionBuffer := currentPositionBuffer s; thisPositionBuffer := thisPositionBuffer s;
     nPositions := nPositions s; newEventType := newEventType s; newEventCode := newEventCode s;
     newEventTime := newEventTime s; newEvent := newEvent s;
     usbStreamingBufferPos := usbStreamingBufferPos s; usbStreamingBuffer := usbStreamingBuffer s;
     DataFile := DataFile s; myUSB := myUSB s; StateMachineCOM := StateMachineCOM s;
     OutputStreamCOM := OutputStreamCOM s |}.

Definition set_currentDir (v : Z) (s : State) : State :=
  {| thresholds := thresholds s; thresholdActive := thresholdActive s;
     nThresholds := nThresholds s; wrapPoint := wrapPoint s; nWraps := nWraps s;
     usbStreaming := usbStreaming s; sendEvents := sendEvents s; isLogging := isLogging s;
     moduleStreaming := moduleStreaming s; EncoderPos := EncoderPos s; currentDir := v;
     loggedDataAvailable := loggedDataAvailable s; wrappingEnabled := wrappingEnabled s;
     wrapMode := wrapMode s; LastEncoderPinAValue := LastEncoderPinAValue s; dataPos := dataPos s;
     currentTime := currentTime s; wrapPointInverse := wrapPointInverse s;
     moduleStreamPrefix := moduleStreamPrefix s; sdReadBuffer := sdReadBuffer s;
     positionBuffer := positionBuffer s; timeBuffer := timeBuffer s;
     iPositionBuffer := iPositionBuffer s; positionBufferFlag := positionBufferFlag s;
     currentPositionBuffer := currentPositionBuffer s; thisPositionBuffer := thisPositionBuffer s;
     nPositions := nPositions s; newEventType := newEventType s; newEventCode := newEventCode s;
     newEventTime := newEventTime s; newEvent := newEvent s;
     usbStreamingBufferPos := usbStreamingBufferPos s; usbStreamingBuffer := usbStreamingBuffer s;
     DataFile := DataFile s; myUSB := myUSB s; StateMachineCOM := StateMachineCOM s;
     OutputStreamCOM := OutputStreamCOM s |}.

Definition set_loggedDataAvailable (v : bool) (s : State) : State :=
  {| thresholds := thresholds s; thresholdActive := thresholdActive s;
     nThresholds := nThresholds s; wrapPoint := wrapPoint s; nWraps := nWraps s;
     usbStreaming := usbStreaming s; sendEvents := sendEvents s; isLogging := isLogging s;
     moduleStreaming := moduleStreaming s; EncoderPos := EncoderPos s; currentDir := currentDir s;
     loggedDataAvailable := v; wrappingEnabled := wrappingEnabled s; wrapMode := wrapMode s;
     LastEncoderPinAValue := LastEncoderPinAValue s; dataPos := dataPos s;
     currentTime := currentTime s; wrapPointInverse := wrapPointInverse s;
     moduleStreamPrefix := moduleStreamPrefix s; sdReadBuffer := sdReadBuffer s;
     positionBuffer := positionBuffer s; timeBuffer := timeBuffer s;
     iPositionBuffer := iPositionBuffer s; positionBufferFlag := positionBufferFlag s;
     currentPositionBuffer := currentPositionBuffer s; thisPositionBuffer := thisPositionBuffer s;
     nPositions := nPositions s; newEventType := newEventType s; newEventCode := newEventCode s;
     newEventTime := newEventTime s; newEvent := newEvent s;
     usbStreamingBufferPos := usbStreamingBufferPos s; usbStreamingBuffer := usbStreamingBuffer s;
     DataFile := DataFile s; myUSB := myUSB s; StateMachineCOM := StateMachineCOM s;
     OutputStreamCOM := OutputStreamCOM s |}.

Definition set_wrappingEnabled (v : bool) (s : State) : State :=
  {| thresholds := thresholds s; thresholdActive := thresholdActive s;
     nThresholds := nThresholds s; wrapPoint := wrapPoint s; nWraps := nWraps s;
     usbStreaming := usbStreaming s; sendEvents := sendEvents s; isLogging := isLogging s;
     moduleStreaming := moduleStreaming s; EncoderPos := EncoderPos s; currentDir := currentDir s;
     loggedDataAvailable := loggedDataAvailable s; wrappingEnabled := v; wrapMode := wrapMode s;
     LastEncoderPinAValue := LastEncoderPinAValue s; dataPos := dataPos s;
     currentTime := currentTime s; wrapPointInverse := wrapPointInverse s;
     moduleStreamPrefix := moduleStreamPrefix s; sdReadBuffer := sdReadBuffer s;
     positionBuffer := positionBuffer s; timeBuffer := timeBuffer s;
     iPositionBuffer := iPositionBuffer s; positionBufferFlag := positionBufferFlag s;
     currentPositionBuffer := currentPositionBuffer s; thisPositionBuffer := thisPositionBuffer s;
     nPositions := nPositions s; newEventType := newEventType s; newEventCode := newEventCode s;
     newEventTime := newEventTime s; newEvent := newEvent s;
     usbStreamingBufferPos := usbStreamingBufferPos s; usbStreamingBuffer := usbStreamingBuffer s;
     DataFile := DataFile s; myUSB := myUSB s; StateMachineCOM := StateMachineCOM s;
     OutputStreamCOM := OutputStreamCOM s |}.

Definition set_wrapMode (v : Z) (s : State) : State :=
  {| thresholds := thresholds s; thresholdActive := thresholdActive s;
     nThresholds := nThresholds s; wrapPoint := wrapPoint s; nWraps := nWraps s;
     usbStreaming := usbStreaming s; sendEvents := sendEvents s; isLogging := isLogging s;
     moduleStreaming := moduleStreaming s; EncoderPos := EncoderPos s; currentDir := currentDir s;
     loggedDataAvailable := loggedDataAvailable s; wrappingEnabled := wrappingEnabled s;
     wrapMode := v; LastEncoderPinAValue := LastEncoderPinAValue s; dataPos := dataPos s;
     currentTime := currentTime s; wrapPointInverse := wrapPointInverse s;
     moduleStreamPrefix := moduleStreamPrefix s; sdReadBuffer := sdReadBuffer s;
     positionBuffer := positionBuffer s; timeBuffer := timeBuffer s;
     iPositionBuffer := iPositionBuffer s; positionBufferFlag := positionBufferFlag s;
     currentPositionBuffer := currentPositionBuffer s; thisPositionBuffer := thisPositionBuffer s;
     nPositions := nPositions s; newEventType := newEventType s; newEventCode := newEventCode s;
     newEventTime := newEventTime s; newEvent := newEvent s;
     usbStreamingBufferPos := usbStreamingBufferPos s; usbStreamingBuffer := usbStreamingBuffer s;
     DataFile := DataFile s; myUSB := myUSB s; StateMachineCOM := StateMachineCOM s;
     OutputStreamCOM := OutputStreamCOM s |}.

Definition set_LastEncoderPinAValue (v : bool) (s : State) : State :=
  {| thresholds := thresholds s; thresholdActive := thresholdActive s;
     nThresholds := nThresholds s; wrapPoint := wrapPoint s; nWraps := nWraps s;
     usbStreaming := usbStreaming s; sendEvents := sendEvents s; isLogging := isLogging s;
     moduleStreaming := moduleStreaming s; EncoderPos := EncoderPos s; currentDir := currentDir s;
     loggedDataAvailable := loggedDataAvailable s; wrappingEnabled := wrappingEnabled s;
     wrapMode := wrapMode s; LastEncoderPinAValue := v; dataPos := dataPos s;
     currentTime := currentTime s; wrapPointInverse := wrapPointInverse s;
     moduleStreamPrefix := moduleStreamPrefix s; sdReadBuffer := sdReadBuffer s;
     positionBuffer := positionBuffer s; timeBuffer := timeBuffer s;
     iPositionBuffer := iPositionBuffer s; positionBufferFlag := positionBufferFlag s;
     currentPositionBuffer := currentPositionBuffer s; thisPositionBuffer := thisPositionBuffer s;
     nPositions := nPositions s; newEventType := newEventType s; newEventCode := newEventCode s;
     newEventTime := newEventTime s; newEvent := newEvent s;
     usbStreamingBufferPos := usbStreamingBufferPos s; usbStreamingBuffer := usbStreamingBuffer s;
     DataFile := DataFile s; myUSB := myUSB s; StateMachineCOM := StateMachineCOM s;
     OutputStreamCOM := OutputStreamCOM s |}.

Definition set_dataPos (v : Z) (s : State) : State :=
  {| thresholds := thresholds s; thresholdActive := thresholdActive s;
     nThresholds := nThresholds s; wrapPoint := wrapPoint s; nWraps := nWraps s;
     usbStreaming := usbStreaming s; sendEvents := sendEvents s; isLogging := isLogging s;
     moduleStreaming := moduleStreaming s; EncoderPos := EncoderPos s; currentDir := currentDir s;
     loggedDataAvailable := loggedDataAvailable s; wrappingEnabled := wrappingEnabled s;
     wrapMode := wrapMode s; LastEncoderPinAValue := LastEncoderPinAValue s; dataPos := v;
     currentTime := currentTime s; wrapPointInverse := wrapPointInverse s;
     moduleStreamPrefix := moduleStreamPrefix s; sdReadBuffer := sdReadBuffer s;
     positionBuffer := positionBuffer s; timeBuffer := timeBuffer s;
     iPositionBuffer := iPositionBuffer s; positionBufferFlag := positionBufferFlag s;
     currentPositionBuffer := currentPositionBuffer s; thisPositionBuffer := thisPositionBuffer s;
     nPositions := nPositions s; newEventType := newEventType s; newEventCode := newEventCode s;
     newEventTime := newEventTime s; newEvent := newEvent s;
     usbStreamingBufferPos := usbStreamingBufferPos s; usbStreamingBuffer := usbStreamingBuffer s;
     DataFile := DataFile s; myUSB := myUSB s; StateMachineCOM := StateMachineCOM s;
     OutputStreamCOM := OutputStreamCOM s |}.

Definition set_currentTime (v : Z) (s : State) : State :=
  {| thresholds := thresholds s; thresholdActive := thresholdActive s;
     nThresholds := nThresholds s; wrapPoint := wrapPoint s; nWraps := nWraps s;
     usbStreaming := usbStreaming s; sendEvents := sendEvents s; isLogging := isLogging s;
     moduleStreaming := moduleStreaming s; EncoderPos := EncoderPos s; currentDir := currentDir s;
     loggedDataAvailable := loggedDataAvailable s; wrappingEnabled := wrappingEnabled s;
     wrapMode := wrapMode s; LastEncoderPinAValue := LastEncoderPinAValue s; dataPos := dataPos s;
     currentTime := v; wrapPointInverse := wrapPointInverse s;
     moduleStreamPrefix := moduleStreamPrefix s; sdReadBuffer := sdReadBuffer s;
     positionBuffer := positionBuffer s; timeBuffer := timeBuffer s;
     iPositionBuffer := iPositionBuffer s; positionBufferFlag := positionBufferFlag s;
     currentPositionBuffer := currentPositionBuffer s; thisPositionBuffer := thisPositionBuffer s;
     nPositions := nPositions s; newEventType := newEventType s; newEventCode := newEventCode s;
     newEventTime := newEventTime s; newEvent := newEvent s;
     usbStreamingBufferPos := usbStreamingBufferPos s; usbStreamingBuffer := usbStreamingBuffer s;
     DataFile := DataFile s; myUSB := myUSB s; StateMachineCOM := StateMachineCOM s;
     OutputStreamCOM := OutputStreamCOM s |}.

Definition set_wrapPointInverse (v : Z) (s : State) : State :=
  {| thresholds := thresholds s; thresholdActive := thresholdActive s;
     nThresholds := nThresholds s; wrapPoint := wrapPoint s; nWraps := nWraps s;
     usbStreaming := usbStreaming s; sendEvents := sendEvents s; isLogging := isLogging s;
     moduleStreaming := moduleStreaming s; EncoderPos := EncoderPos s; currentDir := currentDir s;
     loggedDataAvailable := loggedDataAvailable s; wrappingEnabled := wrappingEnabled s;
     wrapMode := wrapMode s; LastEncoderPinAValue := LastEncoderPinAValue s; dataPos := dataPos s;
     currentTime := currentTime s; wrapPointInverse := v;
     moduleStreamPrefix := moduleStreamPrefix s; sdReadBuffer := sdReadBuffer s;
     positionBuffer := positionBuffer s; timeBuffer := timeBuffer s;
     iPositionBuffer := iPositionBuffer s; positionBufferFlag := positionBufferFlag s;
     currentPositionBuffer := currentPositionBuffer s; thisPositionBuffer := thisPositionBuffer s;
     nPositions := nPositions s; newEventType := newEventType s; newEventCode := newEventCode s;
     newEventTime := newEventTime s; newEvent := newEvent s;
     usbStreamingBufferPos := usbStreamingBufferPos s; usbStreamingBuffer := usbStreamingBuffer s;
     DataFile := DataFile s; myUSB := myUSB s; StateMachineCOM := StateMachineCOM s;
     OutputStreamCOM := OutputStreamCOM s |}.

Definition set_moduleStreamPrefix (v : Z) (s : State) : State :=
  {| thresholds := thresholds s; thresholdActive := thresholdActive s;
     nThresholds := nThresholds s; wrapPoint := wrapPoint s; nWraps := nWraps s;
     usbStreaming := usbStreaming s; sendEvents := sendEvents s; isLogging := isLogging s;
     moduleStreaming := moduleStreaming s; EncoderPos := EncoderPos s; currentDir := currentDir s;
     loggedDataAvailable := loggedDataAvailable s; wrappingEnabled := wrappingEnabled s;
     wrapMode := wrapMode s; LastEncoderPinAValue := LastEncoderPinAValue s; dataPos := dataPos s;
     currentTime := currentTime s; wrapPointInverse := wrapPointInverse s; moduleStreamPrefix := v;
     sdReadBuffer := sdReadBuffer s; positionBuffer := positionBuffer s;
     timeBuffer := timeBuffer s; iPositionBuffer := iPositionBuffer s;
     positionBufferFlag := positionBufferFlag s; currentPositionBuffer := currentPositionBuffer s;
     thisPositionBuffer := thisPositionBuffer s; nPositions := nPositions s;
     newEventType := newEventType s; newEventCode := newEventCode s;
     newEventTime := newEventTime s; newEvent := newEvent s;
     usbStreamingBufferPos := usbStreamingBufferPos s; usbStreamingBuffer := usbStreamingBuffer s;
     DataFile := DataFile s; myUSB := myUSB s; StateMachineCOM := StateMachineCOM s;
     OutputStreamCOM := OutputStreamCOM s |}.

Definition set_sdReadBuffer (v : list Z) (s : State) : State :=
  {| thresholds := thresholds s; thresholdActive := thresholdActive s;
     nThresholds := nThresholds s; wrapPoint := wrapPoint s; nWraps := nWraps s;
     usbStreaming := usbStreaming s; sendEvents := sendEvents s; isLogging := isLogging s;
     moduleStreaming := moduleStreaming s; EncoderPos := EncoderPos s; currentDir := currentDir s;
     loggedDataAvailable := loggedDataAvailable s; wrappingEnabled := wrappingEnabled s;
     wrapMode := wrapMode s; LastEncoderPinAValue := LastEncoderPinAValue s; dataPos := dataPos s;
     currentTime := currentTime s; wrapPointInverse := wrapPointInverse s;
     moduleStreamPrefix := moduleStreamPrefix s; sdReadBuffer := v;
     positionBuffer := positionBuffer s; timeBuffer := timeBuffer s;
     iPositionBuffer := iPositionBuffer s; positionBufferFlag := positionBufferFlag s;
     currentPositionBuffer := currentPositionBuffer s; thisPositionBuffer := thisPositionBuffer s;
     nPositions := nPositions s; newEventType := newEventType s; newEventCode := newEventCode s;
     newEventTime := newEventTime s; newEvent := newEvent s;
     usbStreamingBufferPos := usbStreamingBufferPos s; usbStreamingBuffer := usbStreamingBuffer s;
     DataFile := DataFile s; myUSB := myUSB s; StateMachineCOM := StateMachineCOM s;
     OutputStreamCOM := OutputStreamCOM s |}.

Definition set_positionBuffer (v : list (Z * Z)) (s : State) : State :=
  {| thresholds := thresholds s; thresholdActive := thresholdActive s;
     nThresholds := nThresholds s; wrapPoint := wrapPoint s; nWraps := nWraps s;
     usbStreaming := usbStreaming s; sendEvents := sendEvents s; isLogging := isLogging s;
     moduleStreaming := moduleStreaming s; EncoderPos := EncoderPos s; currentDir := currentDir s;
     loggedDataAvailable := loggedDataAvailable s; wrappingEnabled := wrappingEnabled s;
     wrapMode := wrapMode s; LastEncoderPinAValue := LastEncoderPinAValue s; dataPos := dataPos s;
     currentTime := currentTime s; wrapPointInverse := wrapPointInverse s;
     moduleStreamPrefix := moduleStreamPrefix s; sdReadBuffer := sdReadBuffer s;
     positionBuffer := v; timeBuffer := timeBuffer s; iPositionBuffer := iPositionBuffer s;
     positionBufferFlag := positionBufferFlag s; currentPositionBuffer := currentPositionBuffer s;
     thisPositionBuffer := thisPositionBuffer s; nPositions := nPositions s;
     newEventType := newEventType s; newEventCode := newEventCode s;
     newEventTime := newEventTime s; newEvent := newEvent s;
     usbStreamingBufferPos := usbStreamingBufferPos s; usbStreamingBuffer := usbStreamingBuffer s;
     DataFile := DataFile s; myUSB := myUSB s; StateMachineCOM := StateMachineCOM s;
     OutputStreamCOM := OutputStreamCOM s |}.

Definition set_timeBuffer (v : list (Z * Z)) (s : State) : State :=
  {| thresholds := thresholds s; thresholdActive := thresholdActive s;
     nThresholds := nThresholds s; wrapPoint := wrapPoint s; nWraps := nWraps s;
     usbStreaming := usbStreaming s; sendEvents := sendEvents s; isLogging := isLogging s;
     moduleStreaming := moduleStreaming s; EncoderPos := EncoderPos s; currentDir := currentDir s;
     loggedDataAvailable := loggedDataAvailable s; wrappingEnabled := wrappingEnabled s;
     wrapMode := wrapMode s; LastEncoderPinAValue := LastEncoderPinAValue s; dataPos := dataPos s;
     currentTime := currentTime s; wrapPointInverse := wrapPointInverse s;
     moduleStreamPrefix := moduleStreamPrefix s; sdReadBuffer := sdReadBuffer s;
     positionBuffer := positionBuffer s; timeBuffer := v; iPositionBuffer := iPositionBuffer s;
     positionBufferFlag := positionBufferFlag s; currentPositionBuffer := currentPositionBuffer s;
     thisPositionBuffer := thisPositionBuffer s; nPositions := nPositions s;
     newEventType := newEventType s; newEventCode := newEventCode s;
     newEventTime := newEventTime s; newEvent := newEvent s;
     usbStreamingBufferPos := usbStreamingBufferPos s; usbStreamingBuffer := usbStreamingBuffer s;
     DataFile := DataFile s; myUSB := myUSB s; StateMachineCOM := StateMachineCOM s;
     OutputStreamCOM := OutputStreamCOM s |}.

Definition set_iPositionBuffer (v : Z * Z) (s : State) : State :=
  {| thresholds := thresholds s; thresholdActive := thresholdActive s;
     nThresholds := nThresholds s; wrapPoint := wrapPoint s; nWraps := nWraps s;
     usbStreaming := usbStreaming s; sendEvents := sendEvents s; isLogging := isLogging s;
     moduleStreaming := moduleStreaming s; EncoderPos := EncoderPos s; currentDir := currentDir s;
     loggedDataAvailable := loggedDataAvailable s; wrappingEnabled := wrappingEnabled s;
     wrapMode := wrapMode s; LastEncoderPinAValue := LastEncoderPinAValue s; dataPos := dataPos s;
     currentTime := currentTime s; wrapPointInverse := wrapPointInverse s;
     moduleStreamPrefix := moduleStreamPrefix s; sdReadBuffer := sdReadBuffer s;
     positionBuffer := positionBuffer s; timeBuffer := timeBuffer s; iPositionBuffer := v;
     positionBufferFlag := positionBufferFlag s; currentPositionBuffer := currentPositionBuffer s;
     thisPositionBuffer := thisPositionBuffer s; nPositions := nPositions s;
     newEventType := newEventType s; newEventCode := newEventCode s;
     newEventTime := newEventTime s; newEvent := newEvent s;
     usbStreamingBufferPos := usbStreamingBufferPos s; usbStreamingBuffer := usbStreamingBuffer s;
     DataFile := DataFile s; myUSB := myUSB s; StateMachineCOM := StateMachineCOM s;
     OutputStreamCOM := OutputStreamCOM s |}.

Definition set_positionBufferFlag (v : bool) (s : State) : State :=
  {| thresholds := thresholds s; thresholdActive := thresholdActive s;
     nThresholds := nThresholds s; wrapPoint := wrapPoint s; nWraps := nWraps s;
     usbStreaming := usbStreaming s; sendEvents := sendEvents s; isLogging := isLogging s;
     moduleStreaming := moduleStreaming s; EncoderPos := EncoderPos s; currentDir := currentDir s;
     loggedDataAvailable := loggedDataAvailable s; wrappingEnabled := wrappingEnabled s;
     wrapMode := wrapMode s; LastEncoderPinAValue := LastEncoderPinAValue s; dataPos := dataPos s;
     currentTime := currentTime s; wrapPointInverse := wrapPointInverse s;
     moduleStreamPrefix := moduleStreamPrefix s; sdReadBuffer := sdReadBuffer s;
     positionBuffer := positionBuffer s; timeBuffer := timeBuffer s;
     iPositionBuffer := iPositionBuffer s; positionBufferFlag := v;
     currentPositionBuffer := currentPositionBuffer s; thisPositionBuffer := thisPositionBuffer s;
     nPositions := nPositions s; newEventType := newEventType s; newEventCode := newEventCode s;
     newEventTime := newEventTime s; newEvent := newEvent s;
     usbStreamingBufferPos := usbStreamingBufferPos s; usbStreamingBuffer := usbStreamingBuffer s;
     DataFile := DataFile s; myUSB := myUSB s; StateMachineCOM := StateMachineCOM s;
     OutputStreamCOM := OutputStreamCOM s |}.

Definition set_currentPositionBuffer (v : Z) (s : State) : State :=
  {| thresholds := thresholds s; thresholdActive := thresholdActive s;
     nThresholds := nThresholds s; wrapPoint := wrapPoint s; nWraps := nWraps s;
     usbStreaming := usbStreaming s; sendEvents := sendEvents s; isLogging := isLogging s;
     moduleStreaming := moduleStreaming s; EncoderPos := EncoderPos s; currentDir := currentDir s;
     loggedDataAvailable := loggedDataAvailable s; wrappingEnabled := wrappingEnabled s;
     wrapMode := wrapMode s; LastEncoderPinAValue := LastEncoderPinAValue s; dataPos := dataPos s;
     currentTime := currentTime s; wrapPointInverse := wrapPointInverse s;
     moduleStreamPrefix := moduleStreamPrefix s; sdReadBuffer := sdReadBuffer s;
     positionBuffer := positionBuffer s; timeBuffer := timeBuffer s;
     iPositionBuffer := iPositionBuffer s; positionBufferFlag := positionBufferFlag s;
     currentPositionBuffer := v; thisPositionBuffer := thisPositionBuffer s;
     nPositions := nPositions s; newEventType := newEventType s; newEventCode := newEventCode s;
     newEventTime := newEventTime s; newEvent := newEvent s;
     usbStreamingBufferPos := usbStreamingBufferPos s; usbStreamingBuffer := usbStreamingBuffer s;
     DataFile := DataFile s; myUSB := myUSB s; StateMachineCOM := StateMachineCOM s;
     OutputStreamCOM := OutputStreamCOM s |}.

Definition set_thisPositionBuffer (v : Z) (s : State) : State :=
  {| thresholds := thresholds s; thresholdActive := thresholdActive s;
     nThresholds := nThresholds s; wrapPoint := wrapPoint s; nWraps := nWraps s;
     usbStreaming := usbStreaming s; sendEvents := sendEvents s; isLogging := isLogging s;
     moduleStreaming := moduleStreaming s; EncoderPos := EncoderPos s; currentDir := currentDir s;
     loggedDataAvailable := loggedDataAvailable s; wrappingEnabled := wrappingEnabled s;
     wrapMode := wrapMode s; LastEncoderPinAValue := LastEncoderPinAValue s; dataPos := dataPos s;
     currentTime := currentTime s; wrapPointInverse := wrapPointInverse s;
     moduleStreamPrefix := moduleStreamPrefix s; sdReadBuffer := sdReadBuffer s;
     positionBuffer := positionBuffer s; timeBuffer := timeBuffer s;
     iPositionBuffer := iPositionBuffer s; positionBufferFlag := positionBufferFlag s;
     currentPositionBuffer := currentPositionBuffer s; thisPositionBuffer := v;
     nPositions := nPositions s; newEventType := newEventType s; newEventCode := newEventCode s;
     newEventTime := newEventTime s; newEvent := newEvent s;
     usbStreamingBufferPos := usbStreamingBufferPos s; usbStreamingBuffer := usbStreamingBuffer s;
     DataFile := DataFile s; myUSB := myUSB s; StateMachineCOM := StateMachineCOM s;
     OutputStreamCOM := OutputStreamCOM s |}.

Definition set_nPositions (v : Z) (s : State) : State :=
  {| thresholds := thresholds s; thresholdActive := thresholdActive s;
     nThresholds := nThresholds s; wrapPoint := wrapPoint s; nWraps := nWraps s;
     usbStreaming := usbStreaming s; sendEvents := sendEvents s; isLogging := isLogging s;
     moduleStreaming := moduleStreaming s; EncoderPos := EncoderPos s; currentDir := currentDir s;
     loggedDataAvailable := loggedDataAvailable s; wrappingEnabled := wrappingEnabled s;
     wrapMode := wrapMode s; LastEncoderPinAValue := LastEncoderPinAValue s; dataPos := dataPos s;
     currentTime := currentTime s; wrapPointInverse := wrapPointInverse s;
     moduleStreamPrefix := moduleStreamPrefix s; sdReadBuffer := sdReadBuffer s;
     positionBuffer := positionBuffer s; timeBuffer := timeBuffer s;
     iPositionBuffer := iPositionBuffer s; positionBufferFlag := positionBufferFlag s;
     currentPositionBuffer := currentPositionBuffer s; thisPositionBuffer := thisPositionBuffer s;
     nPositions := v; newEventType := newEventType s; newEventCode := newEventCode s;
     newEventTime := newEventTime s; newEvent := newEvent s;
     usbStreamingBufferPos := usbStreamingBufferPos s; usbStreamingBuffer := usbStreamingBuffer s;
     DataFile := DataFile s; myUSB := myUSB s; StateMachineCOM := StateMachineCOM s;
     OutputStreamCOM := OutputStreamCOM s |}.

Definition set_newEventType (v : Z) (s : State) : State :=
  {| thresholds := thresholds s; thresholdActive := thresholdActive s;
     nThresholds := nThresholds s; wrapPoint := wrapPoint s; nWraps := nWraps s;
     usbStreaming := usbStreaming s; sendEvents := sendEvents s; isLogging := isLogging s;
     moduleStreaming := moduleStreaming s; EncoderPos := EncoderPos s; currentDir := currentDir s;
     loggedDataAvailable := loggedDataAvailable s; wrappingEnabled := wrappingEnabled s;
     wrapMode := wrapMode s; LastEncoderPinAValue := LastEncoderPinAValue s; dataPos := dataPos s;
     currentTime := currentTime s; wrapPointInverse := wrapPointInverse s;
     moduleStreamPrefix := moduleStreamPrefix s; sdReadBuffer := sdReadBuffer s;
     positionBuffer := positionBuffer s; timeBuffer := timeBuffer s;
     iPositionBuffer := iPositionBuffer s; positionBufferFlag := positionBufferFlag s;
     currentPositionBuffer := currentPositionBuffer s; thisPositionBuffer := thisPositionBuffer s;
     nPositions := nPositions s; newEventType := v; newEventCode := newEventCode s;
     newEventTime := newEventTime s; newEvent := newEvent s;
     usbStreamingBufferPos := usbStreamingBufferPos s; usbStreamingBuffer := usbStreamingBuffer s;
     DataFile := DataFile s; myUSB := myUSB s; StateMachineCOM := StateMachineCOM s;
     OutputStreamCOM := OutputStreamCOM s |}.

Definition set_newEventCode (v : Z) (s : State) : State :=
  {| thresholds := thresholds s; thresholdActive := thresholdActive s;
     nThresholds := nThresholds s; wrapPoint := wrapPoint s; nWraps := nWraps s;
     usbStreaming := usbStreaming s; sendEvents := sendEvents s; isLogging := isLogging s;
     moduleStreaming := moduleStreaming s; EncoderPos := EncoderPos s; currentDir := currentDir s;
     loggedDataAvailable := loggedDataAvailable s; wrappingEnabled := wrappingEnabled s;
     wrapMode := wrapMode s; LastEncoderPinAValue := LastEncoderPinAValue s; dataPos := dataPos s;
     currentTime := currentTime s; wrapPointInverse := wrapPointInverse s;
     moduleStreamPrefix := moduleStreamPrefix s; sdReadBuffer := sdReadBuffer s;
     positionBuffer := positionBuffer s; timeBuffer := timeBuffer s;
     iPositionBuffer := iPositionBuffer s; positionBufferFlag := positionBufferFlag s;
     currentPositionBuffer := currentPositionBuffer s; thisPositionBuffer := thisPositionBuffer s;
     nPositions := nPositions s; newEventType := newEventType s; newEventCode := v;
     newEventTime := newEventTime s; newEvent := newEvent s;
     usbStreamingBufferPos := usbStreamingBufferPos s; usbStreamingBuffer := usbStreamingBuffer s;
     DataFile := DataFile s; myUSB := myUSB s; StateMachineCOM := StateMachineCOM s;
     OutputStreamCOM := OutputStreamCOM s |}.

Definition set_newEventTime (v : Z) (s : State) : State :=
  {| thresholds := thresholds s; thresholdActive := thresholdActive s;
     nThresholds := nThresholds s; wrapPoint := wrapPoint s; nWraps := nWraps s;
     usbStreaming := usbStreaming s; sendEvents := sendEvents s; isLogging := isLogging s;
     moduleStreaming := moduleStreaming s; EncoderPos := EncoderPos s; currentDir := currentDir s;
     loggedDataAvailable := loggedDataAvailable s; wrappingEnabled := wrappingEnabled s;
     wrapMode := wrapMode s; LastEncoderPinAValue := LastEncoderPinAValue s; dataPos := dataPos s;
     currentTime := currentTime s; wrapPointInverse := wrapPointInverse s;
     moduleStreamPrefix := moduleStreamPrefix s; sdReadBuffer := sdReadBuffer s;
     positionBuffer := positionBuffer s; timeBuffer := timeBuffer s;
     iPositionBuffer := iPositionBuffer s; positionBufferFlag := positionBufferFlag s;
     currentPositionBuffer := currentPositionBuffer s; thisPositionBuffer := thisPositionBuffer s;
     nPositions := nPositions s; newEventType := newEventType s; newEventCode := newEventCode s;
     newEventTime := v; newEvent := newEvent s; usbStreamingBufferPos := usbStreamingBufferPos s;
     usbStreamingBuffer := usbStreamingBuffer s; DataFile := DataFile s; myUSB := myUSB s;
     StateMachineCOM := StateMachineCOM s; OutputStreamCOM := OutputStreamCOM s |}.

Definition set_newEvent (v : bool) (s : State) : State :=
  {| thresholds := thresholds s; thresholdActive := thresholdActive s;
     nThresholds := nThresholds s; wrapPoint := wrapPoint s; nWraps := nWraps s;
     usbStreaming := usbStreaming s; sendEvents := sendEvents s; isLogging := isLogging s;
     moduleStreaming := moduleStreaming s; EncoderPos := EncoderPos s; currentDir := currentDir s;
     loggedDataAvailable := loggedDataAvailable s; wrappingEnabled := wrappingEnabled s;
     wrapMode := wrapMode s; LastEncoderPinAValue := LastEncoderPinAValue s; dataPos := dataPos s;
     currentTime := currentTime s; wrapPointInverse := wrapPointInverse s;
     moduleStreamPrefix := moduleStreamPrefix s; sdReadBuffer := sdReadBuffer s;
     positionBuffer := positionBuffer s; timeBuffer := timeBuffer s;
     iPositionBuffer := iPositionBuffer s; positionBufferFlag := positionBufferFlag s;
     currentPositionBuffer := currentPositionBuffer s; thisPositionBuffer := thisPositionBuffer s;
     nPositions := nPositions s; newEventType := newEventType s; newEventCode := newEventCode s;
     newEventTime := newEventTime s; newEvent := v;
     usbStreamingBufferPos := usbStreamingBufferPos s; usbStreamingBuffer := usbStreamingBuffer s;
     DataFile := DataFile s; myUSB := myUSB s; StateMachineCOM := StateMachineCOM s;
     OutputStreamCOM := OutputStreamCOM s |}.

Definition set_usbStreamingBufferPos (v : Z) (s : State) : State :=
  {| thresholds := thresholds s; thresholdActive := thresholdActive s;
     nThresholds := nThresholds s; wrapPoint := wrapPoint s; nWraps := nWraps s;
     usbStreaming := usbStreaming s; sendEvents := sendEvents s; isLogging := isLogging s;
     moduleStreaming := moduleStreaming s; EncoderPos := EncoderPos s; currentDir := currentDir s;
     loggedDataAvailable := loggedDataAvailable s; wrappingEnabled := wrappingEnabled s;
     wrapMode := wrapMode s; LastEncoderPinAValue := LastEncoderPinAValue s; dataPos := dataPos s;
     currentTime := currentTime s; wrapPointInverse := wrapPointInverse s;
     moduleStreamPrefix := moduleStreamPrefix s; sdReadBuffer := sdReadBuffer s;
     positionBuffer := positionBuffer s; timeBuffer := timeBuffer s;
     iPositionBuffer := iPositionBuffer s; positionBufferFlag := positionBufferFlag s;
     currentPositionBuffer := currentPositionBuffer s; thisPositionBuffer := thisPositionBuffer s;
     nPositions := nPositions s; newEventType := newEventType s; newEventCode := newEventCode s;
     newEventTime := newEventTime s; newEvent := newEvent s; usbStreamingBufferPos := v;
     usbStreamingBuffer := usbStreamingBuffer s; DataFile := DataFile s; myUSB := myUSB s;
     StateMachineCOM := StateMachineCOM s; OutputStreamCOM := OutputStreamCOM s |}.

Definition set_usbStreamingBuffer (v : list Z) (s : State) : State :=
  {| thresholds := thresholds s; thresholdActive := thresholdActive s;
     nThresholds := nThresholds s; wrapPoint := wrapPoint s; nWraps := nWraps s;
     usbStreaming := usbStreaming s; sendEvents := sendEvents s; isLogging := isLogging s;
     moduleStreaming := moduleStreaming s; EncoderPos := EncoderPos s; currentDir := currentDir s;
     loggedDataAvailable := loggedDataAvailable s; wrappingEnabled := wrappingEnabled s;
     wrapMode := wrapMode s; LastEncoderPinAValue := LastEncoderPinAValue s; dataPos := dataPos s;
     currentTime := currentTime s; wrapPointInverse := wrapPointInverse s;
     moduleStreamPrefix := moduleStreamPrefix s; sdReadBuffer := sdReadBuffer s;
     positionBuffer := positionBuffer s; timeBuffer := timeBuffer s;
     iPositionBuffer := iPositionBuffer s; positionBufferFlag := positionBufferFlag s;
     currentPositionBuffer := currentPositionBuffer s; thisPositionBuffer := thisPositionBuffer s;
     nPositions := nPositions s; newEventType := newEventType s; newEventCode := newEventCode s;
     newEventTime := newEventTime s; newEvent := newEvent s;
     usbStreamingBufferPos := usbStreamingBufferPos s; usbStreamingBuffer := v;
     DataFile := DataFile s; myUSB := myUSB s; StateMachineCOM := StateMachineCOM s;
     OutputStreamCOM := OutputStreamCOM s |}.

Definition set_DataFile (v : File) (s : State) : State :=
  {| thresholds := thresholds s; thresholdActive := thresholdActive s;
     nThresholds := nThresholds s; wrapPoint := wrapPoint s; nWraps := nWraps s;
     usbStreaming := usbStreaming s; sendEvents := sendEvents s; isLogging := isLogging s;
     moduleStreaming := moduleStreaming s; EncoderPos := EncoderPos s; currentDir := currentDir s;
     loggedDataAvailable := loggedDataAvailable s; wrappingEnabled := wrappingEnabled s;
     wrapMode := wrapMode s; LastEncoderPinAValue := LastEncoderPinAValue s; dataPos := dataPos s;
     currentTime := currentTime s; wrapPointInverse := wrapPointInverse s;
     moduleStreamPrefix := moduleStreamPrefix s; sdReadBuffer := sdReadBuffer s;
     positionBuffer := positionBuffer s; timeBuffer := timeBuffer s;
     iPositionBuffer := iPositionBuffer s; positionBufferFlag := positionBufferFlag s;
     currentPositionBuffer := currentPositionBuffer s; thisPositionBuffer := thisPositionBuffer s;
     nPositions := nPositions s; newEventType := newEventType s; newEventCode := newEventCode s;
     newEventTime := newEventTime s; newEvent := newEvent s;
     usbStreamingBufferPos := usbStreamingBufferPos s; usbStreamingBuffer := usbStreamingBuffer s;
     DataFile := v; myUSB := myUSB s; StateMachineCOM := StateMachineCOM s;
     OutputStreamCOM := OutputStreamCOM s |}.

Definition set_myUSB (v : ArCOM) (s : State) : State :=
  {| thresholds := thresholds s; thresholdActive := thresholdActive s;
     nThresholds := nThresholds s; wrapPoint := wrapPoint s; nWraps := nWraps s;
     usbStreaming := usbStreaming s; sendEvents := sendEvents s; isLogging := isLogging s;
     moduleStreaming := moduleStreaming s; EncoderPos := EncoderPos s; currentDir := currentDir s;
     loggedDataAvailable := loggedDataAvailable s; wrappingEnabled := wrappingEnabled s;
     wrapMode := wrapMode s; LastEncoderPinAValue := LastEncoderPinAValue s; dataPos := dataPos s;
     currentTime := currentTime s; wrapPointInverse := wrapPointInverse s;
     moduleStreamPrefix := moduleStreamPrefix s; sdReadBuffer := sdReadBuffer s;
     positionBuffer := positionBuffer s; timeBuffer := timeBuffer s;
     iPositionBuffer := iPositionBuffer s; positionBufferFlag := positionBufferFlag s;
     currentPositionBuffer := currentPositionBuffer s; thisPositionBuffer := thisPositionBuffer s;
     nPositions := nPositions s; newEventType := newEventType s; newEventCode := newEventCode s;
     newEventTime := newEventTime s; newEvent := newEvent s;
     usbStreamingBufferPos := usbStreamingBufferPos s; usbStreamingBuffer := usbStreamingBuffer s;
     DataFile := DataFile s; myUSB := v; StateMachineCOM := StateMachineCOM s;
     OutputStreamCOM := OutputStreamCOM s |}.

Definition set_StateMachineCOM (v : ArCOM) (s : State) : State :=
  {| thresholds := thresholds s; thresholdActive := thresholdActive s;
     nThresholds := nThresholds s; wrapPoint := wrapPoint s; nWraps := nWraps s;
     usbStreaming := usbStreaming s; sendEvents := sendEvents s; isLogging := isLogging s;
     moduleStreaming := moduleStreaming s; EncoderPos := EncoderPos s; currentDir := currentDir s;
     loggedDataAvailable := loggedDataAvailable s; wrappingEnabled := wrappingEnabled s;
     wrapMode := wrapMode s; LastEncoderPinAValue := LastEncoderPinAValue s; dataPos := dataPos s;
     currentTime := currentTime s; wrapPointInverse := wrapPointInverse s;
     moduleStreamPrefix := moduleStreamPrefix s; sdReadBuffer := sdReadBuffer s;
     positionBuffer := positionBuffer s; timeBuffer := timeBuffer s;
     iPositionBuffer := iPositionBuffer s; positionBufferFlag := positionBufferFlag s;
     currentPositionBuffer := currentPositionBuffer s; thisPositionBuffer := thisPositionBuffer s;
     nPositions := nPositions s; newEventType := newEventType s; newEventCode := newEventCode s;
     newEventTime := newEventTime s; newEvent := newEvent s;
     usbStreamingBufferPos := usbStreamingBufferPos s; usbStreamingBuffer := usbStreamingBuffer s;
     DataFile := DataFile s; myUSB := myUSB s; StateMachineCOM := v;
     OutputStreamCOM := OutputStreamCOM s |}.

Definition set_OutputStreamCOM (v : ArCOM) (s : State) : State :=
  {| thresholds := thresholds s; thresholdActive := thresholdActive s;
     nThresholds := nThresholds s; wrapPoint := wrapPoint s; nWraps := nWraps s;
     usbStreaming := usbStreaming s; sendEvents := sendEvents s; isLogging := isLogging s;
     moduleStreaming := moduleStreaming s; EncoderPos := EncoderPos s; currentDir := currentDir s;
     loggedDataAvailable := loggedDataAvailable s; wrappingEnabled := wrappingEnabled s;
     wrapMode := wrapMode s; LastEncoderPinAValue := LastEncoderPinAValue s; dataPos := dataPos s;
     currentTime := currentTime s; wrapPointInverse := wrapPointInverse s;
     moduleStreamPrefix := moduleStreamPrefix s; sdReadBuffer := sdReadBuffer s;
     positionBuffer := positionBuffer s; timeBuffer := timeBuffer s;
     iPositionBuffer := iPositionBuffer s; positionBufferFlag := positionBufferFlag s;
     currentPositionBuffer := currentPositionBuffer s; thisPositionBuffer := thisPositionBuffer s;
     nPositions := nPositions s; newEventType := newEventType s; newEventCode := newEventCode s;
     newEventTime := newEventTime s; newEvent := newEvent s;
     usbStreamingBufferPos := usbStreamingBufferPos s; usbStreamingBuffer := usbStreamingBuffer s;
     DataFile := DataFile s; myUSB := myUSB s; StateMachineCOM := StateMachineCOM s;
     OutputStreamCOM := v |}.
(** ** The monad of the sketch *)

(** Outcome of running a piece of the sketch from a state: it returns
    ([Ok]); it spins in a blocking read on an empty channel ([Blocked], with
    the state reached so far); or it indexes an array out of bounds
    ([Fault], with the state at the access), where C leaves the behaviour
    undefined. *)
Inductive Res (A : Type) : Type :=
| Ok (a : A) (s : State)
| Blocked (s : State)
| Fault (s : State).
Arguments Ok {A} a s.
Arguments Blocked {A} s.
Arguments Fault {A} s.

Definition M (A : Type) : Type := State -> Res A.

Definition ret {A : Type} (a : A) : M A := fun s => Ok a s.

Definition bind {A B : Type} (m : M A) (k : A -> M B) : M B :=
  fun s =>
    match m s with
    | Ok a s' => k a s'
    | Blocked s' => Blocked s'
    | Fault s' => Fault s'
    end.

(** The state a computation leaves, however it ends. *)
Definition final {A : Type} (r : Res A) : State :=
  match r with Ok _ s | Blocked s | Fault s => s end.

Declare Scope fw_scope.
Delimit Scope fw_scope with fw.
Notation "x <- m ;; k" := (bind m (fun x => k))
  (at level 100, m at next level, right associativity) : fw_scope.
Notation "m ;; k" := (bind m (fun _ => k))
  (at level 100, right associativity) : fw_scope.
Local Open Scope fw_scope.

Definition gets {A : Type} (f : State -> A) : M A := fun s => Ok (f s) s.
Definition modify (f : State -> State) : M unit := fun s => Ok tt (f s).
Definition fault {A : Type} : M A := fun s => Fault s.
Definition block {A : Type} : M A := fun s => Blocked s.
Definition when (b : bool) (m : M unit) : M unit := if b then m else ret tt.

(** [for (int i = 0; i < n; i++) body] *)
Fixpoint for_from (i : Z) (n : nat) (body : Z -> M unit) : M unit :=
  match n with
  | O => ret tt
  | S n' => body i ;; for_from (i + 1) n' body
  end.
Definition for_ (n : Z) (body : Z -> M unit) : M unit := for_from 0 (Z.to_nat n) body.

(** *** Arrays: every access is checked against the declared size *)

Definition in_bounds {A : Type} (l : list A) (i : Z) : bool :=
  (0 <=? i) && (i <? Z.of_nat (length l)).

Definition index {A : Type} (l : list A) (i : Z) : M A :=
  if 0 <=? i then
    match l !! Z.to_nat i with
    | Some x => ret x
    | None => fault
    end
  else fault.

Definition store {A : Type} (l : list A) (i : Z) (v : A) : M (list A) :=
  if in_bounds l i then ret (<[Z.to_nat i := v]> l) else fault.

(** [a[i]] and [a[i] = v] for a global array [a]. *)
Definition load {A : Type} (arr : State -> list A) (i : Z) : M A :=
  l <- gets arr ;; index l i.
Definition assign {A : Type} (arr : State -> list A) (set_arr : list A -> State -> State)
    (i : Z) (v : A) : M unit :=
  l <- gets arr ;; l' <- store l i v ;; modify (set_arr l').

(** Column [k] of a two-element row. *)
Definition col {A : Type} (k : Z) (row : A * A) : M A :=
  if k =? 0 then ret (fst row) else if k =? 1 then ret (snd row) else fault.
Definition set_col {A : Type} (k : Z) (v : A) (row : A * A) : M (A * A) :=
  if k =? 0 then ret (v, snd row) else if k =? 1 then ret (fst row, v) else fault.

(** [a[i][k]] and [a[i][k] = v] for a global two-column array [a]. *)
Definition load2 {A : Type} (arr : State -> list (A * A)) (i k : Z) : M A :=
  row <- load arr i ;; col k row.
Definition assign2 {A : Type} (arr : State -> list (A * A))
    (set_arr : list (A * A) -> State -> State) (i k : Z) (v : A) : M unit :=
  row <- load arr i ;; row' <- set_col k v row ;; assign arr set_arr i row'.

(** *** The serial channels

    The primitives of the transport object, which is not part of the
    sketch; integers travel low byte first. *)

Definition chan (c : Source) : State -> ArCOM :=
  match c with
  | FromUSB => myUSB
  | FromStateMachine => StateMachineCOM
  | FromOutputStream => OutputStreamCOM
  end.

Definition set_chan (c : Source) : ArCOM -> State -> State :=
  match c with
  | FromUSB => set_myUSB
  | FromStateMachine => set_StateMachineCOM
  | FromOutputStream => set_OutputStreamCOM
  end.

(** Modelled from the spec: [available()], the number of bytes pending. *)
Definition available (c : Source) : M Z :=
  gets (fun s => Z.of_nat (length (rx (chan c s)))).

(** Modelled from the spec: [readByte()], the blocking read of one byte;
    what is read is a [byte]. *)
Definition readByte (c : Source) : M Z :=
  fun s =>
    match rx (chan c s) with
    | [] => Blocked s
    | b :: rest => Ok (u8 b) (set_chan c {| rx := rest; tx := tx (chan c s) |} s)
    end.

(** Modelled from the spec: [readInt16()], a signed 16-bit value from two
    bytes. *)
Definition readInt16 (c : Source) : M Z :=
  lo <- readByte c ;; hi <- readByte c ;; ret (i16 (lo + 256 * hi)).

(** Modelled from the spec: the write primitives [writeByte], [writeUint16],
    [writeInt16], [writeUint32] and [writeCharArray] append bytes to what
    the channel has sent. *)
Definition writeBytes (c : Source) (bs : list Z) : M unit :=
  modify (fun s => set_chan c {| rx := rx (chan c s); tx := tx (chan c s) ++ bs |} s).

Definition writeByte (c : Source) (b : Z) : M unit := writeBytes c [u8 b].
Definition writeUint16 (c : Source) (v : Z) : M unit := writeBytes c (le16 v).
Definition writeInt16 (c : Source) (v : Z) : M unit := writeBytes c (le16 v).
Definition writeUint32 (c : Source) (v : Z) : M unit := writeBytes c (le32 v).

(** Modelled from the spec: [writeByteArray(buf, n)] sends the first [n]
    bytes of [buf]; to read them past the end of [buf] is out of bounds. *)
Definition writeByteArray (c : Source) (buf : list Z) (n : Z) : M unit :=
  if (0 <=? n) && (n <=? Z.of_nat (length buf))
  then writeBytes c (take (Z.to_nat n) buf)
  else fault.

(** Modelled from the spec: [flush()] changes nothing that the sketch
    observes. *)
Definition flush (c : Source) : M unit := ret tt.

(** *** The log file

    The primitives of the file object, which is not part of the sketch. *)

(** Modelled from the spec: [seek(p)] moves the read/write position to
    [p], if the file has that many bytes. *)
Definition file_seek (p : Z) : M unit :=
  modify (fun s =>
    if (0 <=? p) && (p <=? Z.of_nat (length (content (DataFile s))))
    then set_DataFile {| content := content (DataFile s); cursor := p |} s
    else s).

(** Modelled from the spec: [write(buf, n)] puts the bytes at the
    read/write position, over what is there or extending the file, and
    moves the position past them. *)
Definition file_write (bs : list Z) : M unit :=
  modify (fun s =>
    let f := DataFile s in
    let at_ := Z.to_nat (cursor f) in
    set_DataFile
      {| content := take at_ (content f) ++ bs ++ drop (at_ + length bs)%nat (content f);
         cursor := cursor f + Z.of_nat (length bs) |} s).

(** Modelled from the spec: [DataFile.read(sdReadBuffer, n)], up to [n]
    bytes from the read/write position, as many as the file has, overwrite
    the start of [sdReadBuffer]; the position moves past them. *)
Definition file_read_sdReadBuffer (n : Z) : M unit :=
  f <- gets DataFile ;;
  buf <- gets sdReadBuffer ;;
  let got := take (Z.to_nat n) (drop (Z.to_nat (cursor f)) (content f)) in
  if (length got <=? length buf)%nat then
    modify (fun s =>
      set_DataFile {| content := content f; cursor := cursor f + Z.of_nat (length got) |}
        (set_sdReadBuffer (got ++ drop (length got) buf) s))
  else fault.

(** ** The interrupt handler *)

Definition wrapped_up : M unit := modify (fun s => set_nWraps (i32 (nWraps s + 1)) s).
Definition wrapped_down : M unit := modify (fun s => set_nWraps (i32 (nWraps s - 1)) s).

(** The [if (wrappingEnabled) { switch (wrapMode) ... }] block of
    [processPosition]. *)
Definition wrapPosition : M unit :=
  enabled <- gets wrappingEnabled ;;
  when enabled (
    mode <- gets wrapMode ;;
    pos <- gets EncoderPos ;;
    wp <- gets wrapPoint ;;
    inv <- gets wrapPointInverse ;;
    if mode =? 0 then (* Bipolar mode *)
      if pos <=? inv then modify (set_EncoderPos wp) ;; wrapped_down
      else if pos >=? wp then modify (set_EncoderPos inv) ;; wrapped_up
      else ret tt
    else if mode =? 1 then (* Unipolar mode *)
      if pos >? wp then modify (set_EncoderPos 0) ;; wrapped_up
      else if pos <? 0 then modify (set_EncoderPos wp) ;; wrapped_down
      else ret tt
    else ret tt).

(** The rest of [processPosition]: the sample goes to the next free slot
    of the half of the double buffer selected for writing. *)
Definition commitSample : M unit :=
  cur <- gets currentPositionBuffer ;;
  counts <- gets iPositionBuffer ;;
  thisInd <- col cur counts ;;
  pos <- gets EncoderPos ;;
  assign2 positionBuffer set_positionBuffer thisInd cur pos ;;
  now <- gets currentTime ;;
  assign2 timeBuffer set_timeBuffer thisInd cur (i32 now) ;;
  counts' <- set_col cur (u32 (thisInd + 1)) counts ;;
  modify (set_iPositionBuffer counts') ;;
  modify (set_positionBufferFlag true).

Definition processPosition : M unit := wrapPosition ;; commitSample.

(** Called on every change of pin A; the arguments are the levels read from
    pins A and B. *)
Definition updatePosition (EncoderPinAValue EncoderPinBValue : bool) : M unit :=
  last <- gets LastEncoderPinAValue ;;
  (if EncoderPinAValue && negb last then (* rising edge of pin A *)
     if EncoderPinBValue then
       dir <- gets currentDir ;;
       when (dir =? 0) (
         modify (fun s => set_EncoderPos (i16 (EncoderPos s + 1)) s) ;;
         processPosition) ;;
       modify (set_currentDir 0)
     else modify (set_currentDir 1)
   else (* falling edge of pin A *)
     if EncoderPinBValue then
       dir <- gets currentDir ;;
       when (dir =? 1) (
         modify (fun s => set_EncoderPos (i16 (EncoderPos s - 1)) s) ;;
         processPosition) ;;
       modify (set_currentDir 1)
     else modify (set_currentDir 0)) ;;
  modify (set_LastEncoderPinAValue EncoderPinAValue).

(** ** Helpers of the main loop *)

Definition returnModuleInfo : M unit :=
  writeByte FromStateMachine 65 ;;
  writeUint32 FromStateMachine FirmwareVersion ;;
  writeByte FromStateMachine (Z.of_nat (length moduleName)) ;;
  writeBytes FromStateMachine moduleName ;;
  writeByte FromStateMachine 0.

Definition startLogging : M unit :=
  file_seek 0 ;;
  modify (set_dataPos 0) ;;
  modify (set_currentTime 0) ;;
  modify (set_isLogging true) ;;
  modify (set_iPositionBuffer (0, 0)).

Definition logCurrentPosition : M unit :=
  n <- gets nPositions ;;
  when (n >? 0) (
    for_ n (fun i =>
      this <- gets thisPositionBuffer ;;
      p <- load2 positionBuffer i this ;;
      t <- load2 timeBuffer i this ;;
      file_write (le32 p ++ le32 t) ;;
      modify (fun s => set_dataPos (u32 (dataPos s + 1)) s))).

Definition readByteFromSource (opSource : Source) : M Z := readByte opSource.

Definition resetDataStreams : M unit :=
  modify (set_usbStreaming false) ;;
  modify (set_isLogging false) ;;
  modify (set_dataPos 0) ;;
  modify (set_EncoderPos 0) ;;
  modify (set_nWraps 0) ;;
  modify (set_iPositionBuffer (0, 0)).

Definition is_usb (opSource : Source) : bool :=
  match opSource with FromUSB => true | _ => false end.
Definition is_state_machine (opSource : Source) : bool :=
  match opSource with FromStateMachine => true | _ => false end.

(** [usbStreamingBuffer[0..6] = tag, b1, b2, time] followed by
    [myUSB.writeByteArray(usbStreamingBuffer, 7)]. *)
Definition send_record (tag b1 b2 time : Z) : M unit :=
  assign usbStreamingBuffer set_usbStreamingBuffer 0 tag ;;
  assign usbStreamingBuffer set_usbStreamingBuffer 1 b1 ;;
  assign usbStreamingBuffer set_usbStreamingBuffer 2 b2 ;;
  assign usbStreamingBuffer set_usbStreamingBuffer 3 (byte_at 0 time) ;;
  assign usbStreamingBuffer set_usbStreamingBuffer 4 (byte_at 1 time) ;;
  assign usbStreamingBuffer set_usbStreamingBuffer 5 (byte_at 2 time) ;;
  assign usbStreamingBuffer set_usbStreamingBuffer 6 (byte_at 3 time) ;;
  buf <- gets usbStreamingBuffer ;;
  writeByteArray FromUSB buf 7.

(** ** The cases of [switch(opCode)] *)

Definition case_255 (opSource : Source) : M unit :=
  when (is_state_machine opSource) returnModuleInfo.

Definition case_C (opSource : Source) : M unit :=
  when (is_usb opSource) (writeByte FromUSB 217).

Definition case_S (opSource : Source) : M unit :=
  when (is_usb opSource) (
    b <- readByte FromUSB ;;
    modify (set_usbStreaming (to_boolean b)) ;;
    when (to_boolean b) (
      modify (set_EncoderPos 0) ;;
      modify (set_nWraps 0) ;;
      modify (set_currentTime 0))).

Definition case_O (opSource : Source) : M unit :=
  b <- readByteFromSource opSource ;;
  modify (set_moduleStreaming (to_boolean b)) ;;
  when (is_usb opSource) (writeByte FromUSB 1).

Definition case_V (opSource : Source) : M unit :=
  when (is_usb opSource) (
    b <- readByte FromUSB ;;
    modify (set_sendEvents (to_boolean b)) ;;
    writeByte FromUSB 1).

Definition case_hash (opSource : Source) : M unit :=
  when (is_state_machine opSource) (
    code <- readByte FromStateMachine ;;
    modify (set_newEventCode code) ;;
    now <- gets currentTime ;;
    modify (set_newEventTime now) ;;
    modify (set_newEventType 0) ;;
    streaming <- gets usbStreaming ;;
    when streaming (send_record 69 0 code now) ;;
    modify (set_newEvent true)).

Definition case_W (opSource : Source) : M unit :=
  when (is_usb opSource) (
    wp <- readInt16 FromUSB ;;
    modify (set_wrapPoint wp) ;;
    writeByte FromUSB 1 ;;
    modify (set_wrappingEnabled (negb (wp =? 0))) ;;
    modify (set_wrapPointInverse (i16 (wp * -1))) ;;
    modify (set_nWraps 0) ;;
    pos <- gets EncoderPos ;;
    inv <- gets wrapPointInverse ;;
    when ((pos >? wp) || (pos <? inv)) (modify (set_EncoderPos wp))).

Definition case_M (opSource : Source) : M unit :=
  when (is_usb opSource) (
    mode <- readByte FromUSB ;;
    modify (set_wrapMode mode) ;;
    writeByte FromUSB 1).

(** [thresholds[i] = myUSB.readInt16()], the body of the loop of 'T'. *)
Definition read_threshold (i : Z) : M unit :=
  v <- readInt16 FromUSB ;; assign thresholds set_thresholds i v.

Definition case_T (opSource : Source) : M unit :=
  when (is_usb opSource) (
    param <- readByte FromUSB ;;
    if param <=? maxThresholds then
      modify (set_nThresholds param) ;;
      for_ param read_threshold ;;
      writeByte FromUSB 1
    else writeByte FromUSB 0).

Definition case_I (opSource : Source) : M unit :=
  when (is_usb opSource) (
    b <- readByte FromUSB ;;
    modify (set_moduleStreamPrefix b) ;;
    writeByte FromUSB 1).

Definition case_semicolon (opSource : Source) : M unit :=
  param <- readByteFromSource opSource ;;
  n <- gets nThresholds ;;
  for_ n (fun i => assign thresholdActive set_thresholdActive i (Z.testbit param i)) ;;
  modify (set_nWraps 0).

Definition case_Z (opSource : Source) : M unit :=
  modify (set_EncoderPos 0) ;;
  modify (set_nWraps 0) ;;
  streaming <- gets usbStreaming ;;
  when streaming (
    now <- gets currentTime ;;
    modify (set_newEventTime now) ;;
    send_record 80 0 0 now).

Definition case_E (opSource : Source) : M unit :=
  n <- gets nThresholds ;;
  for_ n (fun i => assign thresholdActive set_thresholdActive i true) ;;
  modify (set_nWraps 0).

Definition case_L (opSource : Source) : M unit := startLogging.

Definition case_F (opSource : Source) : M unit :=
  logCurrentPosition ;;
  modify (set_isLogging false) ;;
  n <- gets dataPos ;;
  when (n >? 0) (modify (set_loggedDataAvailable true)).

(** [DataFile.read(sdReadBuffer, n); myUSB.writeByteArray(sdReadBuffer, n)]:
    one transfer of the 'R' case, [n] bytes from the file to the host by
    way of [sdReadBuffer]. *)
Definition transfer (n : Z) : M unit :=
  file_read_sdReadBuffer n ;;
  buf <- gets sdReadBuffer ;;
  writeByteArray FromUSB buf n.

(** The quotient [floor((double)dataPos * 8 / (double)sdReadBufferSize)] is
    taken on the exact product: a 32-bit count times 8 is far below 2^53
    and the divisor is a power of two, so the double arithmetic is exact. *)
Definition case_R (opSource : Source) : M unit :=
  when (is_usb opSource) (
    modify (set_isLogging false) ;;
    avail <- gets loggedDataAvailable ;;
    if avail then
      modify (set_loggedDataAvailable false) ;;
      file_seek 0 ;;
      n <- gets dataPos ;;
      let nFullBufferReads :=
        if u32 (n * 8) >? sdReadBufferSize then u32 (n * 8 / sdReadBufferSize) else 0 in
      writeUint32 FromUSB n ;;
      for_ nFullBufferReads (fun _ => transfer sdReadBufferSize) ;;
      let nRemainderBytes := u32 (n * 8 - nFullBufferReads * sdReadBufferSize) in
      when (nRemainderBytes >? 0) (transfer nRemainderBytes) ;;
      modify (set_dataPos 0)
    else writeUint32 FromUSB 0).

Definition case_Q (opSource : Source) : M unit :=
  when (is_usb opSource) (pos <- gets EncoderPos ;; writeInt16 FromUSB pos).

Definition case_P (opSource : Source) : M unit :=
  when (is_usb opSource) (
    pos <- readInt16 FromUSB ;;
    modify (set_EncoderPos pos) ;;
    modify (set_nWraps 0) ;;
    writeByte FromUSB 1).

Definition case_X (opSource : Source) : M unit := resetDataStreams.

(** The opcodes of the [switch]. *)
Inductive OpCode : Type :=
| Op255 | OpC | OpS | OpO | OpV | OpHash | OpW | OpM | OpT | OpI
| OpSemicolon | OpZ | OpE | OpL | OpF | OpR | OpQ | OpP | OpX.

Definition opCode_byte (op : OpCode) : Z :=
  match op with
  | Op255 => 255 | OpC => 67 | OpS => 83 | OpO => 79 | OpV => 86 | OpHash => 35
  | OpW => 87 | OpM => 77 | OpT => 84 | OpI => 73 | OpSemicolon => 59 | OpZ => 90
  | OpE => 69 | OpL => 76 | OpF => 70 | OpR => 82 | OpQ => 81 | OpP => 80 | OpX => 88
  end.

Definition all_opCodes : list OpCode :=
  [Op255; OpC; OpS; OpO; OpV; OpHash; OpW; OpM; OpT; OpI;
   OpSemicolon; OpZ; OpE; OpL; OpF; OpR; OpQ; OpP; OpX].

(** The case label a byte selects, if any. *)
Definition decode_opCode (b : Z) : option OpCode :=
  find (fun op => opCode_byte op =? b) all_opCodes.

Definition run_case (op : OpCode) : Source -> M unit :=
  match op with
  | Op255 => case_255 | OpC => case_C | OpS => case_S | OpO => case_O | OpV => case_V
  | OpHash => case_hash | OpW => case_W | OpM => case_M | OpT => case_T | OpI => case_I
  | OpSemicolon => case_semicolon | OpZ => case_Z | OpE => case_E | OpL => case_L
  | OpF => case_F | OpR => case_R | OpQ => case_Q | OpP => case_P | OpX => case_X
  end.

(** [switch(opCode) { ... }]: a byte that is no case label does nothing. *)
Definition dispatch (opCode : Z) (opSource : Source) : M unit :=
  match decode_opCode opCode with
  | Some op => run_case op opSource
  | None => ret tt
  end.

(** ** The main loop *)

(** The first channel, in priority order, with a byte pending gives the
    opcode and its source. *)
Definition poll : M (option (Z * Source)) :=
  nUSB <- available FromUSB ;;
  if nUSB >? 0 then
    opCode <- readByte FromUSB ;; ret (Some (opCode, FromUSB))
  else
    nSM <- available FromStateMachine ;;
    if nSM >? 0 then
      opCode <- readByte FromStateMachine ;; ret (Some (opCode, FromStateMachine))
    else
      nOS <- available FromOutputStream ;;
      if nOS >? 0 then
        opCode <- readByte FromOutputStream ;; ret (Some (opCode, FromOutputStream))
      else ret None.

(** Hand-over of the filled half of the double buffer. *)
Definition swapBuffers : M unit :=
  modify (set_positionBufferFlag false) ;;
  cur <- gets currentPositionBuffer ;;
  counts <- gets iPositionBuffer ;;
  n <- col cur counts ;;
  modify (set_nPositions n) ;;
  modify (set_thisPositionBuffer cur) ;;
  modify (set_currentPositionBuffer (u8 (1 - cur))) ;;
  counts' <- set_col (u8 (1 - cur)) 0 counts ;;
  modify (set_iPositionBuffer counts').

Definition usbStreamingBufferPos_add (k : Z) : M unit :=
  modify (fun s => set_usbStreamingBufferPos (u32 (usbStreamingBufferPos s + k)) s).

(** One iteration of the host-stream loop: a 7-byte position record. *)
Definition usbStream_sample (i : Z) : M unit :=
  at_ <- gets usbStreamingBufferPos ;;
  assign usbStreamingBuffer set_usbStreamingBuffer at_ 80 ;;
  usbStreamingBufferPos_add 1 ;;
  this <- gets thisPositionBuffer ;;
  p <- load2 positionBuffer i this ;;
  at_ <- gets usbStreamingBufferPos ;;
  assign usbStreamingBuffer set_usbStreamingBuffer at_ (byte_at 0 p) ;;
  assign usbStreamingBuffer set_usbStreamingBuffer (at_ + 1) (byte_at 1 p) ;;
  usbStreamingBufferPos_add 2 ;;
  t <- load2 timeBuffer i this ;;
  at_ <- gets usbStreamingBufferPos ;;
  assign usbStreamingBuffer set_usbStreamingBuffer at_ (byte_at 0 t) ;;
  assign usbStreamingBuffer set_usbStreamingBuffer (at_ + 1) (byte_at 1 t) ;;
  assign usbStreamingBuffer set_usbStreamingBuffer (at_ + 2) (byte_at 2 t) ;;
  assign usbStreamingBuffer set_usbStreamingBuffer (at_ + 3) (byte_at 3 t) ;;
  usbStreamingBufferPos_add 4.

Definition usbStream : M unit :=
  streaming <- gets usbStreaming ;;
  when streaming (
    n <- gets nPositions ;;
    when (n >? 0) (
      modify (set_usbStreamingBufferPos 0) ;;
      for_ n usbStream_sample ;;
      buf <- gets usbStreamingBuffer ;;
      len <- gets usbStreamingBufferPos ;;
      writeByteArray FromUSB buf len) ;;
    flush FromUSB).

Definition logPositions : M unit :=
  logging <- gets isLogging ;;
  when logging (
    n <- gets dataPos ;;
    when (n <? dataMax) logCurrentPosition).

Definition moduleStream : M unit :=
  streaming <- gets moduleStreaming ;;
  when streaming (
    n <- gets nPositions ;;
    for_ n (fun i =>
      prefix <- gets moduleStreamPrefix ;;
      writeByte FromOutputStream prefix ;;
      mode <- gets wrapMode ;;
      this <- gets thisPositionBuffer ;;
      p <- load2 positionBuffer i this ;;
      wp <- gets wrapPoint ;;
      let typeBuffer := if mode =? 0 then u32 (p + wp) else u32 p in
      if outputStreamDatatype =? 72 then writeUint16 FromOutputStream typeBuffer
      else if outputStreamDatatype =? 76 then writeUint32 FromOutputStream typeBuffer
      else ret tt)).

(** The inner loops of the threshold detector: [crossed p t] is the
    comparison of the branch, [<=] for a negative threshold and [>=]
    otherwise. *)
Definition detect_sample (crossed : Z -> Z -> bool) (i j : Z) : M unit :=
  active <- load thresholdActive i ;;
  when active (
    this <- gets thisPositionBuffer ;;
    p <- load2 positionBuffer j this ;;
    t <- load thresholds i ;;
    when (crossed p t) (
      assign thresholdActive set_thresholdActive i false ;;
      writeByte FromStateMachine (i + 1))).

Definition detect_threshold (i : Z) : M unit :=
  active <- load thresholdActive i ;;
  when active (
    t <- load thresholds i ;;
    n <- gets nPositions ;;
    if t <? 0 then for_ n (detect_sample Z.leb i)
    else for_ n (detect_sample Z.geb i)).

Definition thresholdDetector : M unit :=
  enabled <- gets sendEvents ;;
  when enabled (
    wraps <- gets nWraps ;;
    when (wraps =? 0) (
      n <- gets nThresholds ;;
      for_ n detect_threshold)).

(** What [loop] does when [positionBufferFlag] is set. *)
Definition drain : M unit :=
  swapBuffers ;;
  usbStream ;;
  logPositions ;;
  moduleStream ;;
  thresholdDetector.

Definition loop : M unit :=
  newOp <- poll ;;
  match newOp with
  | Some (opCode, opSource) => dispatch opCode opSource
  | None => ret tt
  end ;;
  flag <- gets positionBufferFlag ;;
  when flag drain.

(** ** The environment *)

(** What happens to the module: pin A changes (the interrupt fires and
    reads the two pin levels), time passes, bytes arrive on a channel, or
    the main loop runs once.  An [Edge] of a run falls between two
    iterations of [loop]; the handler is never masked, and edges that fall
    inside an iteration, between two statements of the 'W' case, are those
    of [preempted] and [case_W_upto] below. *)
Inductive Input : Type :=
| Edge (a b : bool)
| Elapse (micros : Z)
| Receive (c : Source) (bytes : list Z)
| Loop.

Definition elapse (micros : Z) : M unit :=
  modify (fun s => set_currentTime (u32 (currentTime s + micros)) s).

Definition receive (c : Source) (bytes : list Z) : M unit :=
  modify (fun s => set_chan c {| rx := rx (chan c s) ++ bytes; tx := tx (chan c s) |} s).

Definition step (i : Input) : M unit :=
  match i with
  | Edge a b => updatePosition a b
  | Elapse micros => elapse micros
  | Receive c bytes => receive c bytes
  | Loop => loop
  end.

Fixpoint run (inputs : list Input) : M unit :=
  match inputs with
  | [] => ret tt
  | i :: rest => step i ;; run rest
  end.

(** The globals as initialised, after [setup] has run: the log file has
    been removed and created anew, and [wrapPointInverse] computed. *)
Definition idle : ArCOM := {| rx := []; tx := [] |}.

Definition initial : State :=
  {| thresholds := replicate 8 0;
     thresholdActive := true :: replicate 7 false;
     nThresholds := maxThresholds;
     wrapPoint := 512;
     nWraps := 0;
     usbStreaming := false;
     sendEvents := true;
     isLogging := false;
     moduleStreaming := false;
     EncoderPos := 0;
     currentDir := 0;
     loggedDataAvailable := false;
     wrappingEnabled := true;
     wrapMode := 0;
     LastEncoderPinAValue := false;
     dataPos := 0;
     currentTime := 0;
     wrapPointInverse := i16 (512 * -1);
     moduleStreamPrefix := 77;
     sdReadBuffer := replicate 2048 0;
     positionBuffer := replicate 1024 (0, 0);
     timeBuffer := replicate 1024 (0, 0);
     iPositionBuffer := (0, 0);
     positionBufferFlag := false;
     currentPositionBuffer := 0;
     thisPositionBuffer := 0;
     nPositions := 0;
     newEventType := 0;
     newEventCode := 0;
     newEventTime := 0;
     newEvent := false;
     usbStreamingBufferPos := 0;
     usbStreamingBuffer := replicate 1000 0;
     DataFile := {| content := []; cursor := 0 |};
     myUSB := idle;
     StateMachineCOM := idle;
     OutputStreamCOM := idle |}.

(** * Vocabulary of the properties *)

(** ** The wrap settings

    [wrappingEnabled] and [wrapPointInverse] are derived from [wrapPoint];
    [setup] and the 'W' command keep them in step. *)

Definition wrap_settings_ok (s : State) : Prop :=
  -32768 <= wrapPoint s <= 32767 /\
  wrappingEnabled s = negb (wrapPoint s =? 0) /\
  wrapPointInverse s = i16 (wrapPoint s * -1).

(** ** The quadrature decoder *)

(** The direction an edge stands for, which is the value [updatePosition]
    leaves in [currentDir]: 0 (clockwise) for a rising edge with B high or a
    falling edge with B low, 1 (counter-clockwise) otherwise. *)
Definition edge_direction (a b : bool) (s : State) : Z :=
  if a && negb (LastEncoderPinAValue s)
  then (if b then 0 else 1)
  else (if b then 1 else 0).

(** The condition under which [updatePosition] moves the position: B is
    high and the direction recorded before is the one of the new edge. *)
Definition confirmed (a b : bool) (s : State) : bool :=
  b && (currentDir s =? edge_direction a b s).

(** The position after the [EncoderPos++] or [EncoderPos--] of a step in
    direction [d]. *)
Definition moved (d : Z) (s : State) : State :=
  set_EncoderPos (i16 (if d =? 0 then EncoderPos s + 1 else EncoderPos s - 1)) s.

(** A run that sets the position to 511 with the 'P' command. *)
Definition at_511 : list Input := [Receive FromUSB [80; 255; 1]; Loop].


(** ** Invariants of computations

    [keeps P m]: whatever [m] does from a state satisfying [P], including
    blocking or faulting part-way, the state it leaves satisfies [P]. *)
Definition keeps {A : Type} (P : State -> Prop) (m : M A) : Prop :=
  forall s, P s -> P (final (m s)).

(** ** Shapes

    The declared sizes of the arrays, and the ranges the sketch keeps its
    counters and selectors in. *)
Definition well_formed (s : State) : Prop :=
  Z.of_nat (length (thresholds s)) = maxThresholds /\
  Z.of_nat (length (thresholdActive s)) = maxThresholds /\
  Z.of_nat (length (sdReadBuffer s)) = sdReadBufferSize /\
  Z.of_nat (length (positionBuffer s)) = positionBufferSize /\
  Z.of_nat (length (timeBuffer s)) = positionBufferSize /\
  Z.of_nat (length (usbStreamingBuffer s)) = usbStreamingBufferSize /\
  0 <= nThresholds s <= maxThresholds /\
  (currentPositionBuffer s = 0 \/ currentPositionBuffer s = 1) /\
  (thisPositionBuffer s = 0 \/ thisPositionBuffer s = 1) /\
  0 <= nPositions s <= positionBufferSize /\
  0 <= fst (iPositionBuffer s) <= positionBufferSize /\
  0 <= snd (iPositionBuffer s) <= positionBufferSize.

(** ** Commands and the wrap count *)

(** The commands that reset the position ('Z', 'P', 'S' with a true
    payload), set the wrap point ('W') or change the enabled state of the
    thresholds (';', 'E'), from a source the sketch accepts them from and
    with their payload received. *)
Definition resets_wrap_count (op : OpCode) (opSource : Source) (s : State) : bool :=
  match op with
  | OpZ | OpE => true
  | OpSemicolon => match rx (chan opSource s) with _ :: _ => true | [] => false end
  | OpP | OpW => is_usb opSource && match rx (myUSB s) with _ :: _ :: _ => true | _ => false end
  | OpS => is_usb opSource &&
           match rx (myUSB s) with b :: _ => to_boolean (u8 b) | [] => false end
  | _ => false
  end.

(** The 'M' command from the host with its payload byte received. *)
Definition sets_wrap_mode (op : OpCode) (opSource : Source) (s : State) : bool :=
  match op with
  | OpM => is_usb opSource && match rx (myUSB s) with _ :: _ => true | [] => false end
  | _ => false
  end.

(** A run that wraps the position once: from 511, one clockwise step. *)
Definition wrapped_once : list Input := at_511 ++ [Edge true true].

(** A state with the wrap count at 1 and a two-byte payload from the host
    pending. *)
Definition wrapped_state : State :=
  set_myUSB {| rx := [255; 1]; tx := [] |} (set_nWraps 1 initial).

(** ** The host channel *)

(** The state after the sketch has written [bytes] to the host. *)
Definition host_written (bytes : list Z) (s : State) : State :=
  set_myUSB {| rx := rx (myUSB s); tx := tx (myUSB s) ++ bytes |} s.

(** The state after the sketch has read the bytes pending from the host
    down to [rest]. *)
Definition host_read (rest : list Z) (s : State) : State :=
  set_myUSB {| rx := rest; tx := tx (myUSB s) |} s.

(** ** Threshold programming *)

(** A 16-bit value on the wire, low byte first: the bytes, and the value
    [readInt16] makes of them. *)
Definition wire (words : list (Z * Z)) : list Z :=
  flat_map (fun w => [fst w; snd w]) words.
Definition int16_of (w : Z * Z) : Z := i16 (u8 (fst w) + 256 * u8 (snd w)).

(** A 'T' command for nine thresholds, pending at the host channel after
    the opcode has been read. *)
Definition nine_thresholds : State :=
  set_myUSB {| rx := 9 :: wire (replicate 9 (1, 0)); tx := [] |} initial.

(** ** The session log *)

(** A finalized log of [N] records is available for read-back: the flag
    is raised, the counter is [N], and the file holds the [8 N] bytes of
    the records. *)
Definition log_available (N : Z) (s : State) : Prop :=
  loggedDataAvailable s = true /\
  dataPos s = N /\
  8 * N <= Z.of_nat (length (content (DataFile s))).

(** Part-way through a read-back of the file [c]: [p] bytes have gone to
    the host after what was there before, [sent]. *)
Definition reading_back (c : list Z) (sent : list Z) (p : Z) (s : State) : Prop :=
  DataFile s = {| content := c; cursor := p |} /\
  Z.of_nat (length (sdReadBuffer s)) = sdReadBufferSize /\
  tx (myUSB s) = sent ++ take (Z.to_nat p) c /\
  loggedDataAvailable s = false.


(** A session: logging is started, one clockwise step is made 5
    microseconds later and drained, and logging is stopped. *)
Definition one_sample_session : list Input :=
  [Receive FromUSB [76]; Loop; Elapse 5; Edge true true; Loop; Receive FromUSB [70]; Loop].

Definition after_session : State := final (run one_sample_session initial).

(** ** The threshold detector *)

(** The batch the main loop has drained: the positions
    [positionBuffer[0 .. nPositions-1][thisPositionBuffer]]. *)
Definition column (k : Z) (rows : list (Z * Z)) : list Z :=
  map (fun row => if k =? 0 then fst row else snd row) rows.
Definition batch (s : State) : list Z :=
  take (Z.to_nat (nPositions s)) (column (thisPositionBuffer s) (positionBuffer s)).

(** Position [p] crosses the threshold value [t]: below or at a negative
    value, above or at a non-negative one. *)
Definition crosses (t p : Z) : bool := if t <? 0 then p <=? t else p >=? t.

(** Threshold [i] is enabled and some position of the batch crosses it. *)
Definition fires (s : State) (i : Z) : bool :=
  match thresholdActive s !! Z.to_nat i, thresholds s !! Z.to_nat i with
  | Some true, Some t => existsb (crosses t) (batch s)
  | _, _ => false
  end.

(** The thresholds among the first [n] that fire, in index order. *)
Fixpoint fired_upto (s : State) (n : nat) : list Z :=
  match n with
  | O => []
  | S k => fired_upto s k ++ (if fires s (Z.of_nat k) then [Z.of_nat k] else [])
  end.

(** The byte that announces threshold [i] to the state machine. *)
Definition event_byte (i : Z) : Z := u8 (i + 1).

Definition deactivate (fired : list Z) (active : list bool) : list bool :=
  foldl (fun l i => <[Z.to_nat i := false]> l) active fired.

(** The effect of the firing of the thresholds [fired] on a state. *)
Definition announce (fired : list Z) (s : State) : State :=
  set_StateMachineCOM
    {| rx := rx (StateMachineCOM s);
       tx := tx (StateMachineCOM s) ++ map event_byte fired |}
    (set_thresholdActive (deactivate fired (thresholdActive s)) s).

(** The events of one run of the detector. *)
Definition detector_events (s : State) : list Z :=
  if sendEvents s && (nWraps s =? 0)
  then map event_byte (fired_upto s (Z.to_nat (nThresholds s)))
  else [].

(** ** Enable cycles *)

(** The case the next [loop] selects, if an opcode is pending. *)
Definition polled (s : State) : option OpCode :=
  match poll s with
  | Ok (Some (opCode, _)) _ => decode_opCode opCode
  | _ => None
  end.

(** The input is a [loop] that runs one of the two cases that assign
    [thresholdActive] from a command: ';' or 'E'. *)
Definition reenables (i : Input) (s : State) : bool :=
  match i with
  | Loop => match polled s with
            | Some OpSemicolon | Some OpE => true
            | _ => false
            end
  | _ => false
  end.

(** [loop] up to the threshold detector; the result tells whether the
    double buffer is being drained, that is, whether the detector runs. *)
Definition loop_until_detector : M bool :=
  newOp <- poll ;;
  match newOp with
  | Some (opCode, opSource) => dispatch opCode opSource
  | None => ret tt
  end ;;
  flag <- gets positionBufferFlag ;;
  if flag
  then swapBuffers ;; usbStream ;; logPositions ;; moduleStream ;; ret true
  else ret false.

Fixpoint never_reenabled (inputs : list Input) (s : State) : bool :=
  match inputs with
  | [] => true
  | i :: rest => negb (reenables i s) && never_reenabled rest (final (step i s))
  end.

(** Two thresholds, -100 and 300, programmed and enabled by the host, and
    a batch of three positions 50, -150, 350 drained. *)
Definition two_thresholds : State :=
  set_nPositions 3
    (set_positionBuffer ([(50, 0); (-150, 0); (350, 0)] ++ replicate 1021 (0, 0))
       (set_thresholdActive (replicate 8 true)
          (set_nThresholds 2
             (set_thresholds ([-100; 300] ++ replicate 6 0) initial)))).

(** The state after the detector has run on [two_thresholds], and inputs
    that then move the position to 300, take one more clockwise step and
    drain it. *)
Definition both_fired : State := final (thresholdDetector two_thresholds).
Definition crossing_again : list Input :=
  [Receive FromUSB [80; 44; 1]; Loop; Edge true true; Loop].

(** ** The host stream *)

(** The record of one sample in the host stream. *)
Definition position_record (p t : Z) : list Z :=
  [80; byte_at 0 p; byte_at 1 p; byte_at 0 t; byte_at 1 t; byte_at 2 t; byte_at 3 t].

(** The samples the main loop has drained, and their bytes in the host
    stream. *)
Definition samples (s : State) : list (Z * Z) :=
  take (Z.to_nat (nPositions s))
    (zip (column (thisPositionBuffer s) (positionBuffer s))
         (column (thisPositionBuffer s) (timeBuffer s))).
Definition stream_bytes (ss : list (Z * Z)) : list Z :=
  flat_map (fun x => position_record (fst x) (snd x)) ss.

(** Streaming to the host is switched on, and then [n] clockwise steps
    are made before the main loop runs again. *)
Definition steps_while_streaming (n : nat) : list Input :=
  [Receive FromUSB [83; 1]; Loop] ++
  concat (replicate n [Edge true true; Edge false false]) ++ [Loop].

(** The state of the stream encoder: the buffer and the write position
    it has reached, over the state [s] it started from. *)
Definition encoder_at (buf : list Z) (pos : Z) (s : State) : State :=
  set_usbStreamingBuffer buf (set_usbStreamingBufferPos pos s).

(** The encoder with [recs] written at the start of the buffer [s] had. *)
Definition encoding (recs : list Z) (s : State) : State :=
  encoder_at (recs ++ drop (length recs) (usbStreamingBuffer s))
    (Z.of_nat (length recs)) s.

(** The batch of [two_thresholds] with streaming to the host active. *)
Definition streaming_batch : State := set_usbStreaming true two_thresholds.

(** * Vocabulary of the further properties *)

(** The cases that act only on a command from the host, and those that
    act only on one from the state machine. *)
Definition host_only (op : OpCode) : bool :=
  match op with
  | OpC | OpS | OpV | OpW | OpM | OpT | OpI | OpR | OpQ | OpP => true
  | _ => false
  end.
Definition state_machine_only (op : OpCode) : bool :=
  match op with
  | Op255 | OpHash => true
  | _ => false
  end.

(** A run that selects the wrap mode 2, which [processPosition] has no
    case for. *)
Definition free_running : list Input := [Receive FromUSB [77; 2]; Loop].

(** ** The double buffer *)

(** [iPositionBuffer[currentPositionBuffer]], the number of samples in the
    half of the double buffer the interrupt handler writes to, and these
    samples: positions and times taken since the last hand-over. *)
Definition pending_count (s : State) : Z :=
  if currentPositionBuffer s =? 0 then fst (iPositionBuffer s) else snd (iPositionBuffer s).
Definition pending (s : State) : list (Z * Z) :=
  take (Z.to_nat (pending_count s))
    (zip (column (currentPositionBuffer s) (positionBuffer s))
         (column (currentPositionBuffer s) (timeBuffer s))).

(** The batch being drained, if it has a sample, is in the other half
    than the one the interrupt handler writes to. *)
Definition halves_apart (s : State) : Prop :=
  nPositions s = 0 \/ thisPositionBuffer s <> currentPositionBuffer s.

(** The half written to is full: 1024 samples taken and no hand-over. *)
Definition full_half : State := set_iPositionBuffer (1024, 0) initial.

(** ** The module stream *)

(** The value the module stream carries for the position [p]: in bipolar
    mode the position shifted up by the wrap point. *)
Definition module_value (s : State) (p : Z) : Z :=
  if wrapMode s =? 0 then p + wrapPoint s else p.

(** What the output-stream channel has sent once [bytes] are added. *)
Definition module_written (bytes : list Z) (s : State) : State :=
  set_OutputStreamCOM
    {| rx := rx (OutputStreamCOM s); tx := tx (OutputStreamCOM s) ++ bytes |} s.

(** The batch of [two_thresholds] with the module stream active. *)
Definition module_batch : State := set_moduleStreaming true two_thresholds.

(** ** Writing the log *)

(** The content of a file after [bs] is written at byte [at_] of [old], as
    [File.write] does it. *)
Definition overwrite (at_ : nat) (bs old : list Z) : list Z :=
  take at_ old ++ bs ++ drop (at_ + length bs)%nat old.

(** The records of samples in the log: position and time, each as four
    bytes. *)
Definition log_records (ss : list (Z * Z)) : list Z :=
  flat_map (fun x => le32 (fst x) ++ le32 (snd x)) ss.

(** The state with the batch drained last written to the log at the
    read/write position, and counted. *)
Definition logged (s : State) : State :=
  set_dataPos (u32 (dataPos s + nPositions s))
    (set_DataFile
       {| content := overwrite (Z.to_nat (cursor (DataFile s))) (log_records (samples s))
                       (content (DataFile s));
          cursor := cursor (DataFile s) + 8 * nPositions s |} s).

(** A batch of three samples drained while logging, with the counter two
    short of [dataMax]. *)
Definition counter_near_max : State :=
  set_dataPos 4294967294 (set_isLogging true two_thresholds).

(** ** The order of events *)

(** Each element is less than the ones after it. *)
Definition ascending (l : list Z) : Prop :=
  forall (a b : nat) (x y : Z), (a < b)%nat -> l !! a = Some x -> l !! b = Some y -> x < y.

(** The thresholds 300 and -100, in this order, against the batch 50,
    -150, 350: the second is crossed first. *)
Definition crossed_in_reverse : State :=
  set_thresholds ([300; -100] ++ replicate 6 0) two_thresholds.

(** ** Records sent on commands *)

(** The record of an event from the state machine in the host stream. *)
Definition event_record (code t : Z) : list Z :=
  [69; 0; code; byte_at 0 t; byte_at 1 t; byte_at 2 t; byte_at 3 t].

(** The state machine reports the event 7 while the host stream is on. *)
Definition event_pending : State :=
  set_StateMachineCOM {| rx := [7]; tx := [] |} streaming_batch.

(** ** One drain, all consumers *)

(** Two clockwise steps are pending while the host stream, the log and
    the module stream are on. *)
Definition all_consumers : State :=
  final (run [Edge true true; Elapse 9; Edge false false; Edge true true]
           (set_usbStreaming true (set_isLogging true (set_moduleStreaming true initial)))).

(** ** Edges that fall inside a command

    The sketch attaches [updatePosition] with [attachInterrupt] and never
    masks it, so the handler also runs between two statements of [loop].
    Where this matters is the 'W' case, which stores the three wrap
    settings one after the other. *)

(** The handler run for each of the edges in turn. *)
Fixpoint edges (es : list (bool * bool)) : M unit :=
  match es with
  | [] => ret tt
  | (a, b) :: rest => updatePosition a b ;; edges rest
  end.

(** Statements run in order; after the k-th one the handler runs for the
    edges of the k-th element of [irqs], if there is one. *)
Fixpoint preempted (stmts : list (M unit)) (irqs : list (list (bool * bool))) : M unit :=
  match stmts with
  | [] => ret tt
  | st :: rest => st ;; edges (hd [] irqs) ;; preempted rest (tl irqs)
  end.

(** The statements of the 'W' case once the payload [wp] has been read:
    the store of line 205, the acknowledgement of line 206, the [if] of
    lines 207 to 211, the stores of lines 212 and 213, and the [if] of lines
    214 to 216. *)
Definition case_W_lines (wp : Z) : list (M unit) :=
  [ modify (set_wrapPoint wp);
    writeByte FromUSB 1;
    modify (set_wrappingEnabled (negb (wp =? 0)));
    modify (set_wrapPointInverse (i16 (wp * -1)));
    modify (set_nWraps 0);
    (pos <- gets EncoderPos ;;
     inv <- gets wrapPointInverse ;;
     when ((pos >? wp) || (pos <? inv)) (modify (set_EncoderPos wp))) ].

(** The 'W' case from the host up to and including its k-th statement,
    with the edges [irqs] falling inside it. *)
Definition case_W_upto (k : nat) (irqs : list (list (bool * bool))) : M unit :=
  wp <- readInt16 FromUSB ;; preempted (take k (case_W_lines wp)) irqs.

(** The 'W' case with the edges [irqs] falling inside it. *)
Definition case_W_preempted (opSource : Source) (irqs : list (list (bool * bool))) : M unit :=
  when (is_usb opSource) (case_W_upto 6 irqs).

(** The position is set to -300 with 'P', pin A rises with B low, which
    records the counter-clockwise direction, and 'W' with the wrap point 100
    arrives from the host. *)
Definition wrap_point_change : list Input :=
  [Receive FromUSB [80; 212; 254]; Loop; Edge true false; Receive FromUSB [87; 100; 0]].

(** [loop] has then taken the opcode, and the 'W' case has stored the wrap
    point (line 205) and nothing else: the state an edge finds that falls
    at this moment. *)
Definition W_polled : State := final ((run wrap_point_change ;; poll) initial).
Definition inside_W : State := final (case_W_upto 1 [] W_polled).

(** The wrap settings: the wrap point and the two globals derived from
    it. *)
Definition wrap_settings (s : State) : Z * bool * Z :=
  (wrapPoint s, wrappingEnabled s, wrapPointInverse s).

(** ** A log of 2^29 records

    The flag is raised, the counter is 2^29 and the file holds the 2^32
    bytes of the records. *)
Definition long_log : State :=
  set_loggedDataAvailable true
    (set_dataPos 536870912
       (set_DataFile {| content := replicate (Z.to_nat 4294967296) 0; cursor := 4294967296 |}
          initial)).

(** * Reasoning about the sketch *)

(** ** Machine integers *)

Lemma i16_range (x : Z) : -32768 <= i16 x <= 32767.
Proof. unfold i16. pose proof (Z.mod_pos_bound (x + 2 ^ 15) (2 ^ 16)). lia. Qed.

Lemma i16_id (x : Z) : -32768 <= x <= 32767 -> i16 x = x.
Proof. intros H. unfold i16. rewrite Z.mod_small; lia. Qed.

Lemma u8_id (x : Z) : 0 <= x < 256 -> u8 x = x.
Proof. intros H. unfold u8. apply Z.mod_small. lia. Qed.

Lemma u32_id (x : Z) : 0 <= x < 4294967296 -> u32 x = x.
Proof. intros H. unfold u32. apply Z.mod_small. lia. Qed.

(** ** Invariants of computations *)

Section Keeps.
Context (P : State -> Prop).

Lemma keeps_ret {A} (a : A) : keeps P (ret a).
Proof. intros s H. exact H. Qed.

Lemma keeps_gets {A} (f : State -> A) : keeps P (gets f).
Proof. intros s H. exact H. Qed.

Lemma keeps_fault {A} : keeps P (@fault A).
Proof. intros s H. exact H. Qed.

Lemma keeps_modify (g : State -> State) :
  (forall s, P s -> P (g s)) -> keeps P (modify g).
Proof. intros Hg s H. apply Hg, H. Qed.

Lemma keeps_bind {A B} (m : M A) (k : A -> M B) :
  keeps P m -> (forall a, keeps P (k a)) -> keeps P (bind m k).
Proof.
  intros Hm Hk s H. unfold bind. specialize (Hm s H).
  destruct (m s) as [a s1|s1|s1]; cbn in *; [apply Hk|..]; assumption.
Qed.

Lemma keeps_when (b : bool) (m : M unit) : keeps P m -> keeps P (when b m).
Proof. intros Hm. destruct b; [exact Hm | apply keeps_ret]. Qed.

Lemma keeps_for_from (body : Z -> M unit) (n : nat) :
  (forall i, keeps P (body i)) -> forall i, keeps P (for_from i n body).
Proof.
  intros Hb. induction n as [|n IH]; intros i; cbn.
  - apply keeps_ret.
  - apply keeps_bind; [apply Hb | intros _; apply IH].
Qed.

Lemma keeps_for (body : Z -> M unit) (n : Z) :
  (forall i, keeps P (body i)) -> keeps P (for_ n body).
Proof. intros Hb. apply keeps_for_from, Hb. Qed.

Lemma keeps_index {A} (l : list A) (i : Z) : keeps P (index l i).
Proof.
  unfold index. destruct (0 <=? i); [|apply keeps_fault].
  destruct (l !! Z.to_nat i); [apply keeps_ret | apply keeps_fault].
Qed.

Lemma keeps_store {A} (l : list A) (i : Z) (v : A) : keeps P (store l i v).
Proof. unfold store. destruct (in_bounds l i); [apply keeps_ret | apply keeps_fault]. Qed.

Lemma keeps_col {A} (k : Z) (row : A * A) : keeps P (col k row).
Proof.
  unfold col. destruct (k =? 0); [apply keeps_ret|].
  destruct (k =? 1); [apply keeps_ret | apply keeps_fault].
Qed.

Lemma keeps_set_col {A} (k : Z) (v : A) (row : A * A) : keeps P (set_col k v row).
Proof.
  unfold set_col. destruct (k =? 0); [apply keeps_ret|].
  destruct (k =? 1); [apply keeps_ret | apply keeps_fault].
Qed.

Lemma keeps_load {A} (arr : State -> list A) (i : Z) : keeps P (load arr i).
Proof. apply keeps_bind; [apply keeps_gets | intros l; apply keeps_index]. Qed.

Lemma keeps_load2 {A} (arr : State -> list (A * A)) (i k : Z) : keeps P (load2 arr i k).
Proof. apply keeps_bind; [apply keeps_load | intros r; apply keeps_col]. Qed.

Lemma keeps_assign {A} (arr : State -> list A) set_arr (i : Z) (v : A) :
  (forall s, P s -> in_bounds (arr s) i = true ->
             P (set_arr (<[Z.to_nat i := v]> (arr s)) s)) ->
  keeps P (assign arr set_arr i v).
Proof.
  intros Hset s H. unfold assign, bind, gets, store.
  destruct (in_bounds (arr s) i) eqn:Hb; cbn; [apply Hset|]; assumption.
Qed.

Lemma keeps_assign2 {A} (arr : State -> list (A * A)) set_arr (i k : Z) (v : A) :
  (forall s l, P s -> length l = length (arr s) -> P (set_arr l s)) ->
  keeps P (assign2 arr set_arr i k v).
Proof.
  intros Hset. unfold assign2.
  apply keeps_bind; [apply keeps_load | intros row].
  apply keeps_bind; [apply keeps_set_col | intros row'].
  apply keeps_assign. intros s H _. apply Hset; [exact H|]. apply length_insert.
Qed.

Lemma keeps_readByte (c : Source) :
  (forall s r, P s -> P (set_chan c r s)) -> keeps P (readByte c).
Proof.
  intros Hc s H. unfold readByte.
  destruct (rx (chan c s)); cbn; [|apply Hc]; assumption.
Qed.

Lemma keeps_readInt16 (c : Source) :
  (forall s r, P s -> P (set_chan c r s)) -> keeps P (readInt16 c).
Proof.
  intros Hc. unfold readInt16.
  apply keeps_bind; [apply keeps_readByte, Hc | intros lo].
  apply keeps_bind; [apply keeps_readByte, Hc | intros hi; apply keeps_ret].
Qed.

Lemma keeps_writeBytes (c : Source) (bs : list Z) :
  (forall s r, P s -> P (set_chan c r s)) -> keeps P (writeBytes c bs).
Proof. intros Hc. apply keeps_modify. intros s H. apply Hc, H. Qed.

Lemma keeps_writeByteArray (c : Source) (buf : list Z) (n : Z) :
  (forall s r, P s -> P (set_chan c r s)) -> keeps P (writeByteArray c buf n).
Proof.
  intros Hc. unfold writeByteArray.
  destruct (_ && _); [apply keeps_writeBytes, Hc | apply keeps_fault].
Qed.
End Keeps.

Section KeepsFile.
Context (P : State -> Prop).
Hypothesis P_file : forall s f, P s -> P (set_DataFile f s).
Hypothesis P_sdReadBuffer :
  forall s b, P s -> length b = length (sdReadBuffer s) -> P (set_sdReadBuffer b s).

Lemma keeps_file_seek (p : Z) : keeps P (file_seek p).
Proof.
  apply keeps_modify. intros s H. destruct (_ && _); [apply P_file|]; exact H.
Qed.

Lemma keeps_file_write (bs : list Z) : keeps P (file_write bs).
Proof. apply keeps_modify. intros s H. apply P_file, H. Qed.

Lemma keeps_file_read_sdReadBuffer (n : Z) : keeps P (file_read_sdReadBuffer n).
Proof.
  intros s H. unfold file_read_sdReadBuffer, bind, gets, modify.
  match goal with |- context [(length ?got <=? _)%nat] => set (g := got) end.
  destruct (Nat.leb_spec (length g) (length (sdReadBuffer s))); cbn [final]; [|exact H].
  apply P_file, P_sdReadBuffer; [exact H|].
  rewrite length_app, length_drop. lia.
Qed.
End KeepsFile.

Lemma keeps_run (P : State -> Prop) (inputs : list Input) :
  (forall i, keeps P (step i)) -> keeps P (run inputs).
Proof.
  intros Hstep. induction inputs as [|i rest IH]; cbn.
  - apply keeps_ret.
  - apply keeps_bind; [apply Hstep | intros _; exact IH].
Qed.

Lemma keeps_Ok {A} (P : State -> Prop) (m : M A) s a s' :
  keeps P m -> P s -> m s = Ok a s' -> P s'.
Proof. intros Hm H E. specialize (Hm s H). rewrite E in Hm. exact Hm. Qed.

(** The functions of the sketch, for unfolding. *)
Create HintDb sketch.
#[local] Hint Unfold
  read_threshold transfer wrapped_up wrapped_down wrapPosition commitSample processPosition updatePosition returnModuleInfo startLogging
  logCurrentPosition readByteFromSource resetDataStreams send_record
  case_255 case_C case_S case_O case_V case_hash case_W case_M case_T case_I
  case_semicolon case_Z case_E case_L case_F case_R case_Q case_P case_X
  poll swapBuffers usbStreamingBufferPos_add usbStream_sample usbStream logPositions
  moduleStream detect_sample detect_threshold thresholdDetector drain
  writeByte writeUint16 writeInt16 writeUint32 flush available elapse receive : sketch.

(** [frame side] proves [keeps P m] for a piece [m] of the sketch by
    walking over its structure; [side] proves that each assignment met on
    the way keeps [P]. *)
Ltac frame_step side :=
  first
    [ apply keeps_ret | apply keeps_gets | apply keeps_fault
    | apply keeps_load2 | apply keeps_load | apply keeps_col | apply keeps_set_col
    | apply keeps_index | apply keeps_store
    | apply keeps_assign2; side
    | apply keeps_assign; side
    | apply keeps_readInt16; side
    | apply keeps_readByte; side
    | apply keeps_writeByteArray; side
    | apply keeps_writeBytes; side
    | apply keeps_file_seek; side
    | apply keeps_file_write; side
    | apply keeps_file_read_sdReadBuffer; side
    | apply keeps_when
    | apply keeps_for; intros ?
    | apply keeps_bind; [|intros ?]
    | apply keeps_modify; side
    | match goal with
      | |- keeps _ (if ?b then _ else _) => destruct b
      | |- keeps _ (match ?x with Some _ => _ | None => _ end) => destruct x
      | |- keeps _ (match ?x with (_, _) => _ end) => destruct x
      | |- keeps _ (let _ := _ in _) => cbv zeta
      end ].

Ltac frame side := autounfold with sketch; repeat frame_step side.

Ltac same_fields :=
  intros;
  repeat match goal with c : Source |- _ => destruct c end;
  repeat match goal with |- context [if ?b then _ else _] => destruct b end;
  assumption.

(** ** The wrap settings between two iterations

    [setup] leaves [wrappingEnabled] and [wrapPointInverse] derived from
    the wrap point, and every iteration of [loop] that starts with them
    derived ends so; the edges of a run fall between iterations.  Inside a
    'W' command they are in transit, as the section on edges inside the
    'W' case shows. *)

Lemma readInt16_Ok (c : Source) s v s' :
  readInt16 c s = Ok v s' -> -32768 <= v <= 32767.
Proof.
  unfold readInt16, bind, ret. destruct (readByte c s) as [lo s1| |]; [|discriminate..].
  destruct (readByte c s1) as [hi s2| |]; [|discriminate..].
  intros [= <- _]. apply i16_range.
Qed.

Lemma case_W_wrap_settings (opSource : Source) : keeps wrap_settings_ok (case_W opSource).
Proof.
  unfold case_W. destruct opSource; cbn [is_usb when]; [|apply keeps_ret..].
  intros s H. unfold bind at 1.
  destruct (readInt16 FromUSB s) as [wp s1|s1|s1] eqn:E.
  - apply readInt16_Ok in E. unfold bind, modify, writeByte, writeBytes, gets, when. cbn.
    destruct (_ || _); cbn; unfold wrap_settings_ok; cbn; auto.
  - pose proof (keeps_readInt16 wrap_settings_ok FromUSB) as K.
    specialize (K ltac:(same_fields) s H). rewrite E in K. exact K.
  - pose proof (keeps_readInt16 wrap_settings_ok FromUSB) as K.
    specialize (K ltac:(same_fields) s H). rewrite E in K. exact K.
Qed.

Lemma run_case_wrap_settings (op : OpCode) (opSource : Source) :
  keeps wrap_settings_ok (run_case op opSource).
Proof.
  destruct op; try apply case_W_wrap_settings;
    destruct opSource; cbn [run_case]; frame same_fields.
Qed.

Lemma step_wrap_settings (i : Input) : keeps wrap_settings_ok (step i).
Proof.
  destruct i as [a b|d|c bytes|]; cbn [step].
  - frame same_fields.
  - frame same_fields.
  - frame same_fields.
  - unfold loop. apply keeps_bind; [frame same_fields | intros newOp].
    apply keeps_bind.
    + destruct newOp as [[opCode opSource]|]; [|apply keeps_ret].
      unfold dispatch. destruct (decode_opCode opCode); [|apply keeps_ret].
      apply run_case_wrap_settings.
    + intros _. frame same_fields.
Qed.

Lemma initial_wrap_settings : wrap_settings_ok initial.
Proof. unfold wrap_settings_ok. cbn. repeat split; lia. Qed.

Lemma wrap_settings_between_iterations (inputs : list Input) :
  wrap_settings_ok (final (run inputs initial)).
Proof. exact (keeps_run _ inputs step_wrap_settings initial initial_wrap_settings). Qed.

(** ** The quadrature decoder *)

Lemma updatePosition_confirmed (a b : bool) (s : State) :
  confirmed a b s = true ->
  updatePosition a b s =
  (processPosition ;;
   modify (set_currentDir (edge_direction a b s)) ;;
   modify (set_LastEncoderPinAValue a)) (moved (edge_direction a b s) s).
Proof.
  unfold confirmed, edge_direction, updatePosition, moved. intros H.
  apply andb_true_iff in H as [-> H]. unfold bind at 1 2. cbn [gets].
  destruct (a && negb (LastEncoderPinAValue s)); unfold bind at 1 2; cbn [gets];
    rewrite H; cbn [when]; simpl (_ =? _); cbv iota; unfold bind, modify;
    match goal with |- context [processPosition ?x] => destruct (processPosition x) end;
    reflexivity.
Qed.

Lemma updatePosition_unconfirmed (a b : bool) (s : State) :
  confirmed a b s = false ->
  updatePosition a b s =
  Ok tt (set_LastEncoderPinAValue a (set_currentDir (edge_direction a b s) s)).
Proof.
  unfold confirmed, edge_direction, updatePosition. intros H.
  unfold bind at 1 2. cbn [gets].
  destruct (a && negb (LastEncoderPinAValue s)), b; cbn in H;
    try (unfold bind, modify; reflexivity);
    unfold bind at 1 2; cbn [gets]; rewrite H; reflexivity.
Qed.

Lemma commitSample_EncoderPos (v : Z) : keeps (fun s => EncoderPos s = v) commitSample.
Proof. frame same_fields. Qed.

Lemma commitSample_wrapPoint (v : Z) : keeps (fun s => wrapPoint s = v) commitSample.
Proof. frame same_fields. Qed.

(** Wrap processing proper: with a positive wrap point the position ends
    in the range of the mode. *)
Lemma wrapPosition_range (s : State) :
  wrap_settings_ok s -> 0 < wrapPoint s ->
  exists s', wrapPosition s = Ok tt s' /\ wrapPoint s' = wrapPoint s /\
    (wrapMode s = 0 -> - wrapPoint s <= EncoderPos s' <= wrapPoint s) /\
    (wrapMode s = 1 -> 0 <= EncoderPos s' <= wrapPoint s).
Proof.
  intros (Hr & He & Hi) Hpos.
  assert (wrappingEnabled s = true) as He'.
  { rewrite He. destruct (Z.eqb_spec (wrapPoint s) 0); [lia | reflexivity]. }
  assert (wrapPointInverse s = - wrapPoint s) as Hi'.
  { rewrite Hi. rewrite i16_id; lia. }
  unfold wrapPosition, bind, gets. rewrite He'. cbn [when]. rewrite Hi'.
  destruct (Z.eqb_spec (wrapMode s) 0) as [Hm|Hm].
  - destruct (Z.leb_spec (EncoderPos s) (- wrapPoint s));
      [|destruct (Z.geb_spec (EncoderPos s) (wrapPoint s))];
      eexists; (split; [reflexivity|]); cbn; repeat split; intros; lia.
  - destruct (Z.eqb_spec (wrapMode s) 1) as [Hm1|Hm1].
    + destruct (Z.gtb_spec (EncoderPos s) (wrapPoint s));
        [|destruct (Z.ltb_spec (EncoderPos s) 0)];
        eexists; (split; [reflexivity|]); cbn; repeat split; intros; lia.
    + eexists; (split; [reflexivity|]); repeat split; intros; lia.
Qed.

(** C8. An edge moves the position only when the direction it stands for
    is the direction recorded before: an edge of another direction returns
    with nothing changed but the direction state ([currentDir], and the
    last level of pin A); and an edge that changes anything else was of
    the recorded direction, and what it did is one step, up for clockwise
    (0) and down for counter-clockwise (1), followed by [processPosition]. *)
Theorem updatePosition_moves_only_in_recorded_direction (a b : bool) (s : State) :
  let d := edge_direction a b s in
  (currentDir s <> d ->
   updatePosition a b s = Ok tt (set_LastEncoderPinAValue a (set_currentDir d s))) /\
  (forall s', updatePosition a b s = Ok tt s' ->
   s' <> set_LastEncoderPinAValue a (set_currentDir d s) ->
   currentDir s = d /\
   exists s1, processPosition (moved d s) = Ok tt s1 /\
              s' = set_LastEncoderPinAValue a (set_currentDir d s1)).
Proof.
  intros d. split.
  - intros Hd. apply updatePosition_unconfirmed. unfold confirmed.
    fold d. destruct (Z.eqb_spec (currentDir s) d); [contradiction|].
    apply andb_false_r.
  - intros s' Hrun Hne. destruct (confirmed a b s) eqn:Hc.
    + split.
      * unfold confirmed in Hc. apply andb_true_iff in Hc as [_ Hc].
        apply Z.eqb_eq in Hc. exact Hc.
      * rewrite updatePosition_confirmed in Hrun by exact Hc. fold d in Hrun.
        unfold bind, modify in Hrun.
        destruct (processPosition (moved d s)) as [[] s1| |]; [|discriminate..].
        exists s1. split; [reflexivity|]. congruence.
    + rewrite updatePosition_unconfirmed in Hrun by exact Hc. fold d in Hrun.
      congruence.
Qed.

Lemma updatePosition_moves_only_in_recorded_direction_witness :
  updatePosition true false initial =
  Ok tt (set_LastEncoderPinAValue true (set_currentDir 1 initial)).
Proof.
  apply (proj1 (updatePosition_moves_only_in_recorded_direction true false initial)).
  cbn. discriminate.
Defined.

Lemma processPosition_range (s : State) :
  wrap_settings_ok s -> 0 < wrapPoint s ->
  (wrapMode s = 0 ->
   - wrapPoint s <= EncoderPos (final (processPosition s)) <= wrapPoint s) /\
  (wrapMode s = 1 -> 0 <= EncoderPos (final (processPosition s)) <= wrapPoint s).
Proof.
  intros Hok Hpos.
  destruct (wrapPosition_range s Hok Hpos) as (s1 & E & _ & Hr).
  unfold processPosition, bind. rewrite E.
  pose proof (commitSample_EncoderPos (EncoderPos s1) s1 eq_refl) as H.
  cbn beta in H. rewrite H. exact Hr.
Qed.

(** The handler leaves the wrap settings and the wrap mode as they are. *)
Lemma edges_wrap_settings (es : list (bool * bool)) (e : bool) (w i m : Z) :
  keeps (fun x => wrappingEnabled x = e /\ wrapPoint x = w /\
                  wrapPointInverse x = i /\ wrapMode x = m) (edges es).
Proof.
  induction es as [|[a b] es IH]; cbn [edges]; [apply keeps_ret|].
  apply keeps_bind; [frame same_fields | intros _; exact IH].
Qed.

(** C1 (amended). A confirmed step taken while [wrappingEnabled] and
    [wrapPointInverse] hold the values derived from the wrap point, and the
    wrap point is positive, leaves the position, after wrap processing,
    within [-wrapPoint, wrapPoint] in bipolar mode (0) and within
    [0, wrapPoint] in unipolar mode (1).  This holds in every state with
    such settings, reached in whatever way, and after any edges [es] that
    came before from such a state, since the handler does not touch the
    settings; it holds however the handler ends, also when the sample
    finds the position buffer full. *)
Theorem position_within_wrap_range (s : State) (es : list (bool * bool)) (a b : bool) :
  wrap_settings_ok s ->
  0 < wrapPoint s ->
  confirmed a b (final (edges es s)) = true ->
  (wrapMode s = 0 ->
   - wrapPoint s <= EncoderPos (final (updatePosition a b (final (edges es s))))
                 <= wrapPoint s) /\
  (wrapMode s = 1 ->
   0 <= EncoderPos (final (updatePosition a b (final (edges es s)))) <= wrapPoint s).
Proof.
  intros (Hr & He & Hi) Hpos Hc.
  pose proof (edges_wrap_settings es (wrappingEnabled s) (wrapPoint s)
                (wrapPointInverse s) (wrapMode s) s
                (conj eq_refl (conj eq_refl (conj eq_refl eq_refl))))
    as (He1 & Hw1 & Hi1 & Hm1).
  set (s1 := final (edges es s)) in *.
  assert (wrap_settings_ok s1) as Hok.
  { unfold wrap_settings_ok. rewrite He1, Hw1, Hi1. auto. }
  assert (EncoderPos (final (updatePosition a b s1)) =
          EncoderPos (final (processPosition (moved (edge_direction a b s1) s1)))) as ->.
  { rewrite updatePosition_confirmed by exact Hc. unfold bind at 1.
    destruct (processPosition (moved (edge_direction a b s1) s1)); reflexivity. }
  rewrite <- Hw1, <- Hm1.
  apply (processPosition_range (moved (edge_direction a b s1) s1) Hok).
  change (0 < wrapPoint s1). rewrite Hw1. exact Hpos.
Qed.

Lemma position_within_wrap_range_witness :
  EncoderPos (final (run at_511 initial)) = 511 /\
  EncoderPos (final (updatePosition true true (final (run at_511 initial)))) = -512 /\
  (wrapMode (final (run at_511 initial)) = 0 ->
   - wrapPoint (final (run at_511 initial))
   <= EncoderPos (final (updatePosition true true
                           (final (edges [] (final (run at_511 initial))))))
   <= wrapPoint (final (run at_511 initial))) /\
  (wrapMode (final (run at_511 initial)) = 1 ->
   0 <= EncoderPos (final (updatePosition true true
                             (final (edges [] (final (run at_511 initial))))))
     <= wrapPoint (final (run at_511 initial))).
Proof.
  split; [reflexivity|]. split; [vm_compute; reflexivity|].
  apply (position_within_wrap_range (final (run at_511 initial)) [] true true).
  - unfold wrap_settings_ok. vm_compute. repeat split; discriminate.
  - vm_compute. reflexivity.
  - vm_compute. reflexivity.
Defined.

(** C1 as stated fails for a step that falls inside a 'W' command.  The
    position is -300 and the direction recorded is counter-clockwise when
    'W' with the wrap point 100 arrives; [loop] takes the opcode and the
    case stores the wrap point (line 205).  Pin A falls with B high at this
    moment: the handler finds the wrap point 100 with [wrapPointInverse]
    still -512, and leaves the position at -301, outside [-100, 100]. *)
Lemma step_inside_W_leaves_wrap_range :
  (run wrap_point_change ;; poll) initial = Ok (Some (87, FromUSB)) W_polled /\
  case_W_upto 1 [] W_polled = Ok tt inside_W /\
  wrapPoint inside_W = 100 /\ wrapMode inside_W = 0 /\
  wrapPointInverse inside_W = -512 /\
  confirmed false true inside_W = true /\
  EncoderPos (final (updatePosition false true inside_W)) = -301 /\
  ~ (- wrapPoint inside_W
     <= EncoderPos (final (updatePosition false true inside_W))
     <= wrapPoint inside_W).
Proof.
  split; [vm_compute; reflexivity|]. split; [vm_compute; reflexivity|].
  split; [reflexivity|]. split; [reflexivity|]. split; [reflexivity|].
  split; [vm_compute; reflexivity|].
  assert (EncoderPos (final (updatePosition false true inside_W)) = -301) as E
    by (vm_compute; reflexivity).
  split; [exact E|]. rewrite E. change (wrapPoint inside_W) with 100. lia.
Qed.
(** ** Loops *)

Lemma for_from_inv (I : Z -> State -> Prop) (body : Z -> M unit) (n : nat) :
  forall i s,
    I i s ->
    (forall j s, i <= j < i + Z.of_nat n -> I j s ->
                 exists s', body j s = Ok tt s' /\ I (j + 1) s') ->
    exists s', for_from i n body s = Ok tt s' /\ I (i + Z.of_nat n) s'.
Proof.
  induction n as [|n IH]; intros i s Hi Hbody.
  - exists s. rewrite Z.add_0_r. split; [reflexivity | exact Hi].
  - destruct (Hbody i s ltac:(lia) Hi) as (s1 & E1 & H1).
    destruct (IH (i + 1) s1 H1) as (s2 & E2 & H2).
    { intros j s0 Hj. apply Hbody. lia. }
    exists s2. cbn [for_from]. unfold bind. rewrite E1. split; [exact E2|].
    replace (i + Z.of_nat (S n)) with (i + 1 + Z.of_nat n) by lia. exact H2.
Qed.

Lemma for_inv (I : Z -> State -> Prop) (body : Z -> M unit) (n : Z) (s : State) :
  0 <= n -> I 0 s ->
  (forall j s, 0 <= j < n -> I j s -> exists s', body j s = Ok tt s' /\ I (j + 1) s') ->
  exists s', for_ n body s = Ok tt s' /\ I n s'.
Proof.
  intros Hn H0 Hbody. unfold for_.
  destruct (for_from_inv I body (Z.to_nat n) 0 s H0) as (s' & E & H).
  - intros j s0 Hj. apply Hbody. lia.
  - exists s'. split; [exact E|]. rewrite Z.add_0_l, Z2Nat.id in H by lia. exact H.
Qed.

(** ** Array accesses within bounds *)

Lemma in_bounds_true {A} (l : list A) (i : Z) :
  0 <= i < Z.of_nat (length l) -> in_bounds l i = true.
Proof. intros H. unfold in_bounds. apply andb_true_iff. split; lia. Qed.

Lemma assign_Ok {A} (arr : State -> list A) set_arr (i : Z) (v : A) (s : State) :
  0 <= i < Z.of_nat (length (arr s)) ->
  assign arr set_arr i v s = Ok tt (set_arr (<[Z.to_nat i := v]> (arr s)) s).
Proof.
  intros H. unfold assign, bind, gets, store. rewrite in_bounds_true by exact H.
  reflexivity.
Qed.

Lemma index_Ok {A} (l : list A) (i : Z) (x : A) (s : State) :
  0 <= i -> l !! Z.to_nat i = Some x -> index l i s = Ok x s.
Proof.
  intros H E. unfold index. destruct (Z.leb_spec 0 i); [|lia]. rewrite E. reflexivity.
Qed.

Lemma load_Ok {A} (arr : State -> list A) (i : Z) (x : A) (s : State) :
  0 <= i -> arr s !! Z.to_nat i = Some x -> load arr i s = Ok x s.
Proof. intros H E. unfold load, bind, gets. apply index_Ok; assumption. Qed.

(** ** Commands and the wrap count *)

Lemma decode_opCode_byte (op : OpCode) : decode_opCode (opCode_byte op) = Some op.
Proof. destruct op; reflexivity. Qed.

Lemma send_record_Ok (tag b1 b2 time : Z) (s : State) :
  7 <= Z.of_nat (length (usbStreamingBuffer s)) ->
  exists s', send_record tag b1 b2 time s = Ok tt s' /\ nWraps s' = nWraps s.
Proof.
  intros H. unfold send_record.
  repeat (unfold bind at 1; rewrite assign_Ok by (cbn; rewrite ?length_insert; lia)).
  unfold bind, gets, writeByteArray. cbn. rewrite !length_insert.
  destruct (Z.leb_spec 7 (Z.of_nat (length (usbStreamingBuffer s)))); [|lia].
  eexists. split; reflexivity.
Qed.

Lemma set_thresholdActive_loop (f : Z -> bool) (s : State) :
  well_formed s ->
  exists s', for_ (nThresholds s)
               (fun i => assign thresholdActive set_thresholdActive i (f i)) s = Ok tt s' /\
             nWraps s' = nWraps s.
Proof.
  intros Hwf.
  destruct Hwf as (_ & Hact & _ & _ & _ & _ & Hn & _).
  unfold maxThresholds in *.
  destruct (for_inv
    (fun _ x => Z.of_nat (length (thresholdActive x)) = 8 /\ nWraps x = nWraps s)
    (fun i => assign thresholdActive set_thresholdActive i (f i)) (nThresholds s) s)
    as (s' & E & _ & H); [lia | split; [exact Hact | reflexivity] | | eauto].
  intros j x Hj (Hlen & Hw). rewrite assign_Ok by lia.
  eexists. split; [reflexivity|]. cbn. rewrite length_insert. auto.
Qed.

Lemma readByte_Ok (c : Source) (s : State) (b : Z) (rest : list Z) :
  rx (chan c s) = b :: rest ->
  readByte c s = Ok (u8 b) (set_chan c {| rx := rest; tx := tx (chan c s) |} s).
Proof. intros E. unfold readByte. rewrite E. reflexivity. Qed.

Lemma chan_set_chan (c : Source) (x : ArCOM) (s : State) : chan c (set_chan c x s) = x.
Proof. destruct c; reflexivity. Qed.

Lemma readInt16_Ok_cons (c : Source) (s : State) (lo hi : Z) (rest : list Z) :
  rx (chan c s) = lo :: hi :: rest ->
  readInt16 c s =
  Ok (i16 (u8 lo + 256 * u8 hi))
     (set_chan c {| rx := rest; tx := tx (chan c s) |}
        (set_chan c {| rx := hi :: rest; tx := tx (chan c s) |} s)).
Proof.
  intros E. unfold readInt16. unfold bind at 1. rewrite (readByte_Ok _ _ _ _ E).
  unfold bind at 1. erewrite readByte_Ok by (rewrite chan_set_chan; reflexivity).
  rewrite chan_set_chan. reflexivity.
Qed.

(** C3 (as amended). After a command that resets the position ('Z', 'P',
    'S' with a true payload), sets the wrap point ('W') or changes the
    enabled state of the thresholds (';', 'E'), the wrap count is zero;
    the wrap-mode command 'M' returns with the wrap count it found. *)
Theorem wrap_count_after_command (op : OpCode) (opSource : Source) (s : State) :
  well_formed s ->
  resets_wrap_count op opSource s || sets_wrap_mode op opSource s = true ->
  exists s', dispatch (opCode_byte op) opSource s = Ok tt s' /\
             nWraps s' = if sets_wrap_mode op opSource s then nWraps s else 0.
Proof.
  intros Hwf Hcmd. unfold dispatch. rewrite decode_opCode_byte.
  destruct op; try discriminate Hcmd;
    cbn [run_case resets_wrap_count sets_wrap_mode orb] in *;
    rewrite ?orb_false_r in Hcmd.
  - (* 'S' *)
    destruct opSource; try discriminate Hcmd.
    destruct (rx (myUSB s)) as [|b rest] eqn:E; [discriminate Hcmd|]. cbn in Hcmd.
    unfold case_S. cbn [is_usb when]. unfold bind at 1.
    rewrite (readByte_Ok FromUSB _ _ _ E). unfold bind, modify. rewrite Hcmd.
    eexists. split; reflexivity.
  - (* 'W' *)
    destruct opSource; try discriminate Hcmd.
    destruct (rx (myUSB s)) as [|lo [|hi rest]] eqn:E; try discriminate Hcmd.
    unfold case_W. cbn [is_usb when]. unfold bind at 1.
    rewrite (readInt16_Ok_cons FromUSB _ _ _ _ E).
    unfold bind, modify, writeByte, writeBytes, gets, when. cbn.
    match goal with |- context [if ?c then _ else _] => destruct c end;
      eexists; split; reflexivity.
  - (* 'M' *)
    destruct opSource; try discriminate Hcmd.
    destruct (rx (myUSB s)) as [|b rest] eqn:E; [discriminate Hcmd|].
    unfold case_M. cbn [is_usb when]. unfold bind at 1.
    rewrite (readByte_Ok FromUSB _ _ _ E).
    eexists. split; reflexivity.
  - (* ';' *)
    destruct (rx (chan opSource s)) as [|b rest] eqn:E; [discriminate Hcmd|].
    unfold case_semicolon, readByteFromSource. unfold bind at 1.
    rewrite (readByte_Ok _ _ _ _ E). unfold bind at 1. cbn [gets].
    unfold bind at 1.
    match goal with |- context [for_ ?n ?body ?x] =>
      destruct (set_thresholdActive_loop (fun i => Z.testbit (u8 b) i) x) as (s1 & E1 & _)
    end.
    { destruct opSource; exact Hwf. }
    replace (nThresholds (set_chan opSource _ s)) with (nThresholds s) in E1
      by (destruct opSource; reflexivity).
    replace (nThresholds (set_chan opSource _ s)) with (nThresholds s)
      by (destruct opSource; reflexivity).
    rewrite E1. eexists. split; reflexivity.
  - (* 'Z' *)
    unfold case_Z. unfold bind, modify, gets, when. cbn.
    destruct (usbStreaming s); [|eexists; split; reflexivity].
    match goal with |- context [send_record ?a ?b ?c ?d ?x] =>
      destruct (send_record_Ok a b c d x) as (s1 & E1 & H1)
    end.
    { cbn. destruct Hwf as (_ & _ & _ & _ & _ & Hu & _).
      unfold usbStreamingBufferSize in Hu. lia. }
    rewrite E1. eexists. split; [reflexivity | exact H1].
  - (* 'E' *)
    unfold case_E. unfold bind at 1. cbn [gets]. unfold bind at 1.
    destruct (set_thresholdActive_loop (fun _ => true) s Hwf) as (s1 & E1 & _).
    rewrite E1. eexists. split; reflexivity.
  - (* 'P' *)
    destruct opSource; try discriminate Hcmd.
    destruct (rx (myUSB s)) as [|lo [|hi rest]] eqn:E; try discriminate Hcmd.
    unfold case_P. cbn [is_usb when]. unfold bind at 1.
    rewrite (readInt16_Ok_cons FromUSB _ _ _ _ E).
    eexists. split; reflexivity.
Qed.

(** [well_formed] at a concrete state, by evaluation. *)
Ltac concrete_well_formed :=
  unfold well_formed; vm_compute; repeat split;
  first [reflexivity | discriminate | left; reflexivity | right; reflexivity].

Lemma initial_well_formed : well_formed initial.
Proof. concrete_well_formed. Qed.

Lemma wrap_count_after_command_witness :
  exists s', dispatch 80 FromUSB wrapped_state = Ok tt s' /\ nWraps s' = 0.
Proof.
  apply (wrap_count_after_command OpP FromUSB wrapped_state).
  - concrete_well_formed.
  - reflexivity.
Defined.

(** C3 as stated fails for 'M': once the position has wrapped, the
    wrap-mode command from the host changes the mode and returns with the
    wrap count still at 1. *)
Lemma wrap_mode_command_keeps_wrap_count :
  exists s s',
    run (wrapped_once ++ [Receive FromUSB [1]]) initial = Ok tt s /\
    dispatch 77 FromUSB s = Ok tt s' /\
    wrapMode s' = 1 /\ nWraps s = 1 /\ nWraps s' = 1.
Proof.
  eexists. eexists.
  split; [vm_compute; reflexivity|].
  split; [vm_compute; reflexivity|].
  repeat split.
Qed.
(** ** Reading the log back *)

Lemma case_R_clears_isLogging (s : State) :
  isLogging (final (case_R FromUSB s)) = false.
Proof.
  unfold case_R. cbn [is_usb when]. unfold bind at 1, modify at 1.
  match goal with |- context [final (?m ?x)] =>
    assert (keeps (fun y => isLogging y = false) m) as K
  end.
  { frame same_fields. }
  apply K. reflexivity.
Qed.

Lemma case_R_unavailable (s : State) :
  loggedDataAvailable s = false ->
  dispatch 82 FromUSB s = Ok tt (host_written [0; 0; 0; 0] (set_isLogging false s)).
Proof.
  intros H. assert (dispatch 82 FromUSB s = case_R FromUSB s) as -> by reflexivity.
  unfold case_R. cbn [is_usb when].
  unfold bind, modify, gets. cbn [loggedDataAvailable set_isLogging]. rewrite H.
  reflexivity.
Qed.

(** C9. A 'R' command from the host always leaves [isLogging] false,
    however it ends; and when no logged data is available it returns
    having written the four bytes of the count 0 to the host, with every
    other global as it was. *)
Theorem read_back_unavailable (s : State) :
  isLogging (final (dispatch 82 FromUSB s)) = false /\
  (loggedDataAvailable s = false ->
   dispatch 82 FromUSB s = Ok tt (host_written [0; 0; 0; 0] (set_isLogging false s))).
Proof.
  split.
  - apply case_R_clears_isLogging.
  - apply case_R_unavailable.
Qed.

Lemma read_back_unavailable_witness :
  dispatch 82 FromUSB initial =
  Ok tt (host_written [0; 0; 0; 0] (set_isLogging false initial)).
Proof. apply (proj2 (read_back_unavailable initial)). reflexivity. Defined.
(** ** Threshold programming *)

Lemma for_from_blocked (body : Z -> M unit) (k : nat) :
  forall (n : nat) (i : Z) (s s1 sb : State),
    (k < n)%nat ->
    for_from i k body s = Ok tt s1 ->
    body (i + Z.of_nat k) s1 = Blocked sb ->
    for_from i n body s = Blocked sb.
Proof.
  induction k as [|k IH]; intros n i s s1 sb Hk E1 Eb.
  - cbn in E1. injection E1 as <-. destruct n as [|n]; [lia|].
    cbn [for_from]. unfold bind. rewrite Z.add_0_r in Eb. rewrite Eb. reflexivity.
  - destruct n as [|n]; [lia|]. cbn [for_from] in *. unfold bind in *.
    destruct (body i s) as [[] s2| |]; [|discriminate..].
    apply (IH n (i + 1) s2 s1 sb); [lia | exact E1 |].
    replace (i + 1 + Z.of_nat k) with (i + Z.of_nat (S k)) by lia. exact Eb.
Qed.

Lemma read_threshold_Ok (i : Z) (s : State) (w : Z * Z) (rest : list Z) :
  0 <= i < Z.of_nat (length (thresholds s)) ->
  rx (myUSB s) = fst w :: snd w :: rest ->
  read_threshold i s =
  Ok tt (set_thresholds (<[Z.to_nat i := int16_of w]> (thresholds s)) (host_read rest s)).
Proof.
  intros Hi E. unfold read_threshold. unfold bind at 1.
  rewrite (readInt16_Ok_cons FromUSB _ _ _ _ E).
  rewrite assign_Ok by exact Hi. reflexivity.
Qed.

Lemma host_read_id (s : State) :
  set_thresholds (thresholds s) (host_read (rx (myUSB s)) s) = s.
Proof.
  destruct s. unfold host_read, set_thresholds, set_myUSB. cbn.
  repeat match goal with u : ArCOM |- _ => destruct u end. reflexivity.
Qed.

(** The loop of the 'T' case over a complete payload. *)
Lemma read_thresholds_Ok (words : list (Z * Z)) (rest : list Z) (s : State) :
  Z.of_nat (length words) <= Z.of_nat (length (thresholds s)) ->
  rx (myUSB s) = wire words ++ rest ->
  for_from 0 (length words) read_threshold s =
  Ok tt (set_thresholds (map int16_of words ++ drop (length words) (thresholds s))
           (host_read rest s)).
Proof.
  intros Hlen Hrx.
  destruct (for_from_inv
    (fun j x => x = set_thresholds
                      (map int16_of (take (Z.to_nat j) words) ++
                       drop (Z.to_nat j) (thresholds s))
                      (host_read (wire (drop (Z.to_nat j) words) ++ rest) s))
    read_threshold (length words) 0 s) as (s' & E & H).
  - change (Z.to_nat 0) with 0%nat. rewrite !drop_0, take_0. cbn [map app]. rewrite <- Hrx. symmetry. apply host_read_id.
  - intros j x Hj ->.
    destruct (lookup_lt_is_Some_2 words (Z.to_nat j) ltac:(lia)) as [w Hw].
    rewrite (drop_S _ _ _ Hw). cbn [wire flat_map app].
    erewrite read_threshold_Ok; cycle 1.
    { cbn. rewrite length_app, length_map, length_take, length_drop. lia. }
    { cbn. reflexivity. }
    eexists. split; [reflexivity|].
    replace (Z.to_nat (j + 1)) with (S (Z.to_nat j)) by lia.
    rewrite (take_S_r _ _ _ Hw), map_app. cbn [map].
    destruct (lookup_lt_is_Some_2 (thresholds s) (Z.to_nat j) ltac:(lia)) as [t Ht].
    cbn. rewrite (drop_S _ _ _ Ht).
    rewrite insert_app_r_alt by (rewrite length_map, length_take; lia).
    rewrite length_map, length_take.
    replace (Z.to_nat j - Z.to_nat j `min` length words)%nat with O by lia.
    cbn. rewrite <- app_assoc. reflexivity.
  - rewrite E, H. rewrite Z.add_0_l, Nat2Z.id, firstn_all, drop_all. reflexivity.
Qed.

Lemma length_wire (words : list (Z * Z)) : length (wire words) = (2 * length words)%nat.
Proof.
  induction words as [|w words IH]; [reflexivity|].
  change (wire (w :: words)) with (fst w :: snd w :: wire words).
  cbn [length]. rewrite IH. lia.
Qed.

(** Any byte sequence is a sequence of whole 16-bit values and at most
    one byte more. *)
Lemma wire_split (bytes : list Z) :
  exists words tail, bytes = wire words ++ tail /\ (length tail <= 1)%nat.
Proof.
  enough ((exists words tail, bytes = wire words ++ tail /\ (length tail <= 1)%nat) /\
          (forall a, exists words tail,
              a :: bytes = wire words ++ tail /\ (length tail <= 1)%nat)) as [H _]
    by exact H.
  induction bytes as [|b bytes [IH1 IH2]].
  - split; [exists [], [] | intros a; exists [], [a]]; cbn; split; auto.
  - split; [apply IH2|]. intros a. destruct IH1 as (words & tail & -> & Ht).
    exists ((a, b) :: words), tail. split; [reflexivity | exact Ht].
Qed.

Lemma read_threshold_Blocked (i : Z) (s : State) :
  (length (rx (myUSB s)) <= 1)%nat ->
  exists sb, read_threshold i s = Blocked sb /\ tx (myUSB sb) = tx (myUSB s).
Proof.
  intros H. unfold read_threshold, readInt16. unfold bind at 1 2.
  destruct (rx (myUSB s)) as [|b [|b' rest]] eqn:E; [| |cbn in H; lia].
  - unfold readByte. cbn [chan]. rewrite E. eexists. split; reflexivity.
  - rewrite (readByte_Ok FromUSB _ _ _ E). unfold bind at 1. unfold readByte.
    cbn. eexists. split; reflexivity.
Qed.

(** C6. A 'T' command from the host whose count byte [N] exceeds 8 returns
    having written the single byte 0, with every other global as it was.
    With [N <= 8] and the [N] values received, it returns with [N] as the
    number of thresholds, the [N] values in the first [N] places of
    [thresholds], and the single byte 1 written; the enabled flags are as
    they were.  With [N <= 8] and fewer than [2 N] payload bytes received
    it is blocked reading, and nothing has been written to the host. *)
Theorem program_thresholds (s : State) (N : Z) :
  well_formed s -> 0 <= N < 256 ->
  (forall rest,
     8 < N -> rx (myUSB s) = N :: rest ->
     dispatch 84 FromUSB s = Ok tt (host_written [0] (host_read rest s))) /\
  (forall words rest,
     Z.of_nat (length words) = N -> N <= 8 ->
     rx (myUSB s) = N :: wire words ++ rest ->
     dispatch 84 FromUSB s =
     Ok tt (host_written [1]
              (set_thresholds (map int16_of words ++ drop (length words) (thresholds s))
                 (set_nThresholds N (host_read rest s))))) /\
  (forall bytes,
     N <= 8 -> Z.of_nat (length bytes) < 2 * N ->
     rx (myUSB s) = N :: bytes ->
     exists sb, dispatch 84 FromUSB s = Blocked sb /\ tx (myUSB sb) = tx (myUSB s)).
Proof.
  intros Hwf Hbyte. destruct Hwf as (Hthr & _). unfold maxThresholds in Hthr.
  assert (dispatch 84 FromUSB s = case_T FromUSB s) as -> by reflexivity.
  unfold case_T. cbn [is_usb when]. unfold maxThresholds.
  split; [|split].
  - intros rest HN E. unfold bind at 1. rewrite (readByte_Ok FromUSB _ _ _ E).
    rewrite (u8_id N Hbyte). destruct (Z.leb_spec N 8); [lia|]. reflexivity.
  - intros words rest Hlen HN E. unfold bind at 1.
    rewrite (readByte_Ok FromUSB _ _ _ E). rewrite (u8_id N Hbyte).
    destruct (Z.leb_spec N 8); [|lia].
    unfold bind at 1. unfold modify at 1. unfold bind at 1. unfold for_.
    rewrite <- Hlen, Nat2Z.id.
    rewrite (read_thresholds_Ok words rest) by (cbn; first [lia | reflexivity]).
    reflexivity.
  - intros bytes HN Hshort E. unfold bind at 1.
    rewrite (readByte_Ok FromUSB _ _ _ E). rewrite (u8_id N Hbyte).
    destruct (Z.leb_spec N 8); [|lia].
    unfold bind at 1. unfold modify at 1. unfold bind at 1. unfold for_.
    destruct (wire_split bytes) as (words & tail & -> & Htail).
    rewrite length_app, length_wire in Hshort.
    match goal with |- context [for_from 0 _ read_threshold ?x] => set (x0 := x) end.
    pose proof (read_thresholds_Ok words tail x0) as Hloop.
    specialize (Hloop ltac:(cbn; lia) eq_refl).
    match type of Hloop with _ = Ok tt ?x => set (x1 := x) in * end.
    destruct (read_threshold_Blocked (0 + Z.of_nat (length words)) x1 Htail)
      as (sb & Eb & Htx).
    rewrite (for_from_blocked read_threshold (length words) (Z.to_nat N) 0 x0 x1 sb
               ltac:(lia) Hloop Eb).
    exists sb. split; [reflexivity|]. rewrite Htx. reflexivity.
Qed.

Lemma program_thresholds_witness :
  dispatch 84 FromUSB nine_thresholds =
  Ok tt (host_written [0] (host_read (wire (replicate 9 (1, 0))) nine_thresholds)).
Proof.
  refine (proj1 (program_thresholds nine_thresholds 9 _ _) _ _ _).
  - concrete_well_formed.
  - lia.
  - reflexivity.
  - reflexivity.
Defined.

(** ** The session log *)

Lemma transfer_Ok (c sent : list Z) (p n : Z) (s : State) :
  reading_back c sent p s ->
  0 <= p -> 0 <= n <= sdReadBufferSize -> p + n <= Z.of_nat (length c) ->
  exists s', transfer n s = Ok tt s' /\ reading_back c sent (p + n) s'.
Proof.
  unfold reading_back, sdReadBufferSize. intros (Hf & Hbuf & Htx & Hav) Hp Hn Hc.
  unfold transfer, file_read_sdReadBuffer. unfold bind at 1 2 3. cbn [gets].
  rewrite Hf. cbn [content cursor].
  remember (take (Z.to_nat n) (drop (Z.to_nat p) c)) as got eqn:Egot.
  assert (length got = Z.to_nat n) as Hgot.
  { rewrite Egot, length_take, length_drop. lia. }
  rewrite Hgot.
  destruct (Nat.leb_spec (Z.to_nat n) (length (sdReadBuffer s))); [|lia].
  unfold modify at 1. unfold bind at 1. cbn [gets sdReadBuffer set_DataFile set_sdReadBuffer].
  unfold writeByteArray.
  rewrite length_app, length_drop, Hgot.
  destruct (Z.leb_spec 0 n); [|lia].
  destruct (Z.leb_spec n (Z.of_nat (Z.to_nat n + (length (sdReadBuffer s) - Z.to_nat n))));
    [|lia].
  cbn [andb]. eexists. split; [reflexivity|].
  cbn. repeat split.
  - rewrite Z2Nat.id by lia. reflexivity.
  - rewrite length_app, length_drop, Hgot. lia.
  - rewrite Htx, <- app_assoc. f_equal.
    rewrite take_app_length' by (symmetry; exact Hgot).
    rewrite Egot, Z2Nat.inj_add by lia. apply take_take_drop.
  - exact Hav.
Qed.

Lemma file_seek_0 (s : State) :
  file_seek 0 s = Ok tt (set_DataFile {| content := content (DataFile s); cursor := 0 |} s).
Proof.
  unfold file_seek, modify.
  destruct (Z.leb_spec 0 (Z.of_nat (length (content (DataFile s))))); [reflexivity | lia].
Qed.

Lemma full_transfers_Ok (c sent : list Z) (k : Z) (s : State) :
  reading_back c sent 0 s ->
  0 <= k -> sdReadBufferSize * k <= Z.of_nat (length c) ->
  exists s', for_ k (fun _ => transfer sdReadBufferSize) s = Ok tt s' /\
             reading_back c sent (sdReadBufferSize * k) s'.
Proof.
  intros H0 Hk Hc.
  apply (for_inv (fun j x => reading_back c sent (sdReadBufferSize * j) x)); [exact Hk | | ].
  - rewrite Z.mul_0_r. exact H0.
  - intros j x Hj Hx.
    destruct (transfer_Ok c sent (sdReadBufferSize * j) sdReadBufferSize x Hx)
      as (x' & E & Hx'); unfold sdReadBufferSize in *; try lia.
    exists x'. split; [exact E|].
    replace (2048 * (j + 1)) with (2048 * j + 2048) by lia. exact Hx'.
Qed.

(** The full transfers and the remainder of the 'R' case cover the log. *)
Lemma transfers_cover (N : Z) :
  0 < N -> 8 * N <= 4294967295 ->
  let nFullBufferReads :=
    if u32 (N * 8) >? sdReadBufferSize then u32 (N * 8 / sdReadBufferSize) else 0 in
  let nRemainderBytes := u32 (N * 8 - nFullBufferReads * sdReadBufferSize) in
  0 <= nFullBufferReads /\ 0 <= nRemainderBytes <= sdReadBufferSize /\
  sdReadBufferSize * nFullBufferReads + nRemainderBytes = 8 * N.
Proof.
  intros HN Hfit. unfold sdReadBufferSize. cbv zeta.
  rewrite (u32_id (N * 8)) by lia.
  destruct (Z.gtb_spec (N * 8) 2048).
  - pose proof (Z.div_mod (N * 8) 2048 ltac:(lia)).
    pose proof (Z.mod_pos_bound (N * 8) 2048 ltac:(lia)).
    assert (0 <= N * 8 / 2048) by (apply Z.div_pos; lia).
    rewrite (u32_id (N * 8 / 2048)) by lia. rewrite u32_id by lia. lia.
  - rewrite u32_id by lia. lia.
Qed.



(** With the counter at 2^29 the product [dataPos*8] is 2^32, which is 0
    in 32 bits: no full buffer and no remainder is transferred. *)
Lemma case_R_wrapped (s : State) :
  loggedDataAvailable s = true ->
  dataPos s = 536870912 ->
  dispatch 82 FromUSB s =
  Ok tt (set_dataPos 0
           (host_written [0; 0; 0; 32]
              (set_DataFile {| content := content (DataFile s); cursor := 0 |}
                 (set_loggedDataAvailable false (set_isLogging false s))))).
Proof.
  intros Hav Hpos.
  assert (dispatch 82 FromUSB s = case_R FromUSB s) as -> by reflexivity.
  unfold case_R. cbn [is_usb when].
  unfold bind at 1. unfold modify at 1. unfold bind at 1.
  cbn [gets loggedDataAvailable set_isLogging]. rewrite Hav.
  unfold bind at 1. unfold modify at 1. unfold bind at 1.
  rewrite file_seek_0. unfold bind at 1.
  cbn [gets dataPos set_DataFile set_loggedDataAvailable set_isLogging]. rewrite Hpos.
  reflexivity.
Qed.


(** C2 (a defect of the sketch). A session in which logging is started, one
    sample is drained and logged, and logging is stopped: the read-back
    that follows returns the count 2 and two copies of the record of the
    one sample (position 1 at time 5), because the 'F' case calls
    [logCurrentPosition], which appends the batch drained last, already in
    the file, once more. *)
Theorem stop_logs_last_batch_again :
  exists s,
    run (one_sample_session ++ [Receive FromUSB [82]; Loop]) initial = Ok tt s /\
    tx (myUSB s) = le32 2 ++ (le32 1 ++ le32 5) ++ (le32 1 ++ le32 5).
Proof. eexists. split; vm_compute; reflexivity. Qed.
(** ** The threshold detector *)

Lemma col_Ok {A} (k : Z) (row : A * A) (s : State) :
  k = 0 \/ k = 1 -> col k row s = Ok (if k =? 0 then fst row else snd row) s.
Proof. intros [-> | ->]; reflexivity. Qed.

Lemma load2_Ok {A} (arr : State -> list (A * A)) (i k : Z) (row : A * A) (s : State) :
  0 <= i -> arr s !! Z.to_nat i = Some row -> k = 0 \/ k = 1 ->
  load2 arr i k s = Ok (if k =? 0 then fst row else snd row) s.
Proof.
  intros Hi E Hk. unfold load2. unfold bind at 1.
  rewrite (load_Ok arr i row s Hi E). apply col_Ok, Hk.
Qed.

Lemma batch_lookup (s : State) (j : Z) (row : Z * Z) :
  0 <= j < nPositions s ->
  positionBuffer s !! Z.to_nat j = Some row ->
  batch s !! Z.to_nat j =
  Some (if thisPositionBuffer s =? 0 then fst row else snd row).
Proof.
  intros Hj E. unfold batch, column.
  rewrite lookup_take_lt by lia. rewrite list_lookup_fmap, E. reflexivity.
Qed.

Lemma length_batch (s : State) : well_formed s -> length (batch s) = Z.to_nat (nPositions s).
Proof.
  intros (_ & _ & _ & Hp & _ & _ & _ & _ & _ & Hn & _). unfold positionBufferSize in *.
  unfold batch, column. rewrite length_take, length_map. lia.
Qed.

Lemma existsb_take_S {A} (f : A -> bool) (l : list A) (j : nat) (x : A) :
  l !! j = Some x -> existsb f (take (S j) l) = existsb f (take j l) || f x.
Proof.
  intros E. rewrite (take_S_r _ _ _ E), existsb_app. cbn. rewrite orb_false_r. reflexivity.
Qed.

(** The inner loop: threshold [i], enabled, against the batch. *)
Lemma detect_samples_Ok (crossed : Z -> Z -> bool) (i t : Z) (s : State) :
  well_formed s -> 0 <= i ->
  thresholdActive s !! Z.to_nat i = Some true ->
  thresholds s !! Z.to_nat i = Some t ->
  for_ (nPositions s) (detect_sample crossed i) s =
  Ok tt (if existsb (fun p => crossed p t) (batch s) then announce [i] s else s).
Proof.
  intros Hwf Hi Hact Hthr.
  pose proof (length_batch s Hwf) as Hlen.
  destruct Hwf as (_ & Hla & _ & Hp & _ & _ & _ & _ & Hthis & Hn & _).
  unfold positionBufferSize, maxThresholds in *.
  destruct (for_inv
    (fun j x => x = if existsb (fun p => crossed p t) (take (Z.to_nat j) (batch s))
                    then announce [i] s else s)
    (detect_sample crossed i) (nPositions s) s) as (s' & E & H); [lia | reflexivity | |].
  - intros j x Hj ->.
    destruct (lookup_lt_is_Some_2 (positionBuffer s) (Z.to_nat j) ltac:(lia)) as [row Hrow].
    pose proof (batch_lookup s j row Hj Hrow) as Hb.
    replace (Z.to_nat (j + 1)) with (S (Z.to_nat j)) by lia.
    rewrite (existsb_take_S _ _ _ _ Hb).
    destruct (existsb _ (take (Z.to_nat j) (batch s))).
    + (* fired before: the threshold is no longer active *)
      assert (thresholdActive (announce [i] s) !! Z.to_nat i = Some false) as Hoff.
      { cbn. apply list_lookup_insert_eq. apply lookup_lt_Some in Hact. exact Hact. }
      eexists. split; [|reflexivity].
      unfold detect_sample. unfold bind at 1.
      rewrite (load_Ok thresholdActive i false _ Hi Hoff). reflexivity.
    + cbn [orb]. unfold detect_sample. unfold bind at 1.
      rewrite (load_Ok thresholdActive i true s Hi Hact). cbn [when].
      unfold bind at 1. cbn [gets]. unfold bind at 1.
      rewrite (load2_Ok positionBuffer j _ row s ltac:(lia) Hrow Hthis).
      unfold bind at 1. rewrite (load_Ok thresholds i t s Hi Hthr).
      destruct (crossed _ t); [|eexists; split; reflexivity].
      cbn [when]. unfold bind at 1. rewrite assign_Ok.
      * eexists. split; reflexivity.
      * apply lookup_lt_Some in Hact. lia.
  - rewrite E, H. rewrite <- Hlen, firstn_all. reflexivity.
Qed.

Lemma crossed_by_sign (t : Z) (l : list Z) :
  existsb (crosses t) l =
  if t <? 0 then existsb (fun p => p <=? t) l else existsb (fun p => p >=? t) l.
Proof. unfold crosses. destruct (t <? 0); reflexivity. Qed.

(** One iteration of the outer loop. *)
Lemma detect_threshold_Ok (i : Z) (s : State) :
  well_formed s -> 0 <= i < maxThresholds ->
  detect_threshold i s = Ok tt (if fires s i then announce [i] s else s).
Proof.
  intros Hwf Hi. pose proof Hwf as (Hlt & Hla & _). unfold maxThresholds in *.
  destruct (lookup_lt_is_Some_2 (thresholdActive s) (Z.to_nat i) ltac:(lia)) as [a Ha].
  destruct (lookup_lt_is_Some_2 (thresholds s) (Z.to_nat i) ltac:(lia)) as [t Ht].
  unfold detect_threshold, fires. unfold bind at 1.
  rewrite (load_Ok thresholdActive i a s ltac:(lia) Ha). rewrite Ha, Ht.
  destruct a; [|reflexivity]. cbn [when]. unfold bind at 1.
  rewrite (load_Ok thresholds i t s ltac:(lia) Ht). unfold bind at 1. cbn [gets].
  rewrite crossed_by_sign.
  destruct (t <? 0); apply detect_samples_Ok; auto; lia.
Qed.

(** *** Who fires *)

Lemma fired_upto_In (s : State) (n : nat) (i : Z) :
  In i (fired_upto s n) <-> 0 <= i < Z.of_nat n /\ fires s i = true.
Proof.
  induction n as [|n IH]; cbn [fired_upto].
  - split; [intros [] | lia].
  - rewrite in_app_iff, IH. destruct (fires s (Z.of_nat n)) eqn:E; cbn.
    + split.
      * intros [[H1 H2] | [<- | []]]; split; auto; lia.
      * intros [H1 H2]. destruct (Z.eq_dec i (Z.of_nat n)); [right; left; auto|].
        left. split; [lia | exact H2].
    + split.
      * intros [[H1 H2] | []]. split; [lia | exact H2].
      * intros [H1 H2]. left. split; [|exact H2].
        destruct (Z.eq_dec i (Z.of_nat n)); [congruence | lia].
Qed.

Lemma fired_upto_NoDup (s : State) (n : nat) : List.NoDup (fired_upto s n).
Proof.
  induction n as [|n IH]; cbn [fired_upto]; [constructor|].
  destruct (fires s (Z.of_nat n)); [|rewrite app_nil_r; exact IH].
  apply NoDup_ListNoDup, NoDup_app. repeat split.
  - apply NoDup_ListNoDup, IH.
  - intros x Hx Hx'. apply list_elem_of_In, fired_upto_In in Hx.
    apply list_elem_of_singleton in Hx'. lia.
  - apply NoDup_singleton.
Qed.

(** *** What firing does to the enabled flags *)

Lemma deactivate_snoc (fired : list Z) (i : Z) (active : list bool) :
  deactivate (fired ++ [i]) active = <[Z.to_nat i := false]> (deactivate fired active).
Proof. unfold deactivate. rewrite foldl_app. reflexivity. Qed.

Lemma length_deactivate (fired : list Z) (active : list bool) :
  length (deactivate fired active) = length active.
Proof.
  induction fired as [|i fired IH] using rev_ind; [reflexivity|].
  rewrite deactivate_snoc, length_insert. exact IH.
Qed.

Lemma deactivate_off (fired : list Z) (active : list bool) (k : nat) :
  active !! k = Some false -> deactivate fired active !! k = Some false.
Proof.
  intros H. induction fired as [|i fired IH] using rev_ind; [exact H|].
  rewrite deactivate_snoc. destruct (Nat.eq_dec (Z.to_nat i) k) as [<-|Hne].
  - apply list_lookup_insert_eq. apply lookup_lt_Some in IH. exact IH.
  - rewrite list_lookup_insert_ne by exact Hne. exact IH.
Qed.

Lemma deactivate_In (fired : list Z) (active : list bool) (i : Z) :
  In i fired -> (Z.to_nat i < length active)%nat ->
  deactivate fired active !! Z.to_nat i = Some false.
Proof.
  intros Hin Hi. induction fired as [|j fired IH] using rev_ind; [destruct Hin|].
  rewrite deactivate_snoc. apply in_app_iff in Hin as [Hin | [-> | []]].
  - destruct (Nat.eq_dec (Z.to_nat j) (Z.to_nat i)) as [->|Hne].
    + apply list_lookup_insert_eq. rewrite length_deactivate. exact Hi.
    + rewrite list_lookup_insert_ne by exact Hne. apply IH, Hin.
  - apply list_lookup_insert_eq. rewrite length_deactivate. exact Hi.
Qed.

Lemma deactivate_other (fired : list Z) (active : list bool) (k : nat) :
  (forall i, In i fired -> Z.to_nat i <> k) ->
  deactivate fired active !! k = active !! k.
Proof.
  intros H. induction fired as [|j fired IH] using rev_ind; [reflexivity|].
  rewrite deactivate_snoc. rewrite list_lookup_insert_ne.
  - apply IH. intros i Hi. apply H, in_app_iff. left. exact Hi.
  - apply H, in_app_iff. right. left. reflexivity.
Qed.

Lemma announce_nil (s : State) : announce [] s = s.
Proof.
  destruct s. unfold announce, set_StateMachineCOM, set_thresholdActive. cbn.
  rewrite app_nil_r. repeat match goal with u : ArCOM |- _ => destruct u end. reflexivity.
Qed.

Lemma announce_snoc (fired : list Z) (i : Z) (s : State) :
  announce [i] (announce fired s) = announce (fired ++ [i]) s.
Proof.
  unfold announce, set_StateMachineCOM, set_thresholdActive. cbn.
  rewrite deactivate_snoc, map_app, <- app_assoc. reflexivity.
Qed.

Lemma announce_well_formed (fired : list Z) (s : State) :
  well_formed s -> well_formed (announce fired s).
Proof.
  unfold well_formed. cbn. rewrite length_deactivate. auto.
Qed.

Lemma fires_announce (s : State) (n : nat) :
  fires (announce (fired_upto s n) s) (Z.of_nat n) = fires s (Z.of_nat n).
Proof.
  unfold fires. cbn [thresholdActive thresholds announce set_StateMachineCOM set_thresholdActive].
  rewrite deactivate_other; [reflexivity|].
  intros i Hi. apply fired_upto_In in Hi. lia.
Qed.

(** The detector as a whole. *)
Lemma thresholdDetector_Ok (s : State) :
  well_formed s ->
  thresholdDetector s =
  Ok tt (if sendEvents s && (nWraps s =? 0)
         then announce (fired_upto s (Z.to_nat (nThresholds s))) s
         else s).
Proof.
  intros Hwf. unfold thresholdDetector. unfold bind at 1. cbn [gets].
  destruct (sendEvents s); [|reflexivity]. cbn [when andb].
  unfold bind at 1. cbn [gets]. destruct (nWraps s =? 0); [|reflexivity]. cbn [when].
  unfold bind at 1. cbn [gets].
  pose proof Hwf as (_ & _ & _ & _ & _ & _ & Hn & _).
  destruct (for_inv (fun i x => x = announce (fired_upto s (Z.to_nat i)) s)
              detect_threshold (nThresholds s) s) as (s' & E & ->);
    [lia | symmetry; apply announce_nil | | exact E].
  intros i x Hi ->.
  rewrite detect_threshold_Ok by (auto using announce_well_formed; lia).
  eexists. split; [reflexivity|].
  replace (Z.to_nat (i + 1)) with (S (Z.to_nat i)) by lia. cbn [fired_upto].
  remember (Z.to_nat i) as k eqn:Ek.
  assert (i = Z.of_nat k) as -> by lia. clear Ek.
  rewrite fires_announce.
  destruct (fires s (Z.of_nat k)); [apply announce_snoc | rewrite app_nil_r; reflexivity].
Qed.
(** ** The events of the detector *)

Lemma event_byte_In (s : State) (n : nat) (i : Z) :
  (n <= 8)%nat -> 0 <= i ->
  In (i + 1) (map event_byte (fired_upto s n)) <-> In i (fired_upto s n).
Proof.
  intros Hn Hi. rewrite in_map_iff. split.
  - intros (j & Hj & Hin). pose proof Hin as Hin'. apply fired_upto_In in Hin' as [Hr _].
    unfold event_byte in Hj. rewrite u8_id in Hj by lia.
    assert (j = i) as -> by lia. exact Hin.
  - intros Hin. exists i. split; [|exact Hin].
    apply fired_upto_In in Hin as [Hr _]. unfold event_byte. apply u8_id. lia.
Qed.

(** C5. A run of the detector over a drained batch returns, and what it
    writes to the state machine is a sequence of bytes [i + 1] of enabled
    thresholds [i] of the set; it is empty when event transmission is off
    or the wrap count is not zero; otherwise the byte of an enabled
    threshold is in it exactly when some position of the batch is below or
    at its negative value, or above or at its non-negative value. *)
Theorem threshold_events (s : State) :
  well_formed s ->
  exists s' events,
    thresholdDetector s = Ok tt s' /\
    tx (StateMachineCOM s') = tx (StateMachineCOM s) ++ events /\
    (forall b, In b events ->
       exists i, b = i + 1 /\ 0 <= i < nThresholds s /\
                 thresholdActive s !! Z.to_nat i = Some true) /\
    (sendEvents s = false \/ nWraps s <> 0 -> events = []) /\
    (sendEvents s = true -> nWraps s = 0 ->
     forall i t,
       0 <= i < nThresholds s ->
       thresholdActive s !! Z.to_nat i = Some true ->
       thresholds s !! Z.to_nat i = Some t ->
       (In (i + 1) events <->
        exists p, In p (batch s) /\ (t < 0 /\ p <= t \/ 0 <= t /\ p >= t))).
Proof.
  intros Hwf. pose proof Hwf as (_ & _ & _ & _ & _ & _ & Hn & _).
  unfold maxThresholds in Hn.
  exists (final (thresholdDetector s)), (detector_events s).
  rewrite (thresholdDetector_Ok s Hwf). cbn [final]. unfold detector_events.
  split; [reflexivity|]. split; [|split; [|split]].
  - destruct (sendEvents s && (nWraps s =? 0)); [reflexivity|].
    rewrite app_nil_r. reflexivity.
  - intros b Hb. destruct (sendEvents s && (nWraps s =? 0)); [|destruct Hb].
    apply in_map_iff in Hb as (i & <- & Hi). apply fired_upto_In in Hi as [Hr Hf].
    exists i. unfold event_byte. rewrite u8_id by lia.
    split; [reflexivity|]. split; [lia|].
    unfold fires in Hf. destruct (thresholdActive s !! Z.to_nat i) as [[|]|];
      [reflexivity | discriminate..].
  - intros [-> | Hw]; [reflexivity|].
    destruct (Z.eqb_spec (nWraps s) 0); [contradiction|].
    rewrite andb_false_r. reflexivity.
  - intros -> Hw i t Hi Ha Ht. rewrite Hw. cbn [andb Z.eqb].
    rewrite event_byte_In by lia. rewrite fired_upto_In.
    unfold fires. rewrite Ha, Ht. rewrite existsb_exists. unfold crosses.
    split.
    + intros (_ & p & Hp & Hc). exists p. split; [exact Hp|].
      destruct (Z.ltb_spec t 0); [left | right]; lia.
    + intros (p & Hp & Hc). split; [lia|]. exists p. split; [exact Hp|].
      destruct (Z.ltb_spec t 0); lia.
Qed.

Lemma threshold_events_witness :
  exists s' events,
    thresholdDetector two_thresholds = Ok tt s' /\
    tx (StateMachineCOM s') = tx (StateMachineCOM two_thresholds) ++ events /\
    (forall b, In b events ->
       exists i, b = i + 1 /\ 0 <= i < nThresholds two_thresholds /\
                 thresholdActive two_thresholds !! Z.to_nat i = Some true) /\
    (sendEvents two_thresholds = false \/ nWraps two_thresholds <> 0 -> events = []) /\
    (sendEvents two_thresholds = true -> nWraps two_thresholds = 0 ->
     forall i t,
       0 <= i < nThresholds two_thresholds ->
       thresholdActive two_thresholds !! Z.to_nat i = Some true ->
       thresholds two_thresholds !! Z.to_nat i = Some t ->
       (In (i + 1) events <->
        exists p, In p (batch two_thresholds) /\ (t < 0 /\ p <= t \/ 0 <= t /\ p >= t))).
Proof. apply (threshold_events two_thresholds). concrete_well_formed. Defined.

(** The scenario of the specification: thresholds -100 and 300 against
    the batch 50, -150, 350 give the events 1 and 2, in this order, and
    leave both thresholds disabled. *)
Example two_thresholds_fire :
  exists s', thresholdDetector two_thresholds = Ok tt s' /\
             tx (StateMachineCOM s') = [1; 2] /\
             take 2 (thresholdActive s') = [false; false].
Proof. eexists. split; [vm_compute; reflexivity|]. split; reflexivity. Qed.
(** ** The shapes are kept

    Every state the module reaches is [well_formed]. *)

Lemma keeps_bind_val {A B} (P : State -> Prop) (Q : A -> Prop) (m : M A) (k : A -> M B) :
  (forall s a s', P s -> m s = Ok a s' -> Q a) ->
  keeps P m -> (forall a, Q a -> keeps P (k a)) -> keeps P (bind m k).
Proof.
  intros HQ Hm Hk s H. unfold bind. specialize (Hm s H). specialize (HQ s).
  destruct (m s) as [a s1|s1|s1]; cbn in *; [|assumption..].
  apply Hk; [eapply HQ; [exact H | reflexivity] | assumption].
Qed.

Lemma readByte_byte (c : Source) (s : State) (a : Z) (s' : State) :
  readByte c s = Ok a s' -> 0 <= a < 256.
Proof.
  unfold readByte. destruct (rx (chan c s)); [discriminate|].
  intros [= <- _]. unfold u8. apply Z.mod_pos_bound. lia.
Qed.

(** An assignment keeps the shapes: it is to a global they do not
    mention, or it stores into an array, or the value is in range. *)
Ltac shapes :=
  intros;
  repeat match goal with c : Source |- _ => destruct c end;
  first
    [ assumption
    | unfold well_formed, maxThresholds, sdReadBufferSize, positionBufferSize,
        usbStreamingBufferSize in *;
      cbn [thresholds thresholdActive nThresholds sdReadBuffer positionBuffer timeBuffer
           usbStreamingBuffer currentPositionBuffer thisPositionBuffer nPositions
           iPositionBuffer fst snd
           set_thresholds set_thresholdActive set_sdReadBuffer set_positionBuffer
           set_timeBuffer set_usbStreamingBuffer set_iPositionBuffer set_nThresholds
           set_nPositions set_currentPositionBuffer set_thisPositionBuffer] in *;
      rewrite ?length_insert;
      repeat match goal with H : length _ = length _ |- _ => rewrite H end;
      solve [intuition lia] ].

Lemma store_row_well_formed (arr : State -> list (Z * Z)) set_arr (i k v : Z) :
  (forall s l, well_formed s -> length l = length (arr s) -> well_formed (set_arr l s)) ->
  keeps well_formed (assign2 arr set_arr i k v).
Proof. intros H. apply keeps_assign2. exact H. Qed.

Lemma commitSample_well_formed : keeps well_formed commitSample.
Proof.
  unfold commitSample.
  apply keeps_bind; [apply keeps_gets | intros cur].
  apply (keeps_bind_val _ (fun c => 0 <= fst c <= 1024 /\ 0 <= snd c <= 1024));
    [|apply keeps_gets | intros counts Hcounts].
  { intros s c s' Hs [= <- _]. unfold well_formed, positionBufferSize in Hs. tauto. }
  apply keeps_bind; [apply keeps_col | intros thisInd].
  apply keeps_bind; [apply keeps_gets | intros pos].
  apply (keeps_bind_val _ (fun _ => thisInd < 1024)).
  - intros s [] s' Hs. unfold assign2. unfold bind at 1. unfold load, bind at 1, gets, index.
    destruct (Z.leb_spec 0 thisInd); [|discriminate].
    destruct (positionBuffer s !! Z.to_nat thisInd) eqn:E; [|discriminate].
    intros _. apply lookup_lt_Some in E.
    unfold well_formed, positionBufferSize in Hs. intuition lia.
  - apply keeps_assign2. shapes.
  - intros _ Hlt.
    apply keeps_bind; [apply keeps_gets | intros now].
    apply (keeps_bind_val _ (fun _ => 0 <= thisInd)).
    + intros s [] s' Hs. unfold assign2. unfold bind at 1. unfold load, bind at 1, gets, index.
      destruct (Z.leb_spec 0 thisInd); [intros _; assumption | discriminate].
    + apply keeps_assign2. shapes.
    + intros _ Hge.
      apply (keeps_bind_val _ (fun c => (fst c = u32 (thisInd + 1) \/ fst c = fst counts) /\
                                        (snd c = u32 (thisInd + 1) \/ snd c = snd counts))).
      * intros s c s' _. unfold set_col.
        destruct (cur =? 0); [intros [= <- _]; cbn; auto|].
        destruct (cur =? 1); [intros [= <- _]; cbn; auto | discriminate].
      * apply keeps_set_col.
      * intros c Hc. rewrite u32_id in Hc by lia.
        apply keeps_bind; [|intros _; apply keeps_modify; shapes].
        apply keeps_modify. shapes.
Qed.

Lemma swapBuffers_well_formed : keeps well_formed swapBuffers.
Proof.
  unfold swapBuffers.
  apply keeps_bind; [apply keeps_modify; shapes | intros _].
  apply (keeps_bind_val _ (fun c => c = 0 \/ c = 1)); [|apply keeps_gets | intros cur Hcur].
  { intros s c s' Hs [= <- _]. unfold well_formed in Hs. tauto. }
  apply (keeps_bind_val _ (fun c => 0 <= fst c <= 1024 /\ 0 <= snd c <= 1024));
    [|apply keeps_gets | intros counts Hcounts].
  { intros s c s' Hs [= <- _]. unfold well_formed, positionBufferSize in Hs. tauto. }
  apply (keeps_bind_val _ (fun n => 0 <= n <= 1024)); [|apply keeps_col | intros n Hn].
  { intros s c s' _. rewrite (col_Ok _ _ _ Hcur). intros [= <- _].
    destruct (cur =? 0); tauto. }
  apply keeps_bind; [apply keeps_modify; shapes | intros _].
  apply keeps_bind; [apply keeps_modify; shapes | intros _].
  assert (u8 (1 - cur) = 0 \/ u8 (1 - cur) = 1) as Hother
    by (destruct Hcur as [-> | ->]; [right | left]; reflexivity).
  apply keeps_bind; [apply keeps_modify; shapes | intros _].
  apply (keeps_bind_val _ (fun c => (fst c = 0 \/ fst c = fst counts) /\
                                    (snd c = 0 \/ snd c = snd counts)));
    [|apply keeps_set_col | intros c Hc; apply keeps_modify; shapes].
  intros s c s' _. unfold set_col.
  destruct (u8 (1 - cur) =? 0); [intros [= <- _]; cbn; auto|].
  destruct (u8 (1 - cur) =? 1); [intros [= <- _]; cbn; auto | discriminate].
Qed.

Lemma case_T_well_formed (opSource : Source) : keeps well_formed (case_T opSource).
Proof.
  unfold case_T. apply keeps_when.
  apply (keeps_bind_val _ (fun b => 0 <= b < 256));
    [intros s a s' _; apply readByte_byte | apply keeps_readByte; shapes | intros param Hb].
  unfold maxThresholds. destruct (Z.leb_spec param 8).
  - apply keeps_bind; [apply keeps_modify; shapes | intros _].
    apply keeps_bind; [|intros _; apply keeps_writeBytes; shapes].
    apply keeps_for. intros i. unfold read_threshold.
    apply keeps_bind; [apply keeps_readInt16; shapes | intros v].
    apply keeps_assign. shapes.
  - apply keeps_writeBytes. shapes.
Qed.

Ltac shapes_step :=
  lazymatch goal with
  | |- keeps _ commitSample => apply commitSample_well_formed
  | |- keeps _ swapBuffers => apply swapBuffers_well_formed
  | |- keeps _ (case_T _) => apply case_T_well_formed
  | |- _ => frame_step shapes
  end.

Lemma step_well_formed (i : Input) : keeps well_formed (step i).
Proof.
  destruct i as [a b|d|c bytes|]; cbn [step].
  - repeat shapes_step.
  - repeat shapes_step.
  - repeat shapes_step.
  - unfold loop. apply keeps_bind; [repeat shapes_step | intros newOp].
    apply keeps_bind.
    + destruct newOp as [[opCode opSource]|]; [|apply keeps_ret].
      unfold dispatch. destruct (decode_opCode opCode) as [op|]; [|apply keeps_ret].
      destruct op; cbn [run_case]; repeat shapes_step.
    + intros _. repeat shapes_step.
Qed.

(** Every state reached from the initial one is well formed. *)
Lemma reachable_well_formed (inputs : list Input) (s : State) :
  run inputs initial = Ok tt s -> well_formed s.
Proof.
  exact (keeps_Ok _ _ _ _ _ (keeps_run _ inputs step_well_formed) initial_well_formed).
Qed.

Lemma loop_until_detector_well_formed : keeps well_formed loop_until_detector.
Proof.
  unfold loop_until_detector. apply keeps_bind; [repeat shapes_step | intros newOp].
  apply keeps_bind.
  - destruct newOp as [[opCode opSource]|]; [|apply keeps_ret].
    unfold dispatch. destruct (decode_opCode opCode) as [op|]; [|apply keeps_ret].
    destruct op; cbn [run_case]; repeat shapes_step.
  - intros _. repeat shapes_step.
Qed.

(** ** Enable cycles *)

Lemma loop_until_detector_split (s : State) :
  loop s = (draining <- loop_until_detector ;; when draining thresholdDetector) s.
Proof.
  unfold loop, loop_until_detector, drain. unfold bind.
  destruct (poll s) as [newOp s1| |]; [|reflexivity..].
  destruct (match newOp with
            | Some (opCode, opSource) => dispatch opCode opSource
            | None => ret tt
            end s1) as [[] s2| |]; [|reflexivity..].
  cbn [gets]. destruct (positionBufferFlag s2); [|reflexivity]. cbn [when].
  destruct (swapBuffers s2) as [[] s3| |]; [|reflexivity..].
  destruct (usbStream s3) as [[] s4| |]; [|reflexivity..].
  destruct (logPositions s4) as [[] s5| |]; [|reflexivity..].
  destruct (moduleStream s5) as [[] s6| |]; reflexivity.
Qed.

Lemma insert_off (l : list bool) (j k : nat) :
  l !! k = Some false -> <[j := false]> l !! k = Some false.
Proof.
  intros H. destruct (Nat.eq_dec j k) as [->|Hne].
  - apply list_lookup_insert_eq. apply lookup_lt_Some in H. exact H.
  - rewrite list_lookup_insert_ne by exact Hne. exact H.
Qed.

(** An assignment met outside the ';' and 'E' cases keeps a disabled
    threshold disabled: it is to another global, or it stores [false]. *)
Ltac stays_disabled :=
  first [ same_fields | intros; cbn; apply insert_off; assumption ].

Section Disabled.
Context (k : nat).
Let disabled (s : State) : Prop := thresholdActive s !! k = Some false.

Lemma run_case_disabled (op : OpCode) (opSource : Source) :
  op <> OpSemicolon -> op <> OpE -> keeps disabled (run_case op opSource).
Proof.
  intros H1 H2. destruct op; try contradiction;
    destruct opSource; cbn [run_case]; frame stays_disabled.
Qed.

Lemma loop_until_detector_disabled (s : State) :
  reenables Loop s = false -> disabled s -> disabled (final (loop_until_detector s)).
Proof.
  cbn [reenables]. unfold polled. intros Hq Hs.
  unfold loop_until_detector. unfold bind at 1.
  assert (keeps disabled poll) as Kpoll by (frame stays_disabled).
  specialize (Kpoll s Hs).
  destruct (poll s) as [newOp s1|s1|s1]; cbn [final] in *; [|exact Kpoll..].
  revert s1 Kpoll.
  match goal with |- forall s1, _ -> disabled (final (?m s1)) =>
    change (keeps disabled m)
  end.
  apply keeps_bind; [|intros _; frame stays_disabled].
  destruct newOp as [[opCode opSource]|]; [|apply keeps_ret].
  unfold dispatch. destruct (decode_opCode opCode) as [op|]; [|apply keeps_ret].
  apply run_case_disabled; intros ->; discriminate Hq.
Qed.

Lemma thresholdDetector_disabled : keeps disabled thresholdDetector.
Proof. frame stays_disabled. Qed.

Lemma step_disabled (i : Input) (s : State) :
  reenables i s = false -> disabled s -> disabled (final (step i s)).
Proof.
  destruct i as [a b|d|c bytes|]; cbn [step]; intros Hq.
  - clear Hq. revert s. change (keeps disabled (updatePosition a b)).
    frame stays_disabled.
  - clear Hq. revert s. change (keeps disabled (elapse d)). frame stays_disabled.
  - clear Hq. revert s. change (keeps disabled (receive c bytes)).
    frame stays_disabled.
  - intros Hs. rewrite loop_until_detector_split. unfold bind.
    pose proof (loop_until_detector_disabled s Hq Hs) as H1.
    destruct (loop_until_detector s) as [[|] s1|s1|s1]; cbn [final when] in *;
      [apply thresholdDetector_disabled | ..]; exact H1.
Qed.

Lemma run_disabled (inputs : list Input) :
  forall s, never_reenabled inputs s = true -> disabled s ->
            disabled (final (run inputs s)).
Proof.
  induction inputs as [|i rest IH]; intros s Hq Hs; [exact Hs|].
  cbn [never_reenabled] in Hq. apply andb_true_iff in Hq as [Hi Hrest].
  apply negb_true_iff in Hi. pose proof (step_disabled i s Hi Hs) as H1.
  cbn [run]. unfold bind. destruct (step i s) as [[] s1|s1|s1]; cbn [final] in *;
    [apply IH; assumption | exact H1..].
Qed.
End Disabled.

(** C4. For every threshold [i]: a run of the detector writes its byte
    [i + 1] at most once, leaves it disabled when it has written it, and
    does not write it when it finds it disabled; a threshold that is
    disabled is still disabled after any inputs among which no loop runs a
    ';' or 'E' command; and in such a loop that drains the buffer, the
    detector starts with it disabled and writes nothing for it. *)
Theorem threshold_fires_once (i : Z) :
  0 <= i < maxThresholds ->
  (forall s,
     well_formed s ->
     exists s' events,
       thresholdDetector s = Ok tt s' /\
       tx (StateMachineCOM s') = tx (StateMachineCOM s) ++ events /\
       (count_occ Z.eq_dec events (i + 1)%Z <= 1)%nat /\
       (In (i + 1) events -> thresholdActive s' !! Z.to_nat i = Some false) /\
       (thresholdActive s !! Z.to_nat i = Some false -> ~ In (i + 1) events)) /\
  (forall inputs s s',
     thresholdActive s !! Z.to_nat i = Some false ->
     never_reenabled inputs s = true ->
     run inputs s = Ok tt s' ->
     thresholdActive s' !! Z.to_nat i = Some false) /\
  (forall s s1,
     well_formed s ->
     thresholdActive s !! Z.to_nat i = Some false ->
     reenables Loop s = false ->
     loop_until_detector s = Ok true s1 ->
     exists s' events,
       loop s = Ok tt s' /\
       tx (StateMachineCOM s') = tx (StateMachineCOM s1) ++ events /\
       ~ In (i + 1) events /\
       thresholdActive s' !! Z.to_nat i = Some false).
Proof.
  unfold maxThresholds. intros Hi.
  assert (forall s, well_formed s ->
     exists s' events,
       thresholdDetector s = Ok tt s' /\
       tx (StateMachineCOM s') = tx (StateMachineCOM s) ++ events /\
       (count_occ Z.eq_dec events (i + 1)%Z <= 1)%nat /\
       (In (i + 1) events -> thresholdActive s' !! Z.to_nat i = Some false) /\
       (thresholdActive s !! Z.to_nat i = Some false -> ~ In (i + 1) events)) as Hrun.
  { intros s Hwf. pose proof Hwf as (_ & Hla & _ & _ & _ & _ & Hn & _).
    unfold maxThresholds in *.
    exists (final (thresholdDetector s)), (detector_events s).
    rewrite (thresholdDetector_Ok s Hwf). cbn [final]. unfold detector_events.
    destruct (sendEvents s && (nWraps s =? 0)).
    + split; [reflexivity|]. split; [reflexivity|]. split; [|split].
      * apply NoDup_count_occ.
        apply Finite.Injective_map_NoDup_in; [|apply fired_upto_NoDup].
        intros x y Hx Hy. apply fired_upto_In in Hx as [Hx _].
        apply fired_upto_In in Hy as [Hy _].
        unfold event_byte. rewrite !u8_id by lia. lia.
      * intros Hin. apply event_byte_In in Hin; [|lia..]. cbn.
        apply deactivate_In; [exact Hin | lia].
      * intros Hoff Hin. apply event_byte_In in Hin; [|lia..].
        apply fired_upto_In in Hin as [_ Hf]. unfold fires in Hf.
        rewrite Hoff in Hf. discriminate Hf.
    + split; [reflexivity|]. split; [rewrite app_nil_r; reflexivity|].
      split; [cbn; lia|]. split; [intros []|]. intros _ []. }
  split; [exact Hrun|]. split.
  - intros inputs s s' Hoff Hq Hrun'.
    pose proof (run_disabled (Z.to_nat i) inputs s Hq Hoff) as H.
    rewrite Hrun' in H. exact H.
  - intros s s1 Hwf Hoff Hq Hpre.
    pose proof (loop_until_detector_well_formed s Hwf) as Hwf1.
    pose proof (loop_until_detector_disabled (Z.to_nat i) s Hq Hoff) as Hoff1.
    rewrite Hpre in Hwf1, Hoff1. cbn [final] in Hwf1, Hoff1.
    destruct (Hrun s1 Hwf1) as (s' & events & E & Htx & _ & _ & Hnot).
    exists s', events. rewrite loop_until_detector_split. unfold bind. rewrite Hpre.
    cbn [when]. split; [exact E|]. split; [exact Htx|]. split; [exact (Hnot Hoff1)|].
    pose proof (thresholdDetector_disabled (Z.to_nat i) s1 Hoff1) as H.
    rewrite E in H. exact H.
Qed.

Lemma threshold_fires_once_witness :
  thresholdActive (final (run crossing_again both_fired)) !! 1%nat = Some false.
Proof.
  refine (proj1 (proj2 (threshold_fires_once 1 _)) crossing_again both_fired _ _ _ _).
  - unfold maxThresholds. lia.
  - reflexivity.
  - vm_compute. reflexivity.
  - vm_compute. reflexivity.
Defined.

(** The position crosses 300 again in [crossing_again]; the state machine
    has received the two events of the first crossing and nothing more. *)
Example no_event_on_second_crossing :
  EncoderPos (final (run crossing_again both_fired)) = 301 /\
  tx (StateMachineCOM both_fired) = [1; 2] /\
  tx (StateMachineCOM (final (run crossing_again both_fired))) = [1; 2].
Proof. repeat split. Qed.
(** ** The host stream *)

Lemma for_from_faulted (body : Z -> M unit) (k : nat) :
  forall (n : nat) (i : Z) (s s1 sf : State),
    (k < n)%nat ->
    for_from i k body s = Ok tt s1 ->
    body (i + Z.of_nat k) s1 = Fault sf ->
    for_from i n body s = Fault sf.
Proof.
  induction k as [|k IH]; intros n i s s1 sf Hk E1 Ef.
  - cbn in E1. injection E1 as <-. destruct n as [|n]; [lia|].
    cbn [for_from]. unfold bind. rewrite Z.add_0_r in Ef. rewrite Ef. reflexivity.
  - destruct n as [|n]; [lia|]. cbn [for_from] in *. unfold bind in *.
    destruct (body i s) as [[] s2| |]; [|discriminate..].
    apply (IH n (i + 1) s2 s1 sf); [lia | exact E1 |].
    replace (i + 1 + Z.of_nat k) with (i + Z.of_nat (S k)) by lia. exact Ef.
Qed.

Lemma samples_lookup (s : State) (j : Z) (prow trow : Z * Z) :
  0 <= j < nPositions s ->
  positionBuffer s !! Z.to_nat j = Some prow ->
  timeBuffer s !! Z.to_nat j = Some trow ->
  samples s !! Z.to_nat j =
  Some (if thisPositionBuffer s =? 0 then fst prow else snd prow,
        if thisPositionBuffer s =? 0 then fst trow else snd trow).
Proof.
  intros Hj Ep Et. unfold samples, column.
  rewrite lookup_take_lt by lia. rewrite lookup_zip_with.
  rewrite !list_lookup_fmap, Ep, Et. reflexivity.
Qed.

(** Seven stores in a row, from the end of the part written so far. *)
Lemma seven_stores (pre rest : list Z) (v0 v1 v2 v3 v4 v5 v6 : Z) :
  (7 <= length rest)%nat ->
  <[(length pre + 6)%nat := v6]> (<[(length pre + 5)%nat := v5]>
    (<[(length pre + 4)%nat := v4]> (<[(length pre + 3)%nat := v3]>
      (<[(length pre + 2)%nat := v2]> (<[(length pre + 1)%nat := v1]>
        (<[(length pre + 0)%nat := v0]> (pre ++ rest))))))) =
  (pre ++ [v0; v1; v2; v3; v4; v5; v6]) ++ drop 7 rest.
Proof.
  intros H. rewrite !insert_app_r.
  destruct rest as [|r0 [|r1 [|r2 [|r3 [|r4 [|r5 [|r6 rest]]]]]]]; cbn in H; try lia.
  cbn. rewrite <- app_assoc. reflexivity.
Qed.

(** *** The encoder, step by step *)

Lemma encoder_store (buf : list Z) (pos : Z) (s : State) (i v : Z) :
  0 <= i < Z.of_nat (length buf) ->
  assign usbStreamingBuffer set_usbStreamingBuffer i v (encoder_at buf pos s) =
  Ok tt (encoder_at (<[Z.to_nat i := v]> buf) pos s).
Proof. intros H. rewrite assign_Ok by exact H. reflexivity. Qed.

Lemma encoder_store_Fault (buf : list Z) (pos : Z) (s : State) (i v : Z) :
  Z.of_nat (length buf) <= i ->
  assign usbStreamingBuffer set_usbStreamingBuffer i v (encoder_at buf pos s) =
  Fault (encoder_at buf pos s).
Proof.
  intros H. unfold assign, bind, gets, store, in_bounds. cbn.
  destruct (Z.ltb_spec i (Z.of_nat (length buf))); [lia|].
  rewrite andb_false_r. reflexivity.
Qed.

Lemma encoder_advance (buf : list Z) (pos : Z) (s : State) (k : Z) :
  0 <= pos + k < 4294967296 ->
  usbStreamingBufferPos_add k (encoder_at buf pos s) = Ok tt (encoder_at buf (pos + k) s).
Proof.
  intros H. unfold usbStreamingBufferPos_add, modify. cbn. rewrite u32_id by exact H.
  reflexivity.
Qed.

Lemma encoder_pos (buf : list Z) (pos : Z) (s : State) :
  gets usbStreamingBufferPos (encoder_at buf pos s) = Ok pos (encoder_at buf pos s).
Proof. reflexivity. Qed.

Lemma encoder_this (buf : list Z) (pos : Z) (s : State) :
  gets thisPositionBuffer (encoder_at buf pos s) =
  Ok (thisPositionBuffer s) (encoder_at buf pos s).
Proof. reflexivity. Qed.

Lemma encoder_load2 (arr : State -> list (Z * Z)) (buf : list Z) (pos : Z) (s : State)
    (j : Z) (row : Z * Z) :
  arr (encoder_at buf pos s) = arr s ->
  0 <= j -> arr s !! Z.to_nat j = Some row ->
  thisPositionBuffer s = 0 \/ thisPositionBuffer s = 1 ->
  load2 arr j (thisPositionBuffer s) (encoder_at buf pos s) =
  Ok (if thisPositionBuffer s =? 0 then fst row else snd row) (encoder_at buf pos s).
Proof. intros E Hj Hrow Hk. apply load2_Ok; [exact Hj | rewrite E; exact Hrow | exact Hk]. Qed.

(** The first six stores of a record and the reads between them. *)
Ltac encode_step :=
  unfold bind at 1;
  first
    [ rewrite encoder_pos | rewrite encoder_this
    | rewrite encoder_advance by lia
    | rewrite encoder_store by (rewrite ?length_insert; lia)
    | erewrite encoder_load2 by (first [reflexivity | eassumption | lia]) ].


Lemma usbStream_sample_Ok (s : State) (recs : list Z) (j : Z) (prow trow : Z * Z) :
  well_formed s ->
  0 <= j -> Z.of_nat (length recs) = 7 * j -> 7 * j + 7 <= usbStreamingBufferSize ->
  positionBuffer s !! Z.to_nat j = Some prow ->
  timeBuffer s !! Z.to_nat j = Some trow ->
  usbStream_sample j (encoding recs s) =
  Ok tt (encoding
           (recs ++ position_record
                      (if thisPositionBuffer s =? 0 then fst prow else snd prow)
                      (if thisPositionBuffer s =? 0 then fst trow else snd trow)) s).
Proof.
  intros Hwf Hj Hlen Hfit Ep Et.
  destruct Hwf as (_ & _ & _ & _ & _ & Hbuf & _ & _ & Hthis & _).
  unfold usbStreamingBufferSize in *.
  unfold usbStream_sample, encoding.
  assert (Z.of_nat (length (recs ++ drop (length recs) (usbStreamingBuffer s))) = 1000)
    as Hfull by (rewrite length_app, length_drop; lia).
  do 15 encode_step.
  rewrite encoder_advance by lia. f_equal. f_equal.
  - replace (Z.to_nat (Z.of_nat (length recs))) with (length recs + 0)%nat by lia.
    replace (Z.to_nat (Z.of_nat (length recs) + 1)) with (length recs + 1)%nat by lia.
    replace (Z.to_nat (Z.of_nat (length recs) + 1 + 1)) with (length recs + 2)%nat by lia.
    replace (Z.to_nat (Z.of_nat (length recs) + 1 + 2)) with (length recs + 3)%nat by lia.
    replace (Z.to_nat (Z.of_nat (length recs) + 1 + 2 + 1))
      with (length recs + 4)%nat by lia.
    replace (Z.to_nat (Z.of_nat (length recs) + 1 + 2 + 2))
      with (length recs + 5)%nat by lia.
    replace (Z.to_nat (Z.of_nat (length recs) + 1 + 2 + 3))
      with (length recs + 6)%nat by lia.
    rewrite seven_stores by (rewrite length_drop; lia).
    rewrite drop_drop, length_app. reflexivity.
  - rewrite length_app. cbn [length position_record]. lia.
Qed.

Lemma usbStream_sample_Fault (s : State) (recs : list Z) (prow trow : Z * Z) :
  well_formed s ->
  Z.of_nat (length recs) = 994 ->
  positionBuffer s !! 142%nat = Some prow ->
  timeBuffer s !! 142%nat = Some trow ->
  exists sf, usbStream_sample 142 (encoding recs s) = Fault sf /\
             usbStreamingBufferPos sf = 997.
Proof.
  intros Hwf Hlen Ep Et.
  destruct Hwf as (_ & _ & _ & _ & _ & Hbuf & _ & _ & Hthis & _).
  unfold usbStreamingBufferSize in *.
  unfold usbStream_sample, encoding.
  assert (Z.of_nat (length (recs ++ drop (length recs) (usbStreamingBuffer s))) = 1000)
    as Hfull by (rewrite length_app, length_drop; lia).
  change 142%nat with (Z.to_nat 142) in Ep, Et.
  do 14 encode_step.
  unfold bind at 1. rewrite encoder_store_Fault by (rewrite !length_insert; lia).
  eexists. split; [reflexivity|]. cbn. lia.
Qed.

Lemma length_stream_bytes (ss : list (Z * Z)) :
  Z.of_nat (length (stream_bytes ss)) = 7 * Z.of_nat (length ss).
Proof.
  induction ss as [|x ss IH]; [reflexivity|].
  change (stream_bytes (x :: ss)) with (position_record (fst x) (snd x) ++ stream_bytes ss).
  rewrite length_app. cbn [length position_record]. lia.
Qed.

Lemma stream_bytes_snoc (ss : list (Z * Z)) (x : Z * Z) :
  stream_bytes (ss ++ [x]) = stream_bytes ss ++ position_record (fst x) (snd x).
Proof.
  unfold stream_bytes. rewrite flat_map_app. cbn [flat_map]. rewrite app_nil_r.
  reflexivity.
Qed.

(** The loop of the encoder over the first [k] samples of the batch. *)
Lemma encode_samples_Ok (s : State) (k : nat) :
  well_formed s ->
  Z.of_nat k <= nPositions s -> Z.of_nat k <= 142 ->
  for_from 0 k usbStream_sample (encoding [] s) =
  Ok tt (encoding (stream_bytes (take k (samples s))) s).
Proof.
  intros Hwf Hk Hfit.
  pose proof Hwf as (_ & _ & _ & Hp & Ht & _ & _ & _ & _ & Hn & _).
  unfold positionBufferSize in *.
  destruct (for_from_inv
    (fun j x => x = encoding (stream_bytes (take (Z.to_nat j) (samples s))) s)
    usbStream_sample k 0 (encoding [] s)) as (s' & E & ->).
  - reflexivity.
  - intros j x Hj ->.
    destruct (lookup_lt_is_Some_2 (positionBuffer s) (Z.to_nat j) ltac:(lia)) as [prow Ep].
    destruct (lookup_lt_is_Some_2 (timeBuffer s) (Z.to_nat j) ltac:(lia)) as [trow Et].
    pose proof (samples_lookup s j prow trow ltac:(lia) Ep Et) as Hs.
    erewrite usbStream_sample_Ok; try eassumption; try lia.
    + eexists. split; [reflexivity|].
      replace (Z.to_nat (j + 1)) with (S (Z.to_nat j)) by lia.
      rewrite (take_S_r _ _ _ Hs), stream_bytes_snoc. reflexivity.
    + rewrite length_stream_bytes, length_take.
      apply lookup_lt_Some in Hs. lia.
    + unfold usbStreamingBufferSize. lia.
  - rewrite E. rewrite Z.add_0_l, Nat2Z.id. reflexivity.
Qed.

Lemma length_samples (s : State) :
  well_formed s -> Z.of_nat (length (samples s)) = nPositions s.
Proof.
  intros (_ & _ & _ & Hp & Ht & _ & _ & _ & _ & Hn & _). unfold positionBufferSize in *.
  unfold samples, column. rewrite length_take, length_zip_with, !length_map. lia.
Qed.

Lemma usbStream_Ok (s : State) :
  well_formed s -> usbStreaming s = true -> nPositions s <= 142 ->
  exists s',
    usbStream s = Ok tt s' /\
    usbStreamingBuffer s' =
      stream_bytes (samples s) ++
      drop (Z.to_nat (7 * nPositions s)) (usbStreamingBuffer s) /\
    tx (myUSB s') = tx (myUSB s) ++ stream_bytes (samples s).
Proof.
  intros Hwf Hon Hfit.
  pose proof (length_samples s Hwf) as Hls.
  pose proof (length_stream_bytes (samples s)) as Hlb.
  pose proof Hwf as (_ & _ & _ & _ & _ & Hbuf & _ & _ & _ & Hn & _).
  unfold usbStreamingBufferSize in Hbuf.
  unfold usbStream. unfold bind at 1. cbn [gets]. rewrite Hon. cbn [when].
  unfold bind at 1. cbn [gets]. unfold bind at 1.
  destruct (Z.gtb_spec (nPositions s) 0) as [Hpos|Hzero]; cbn [when].
  - unfold bind at 1. unfold modify at 1.
    change (set_usbStreamingBufferPos 0 s) with (encoding [] s).
    unfold bind at 1. unfold for_.
    rewrite (encode_samples_Ok s (Z.to_nat (nPositions s)) Hwf) by lia.
    rewrite take_ge by lia.
    unfold bind at 1. cbn [gets]. unfold bind at 1. cbn [gets].
    unfold encoding at 1 2 3. cbn [usbStreamingBuffer usbStreamingBufferPos encoder_at
      set_usbStreamingBuffer set_usbStreamingBufferPos].
    unfold writeByteArray. rewrite length_app, length_drop.
    match goal with |- context [if ?c then _ else _] =>
      replace c with true by (symmetry; apply andb_true_iff; split; apply Z.leb_le; lia)
    end.
    rewrite Nat2Z.id, take_app_length.
    eexists. split; [reflexivity|]. cbn. split; [|reflexivity].
    f_equal. f_equal. lia.
  - assert (nPositions s = 0) as Hz by lia.
    assert (samples s = []) as -> by (apply length_zero_iff_nil; lia).
    exists s. split; [reflexivity|]. rewrite Hz, app_nil_r. split; reflexivity.
Qed.

Lemma usbStream_Fault (s : State) :
  well_formed s -> usbStreaming s = true -> 142 < nPositions s ->
  exists sf, usbStream s = Fault sf /\
             usbStreamingBufferPos sf + 3 = usbStreamingBufferSize.
Proof.
  intros Hwf Hon Hbig.
  pose proof (length_samples s Hwf) as Hls.
  pose proof Hwf as (_ & _ & _ & Hp & Ht & Hbuf & _ & _ & _ & Hn & _).
  unfold usbStreamingBufferSize, positionBufferSize in *.
  destruct (lookup_lt_is_Some_2 (positionBuffer s) 142%nat ltac:(lia)) as [prow Ep].
  destruct (lookup_lt_is_Some_2 (timeBuffer s) 142%nat ltac:(lia)) as [trow Et].
  destruct (usbStream_sample_Fault s (stream_bytes (take 142 (samples s))) prow trow Hwf)
    as (sf & Ef & Hsf); [|exact Ep | exact Et |].
  { rewrite length_stream_bytes, length_take. lia. }
  exists sf. split; [|lia].
  unfold usbStream. unfold bind at 1. cbn [gets]. rewrite Hon. cbn [when].
  unfold bind at 1. cbn [gets]. unfold bind at 1.
  destruct (Z.gtb_spec (nPositions s) 0); [|lia]. cbn [when].
  unfold bind at 1. unfold modify at 1.
  change (set_usbStreamingBufferPos 0 s) with (encoding [] s).
  unfold bind at 1. unfold for_.
  rewrite (for_from_faulted usbStream_sample 142 (Z.to_nat (nPositions s)) 0
             (encoding [] s) _ sf ltac:(lia)
             (encode_samples_Ok s 142 Hwf ltac:(lia) ltac:(lia)) Ef).
  reflexivity.
Qed.

(** C10. With streaming to the host active, the encoder writes the
    7-byte records of the samples of the batch one after the other from
    the start of [usbStreamingBuffer], and sends them.  With at most 142
    samples it returns; with more it stores out of bounds, at index 1000,
    the size of the buffer: it returns exactly when the batch has at most
    142 samples.  And a batch can be larger: 1024 steps made between two
    runs of the main loop are drained as one batch, on which it faults. *)
Theorem usbStream_in_bounds_iff (s : State) :
  well_formed s -> usbStreaming s = true ->
  (nPositions s <= 142 ->
   exists s',
     usbStream s = Ok tt s' /\
     Z.of_nat (length (stream_bytes (samples s))) = 7 * nPositions s /\
     usbStreamingBuffer s' =
       stream_bytes (samples s) ++
       drop (Z.to_nat (7 * nPositions s)) (usbStreamingBuffer s) /\
     tx (myUSB s') = tx (myUSB s) ++ stream_bytes (samples s)) /\
  (142 < nPositions s ->
   exists sf, usbStream s = Fault sf /\
              usbStreamingBufferPos sf + 3 = usbStreamingBufferSize) /\
  ((exists s', usbStream s = Ok tt s') <-> nPositions s <= 142) /\
  (exists sf, run (steps_while_streaming 1024) initial = Fault sf /\
              usbStreaming sf = true /\ nPositions sf = positionBufferSize /\
              usbStreamingBufferPos sf + 3 = usbStreamingBufferSize).
Proof.
  intros Hwf Hon. split; [|split; [|split]].
  - intros Hfit. destruct (usbStream_Ok s Hwf Hon Hfit) as (s' & E & Hb & Ht).
    exists s'. split; [exact E|]. split; [|split; assumption].
    rewrite length_stream_bytes, (length_samples s Hwf). reflexivity.
  - apply usbStream_Fault; assumption.
  - split.
    + intros (s' & E). destruct (Z.le_gt_cases (nPositions s) 142) as [H|H]; [exact H|].
      destruct (usbStream_Fault s Hwf Hon ltac:(lia)) as (sf & Ef & _). congruence.
    + intros Hfit. destruct (usbStream_Ok s Hwf Hon Hfit) as (s' & E & _).
      exists s'. exact E.
  - eexists. split; [vm_compute; reflexivity|]. repeat split.
Qed.

Lemma usbStream_in_bounds_iff_witness :
  exists s',
    usbStream streaming_batch = Ok tt s' /\
    Z.of_nat (length (stream_bytes (samples streaming_batch))) =
      7 * nPositions streaming_batch /\
    usbStreamingBuffer s' =
      stream_bytes (samples streaming_batch) ++
      drop (Z.to_nat (7 * nPositions streaming_batch))
        (usbStreamingBuffer streaming_batch) /\
    tx (myUSB s') = tx (myUSB streaming_batch) ++ stream_bytes (samples streaming_batch).
Proof.
  refine (proj1 (usbStream_in_bounds_iff streaming_batch _ _) _).
  - concrete_well_formed.
  - reflexivity.
  - vm_compute. discriminate.
Defined.

(** * Further properties of the sketch *)

(** ** Bytes of integers *)

Lemma byte_at_0 (v : Z) : byte_at 0 v = v mod 256.
Proof.
  unfold byte_at. rewrite Z.mul_0_r, Z.shiftr_0_r.
  change 255 with (Z.ones 8). rewrite Z.land_ones by lia. reflexivity.
Qed.

Lemma byte_at_1 (v : Z) : byte_at 1 v = (v / 256) mod 256.
Proof.
  unfold byte_at. rewrite Z.mul_1_r, Z.shiftr_div_pow2 by lia.
  change 255 with (Z.ones 8). rewrite Z.land_ones by lia. reflexivity.
Qed.

(** The value [readInt16] makes of two bytes, written as two bytes. *)
Lemma le16_int16_of (lo hi : Z) :
  0 <= lo < 256 -> 0 <= hi < 256 -> le16 (i16 (lo + 256 * hi)) = [lo; hi].
Proof.
  intros Hlo Hhi. unfold le16. rewrite byte_at_0, byte_at_1. unfold i16.
  change (2 ^ 15) with 32768. change (2 ^ 16) with 65536.
  f_equal; [|f_equal]; Z.div_mod_to_equations; lia.
Qed.

(** ** Commands: who may send them, and where they write *)

(** X1. A byte that is no opcode, a host-only command from another
    source, and a state-machine-only command from another source return
    with every global as it was: nothing is read of the payload, nothing
    is written, no error is signalled. *)
Theorem unauthorized_commands_ignored (b : Z) (opSource : Source) (s : State) :
  match decode_opCode b with
  | None => True
  | Some op =>
      host_only op = true /\ opSource <> FromUSB \/
      state_machine_only op = true /\ opSource <> FromStateMachine
  end ->
  dispatch b opSource s = Ok tt s.
Proof.
  unfold dispatch. destruct (decode_opCode b) as [op|]; [|reflexivity].
  intros [[Hop Hsrc] | [Hop Hsrc]];
    destruct op; try discriminate Hop;
    destruct opSource; try contradiction; reflexivity.
Qed.

Lemma unauthorized_commands_ignored_witness :
  dispatch 80 FromStateMachine wrapped_state = Ok tt wrapped_state.
Proof.
  apply (unauthorized_commands_ignored 80 FromStateMachine wrapped_state).
  cbn. left. split; [reflexivity | discriminate].
Defined.

Lemma keeps_readByte_sent (P : State -> Prop) (c : Source) :
  (forall s r, P s -> tx r = tx (chan c s) -> P (set_chan c r s)) -> keeps P (readByte c).
Proof.
  intros Hc s H. unfold readByte.
  destruct (rx (chan c s)); cbn; [exact H | apply Hc; [exact H | reflexivity]].
Qed.

Lemma keeps_readInt16_sent (P : State -> Prop) (c : Source) :
  (forall s r, P s -> tx r = tx (chan c s) -> P (set_chan c r s)) -> keeps P (readInt16 c).
Proof.
  intros Hc. unfold readInt16.
  apply keeps_bind; [apply keeps_readByte_sent, Hc | intros lo].
  apply keeps_bind; [apply keeps_readByte_sent, Hc | intros hi; apply keeps_ret].
Qed.
(** A read or an assignment that leaves what a channel has sent. *)
Ltac same_sent :=
  intros;
  repeat match goal with c : Source |- _ => destruct c end;
  cbn in *; first [assumption | congruence].

Ltac sent_step :=
  first [ apply keeps_readInt16_sent; same_sent
        | apply keeps_readByte_sent; same_sent
        | frame_step same_sent ].

Lemma run_case_output_stream (sent : list Z) (op : OpCode) (opSource : Source) :
  keeps (fun s => tx (OutputStreamCOM s) = sent) (run_case op opSource).
Proof.
  destruct op, opSource; cbn [run_case]; autounfold with sketch; repeat sent_step.
Qed.

Lemma run_case_state_machine (sent : list Z) (op : OpCode) (opSource : Source) :
  op <> Op255 ->
  keeps (fun s => tx (StateMachineCOM s) = sent) (run_case op opSource).
Proof.
  intros Hop.
  destruct op, opSource; try contradiction; cbn [run_case]; autounfold with sketch;
    repeat sent_step.
Qed.

(** With streaming to the host off, a command from another source than
    the host leaves what the host has been sent. *)
Ltac quiet_host :=
  intros;
  repeat match goal with c : Source |- _ => destruct c end;
  cbn in *; intuition congruence.

Ltac quiet_host_step :=
  lazymatch goal with
  | |- keeps _ (bind (gets usbStreaming) _) =>
      apply (keeps_bind_val _ (fun a => a = false));
      [ intros ? ? ? [_ ?] [= <- _]; assumption
      | apply keeps_gets
      | intros ? ->; cbn [when] ]
  | |- _ => first [ apply keeps_readInt16_sent; quiet_host
                  | apply keeps_readByte_sent; quiet_host
                  | frame_step quiet_host ]
  end.

Lemma run_case_host (sent : list Z) (op : OpCode) (opSource : Source) :
  opSource <> FromUSB ->
  keeps (fun s => tx (myUSB s) = sent /\ usbStreaming s = false) (run_case op opSource).
Proof.
  intros Hsrc.
  destruct op, opSource; try contradiction; cbn [run_case]; autounfold with sketch;
    repeat quiet_host_step.
Qed.

(** X2. Where a command writes: never to the output-stream channel; to
    the state machine only in reply to opcode 255; and, when it comes from
    another source than the host while streaming to the host is off,
    not to the host.  This holds however the command ends. *)
Theorem commands_write_where (b : Z) (opSource : Source) (s : State) :
  tx (OutputStreamCOM (final (dispatch b opSource s))) = tx (OutputStreamCOM s) /\
  (decode_opCode b <> Some Op255 ->
   tx (StateMachineCOM (final (dispatch b opSource s))) = tx (StateMachineCOM s)) /\
  (opSource <> FromUSB -> usbStreaming s = false ->
   tx (myUSB (final (dispatch b opSource s))) = tx (myUSB s)).
Proof.
  unfold dispatch. destruct (decode_opCode b) as [op|]; [|cbn; auto].
  split; [|split].
  - exact (run_case_output_stream _ op opSource s eq_refl).
  - intros Hop. apply (run_case_state_machine _ op opSource); [congruence | reflexivity].
  - intros Hsrc Hoff.
    exact (proj1 (run_case_host _ op opSource Hsrc s (conj eq_refl Hoff))).
Qed.

Lemma commands_write_where_witness :
  tx (myUSB (final (dispatch 90 FromStateMachine initial))) = tx (myUSB initial).
Proof.
  refine (proj2 (proj2 (commands_write_where 90 FromStateMachine initial)) _ _).
  - discriminate.
  - reflexivity.
Defined.

(** ** Position commands *)

(** X3. A position set by 'P' is read back by 'Q': after the two commands
    the host has received the acknowledgement 1 and then the two payload
    bytes it sent, and the position is the 16-bit value of those bytes. *)
Theorem set_then_query_position (s : State) (lo hi : Z) (rest : list Z) :
  0 <= lo < 256 -> 0 <= hi < 256 ->
  rx (myUSB s) = lo :: hi :: rest ->
  exists s1 s2,
    dispatch 80 FromUSB s = Ok tt s1 /\
    dispatch 81 FromUSB s1 = Ok tt s2 /\
    EncoderPos s2 = int16_of (lo, hi) /\
    tx (myUSB s2) = tx (myUSB s) ++ [1; lo; hi].
Proof.
  intros Hlo Hhi E.
  assert (dispatch 80 FromUSB s = case_P FromUSB s) as -> by reflexivity.
  unfold case_P. cbn [is_usb when]. unfold bind at 1.
  rewrite (readInt16_Ok_cons FromUSB _ _ _ _ E). rewrite !u8_id by assumption.
  eexists. eexists. split; [reflexivity|].
  assert (forall x, dispatch 81 FromUSB x = case_Q FromUSB x) as -> by reflexivity.
  unfold case_Q. cbn [is_usb when]. unfold bind, gets, writeInt16, writeBytes, modify.
  split; [reflexivity|]. cbn. split.
  - unfold int16_of. cbn. rewrite !u8_id by assumption. reflexivity.
  - rewrite (le16_int16_of lo hi Hlo Hhi), <- app_assoc. reflexivity.
Qed.

Lemma set_then_query_position_witness :
  exists s1 s2,
    dispatch 80 FromUSB wrapped_state = Ok tt s1 /\
    dispatch 81 FromUSB s1 = Ok tt s2 /\
    EncoderPos s2 = int16_of (255, 1) /\
    tx (myUSB s2) = tx (myUSB wrapped_state) ++ [1; 255; 1].
Proof.
  apply (set_then_query_position wrapped_state 255 1 []); [lia | lia | reflexivity].
Defined.

(** X4. The reset command 'X' discards a log that has not been read: the
    counter is zeroed while the availability flag stays raised, so the 'R'
    that follows replies with the count 0 and no payload, and clears the
    flag; the file itself is not touched. *)
Theorem reset_discards_log (opSource : Source) (s : State) :
  loggedDataAvailable s = true ->
  exists s1 s2,
    dispatch 88 opSource s = Ok tt s1 /\
    dispatch 82 FromUSB s1 = Ok tt s2 /\
    tx (myUSB s2) = tx (myUSB s) ++ [0; 0; 0; 0] /\
    loggedDataAvailable s2 = false /\ dataPos s2 = 0 /\
    content (DataFile s2) = content (DataFile s).
Proof.
  intros Hav.
  assert (dispatch 88 opSource s = case_X opSource s) as -> by reflexivity.
  unfold case_X, resetDataStreams, bind, modify.
  eexists. eexists. split; [reflexivity|].
  assert (forall x, dispatch 82 FromUSB x = case_R FromUSB x) as -> by reflexivity.
  unfold case_R. cbn [is_usb when].
  unfold bind at 1. unfold modify at 1. unfold bind at 1.
  cbn [gets loggedDataAvailable set_isLogging set_usbStreaming set_dataPos set_EncoderPos
       set_nWraps set_iPositionBuffer].
  rewrite Hav.
  unfold bind at 1. unfold modify at 1. unfold bind at 1.
  rewrite file_seek_0. unfold bind at 1.
  cbn [gets dataPos set_DataFile set_loggedDataAvailable set_isLogging set_usbStreaming
       set_dataPos set_EncoderPos set_nWraps set_iPositionBuffer].
  split; [reflexivity|]. cbn. repeat split.
Qed.

Lemma reset_discards_log_witness :
  exists s1 s2,
    dispatch 88 FromUSB after_session = Ok tt s1 /\
    dispatch 82 FromUSB s1 = Ok tt s2 /\
    tx (myUSB s2) = tx (myUSB after_session) ++ [0; 0; 0; 0] /\
    loggedDataAvailable s2 = false /\ dataPos s2 = 0 /\
    content (DataFile s2) = content (DataFile after_session).
Proof. apply (reset_discards_log FromUSB after_session). reflexivity. Defined.

(** X5. The 'W' command from the host with a wrap point [wp >= 0] leaves
    the position within [-wp, wp]: it is the position found, or [wp] when
    that was outside; the derived settings follow the new wrap point, and
    a wrap point 0 switches wrapping off and so sets the position to 0. *)
Theorem set_wrap_point_clamps (s : State) (lo hi : Z) (rest : list Z) :
  rx (myUSB s) = lo :: hi :: rest ->
  0 <= int16_of (lo, hi) ->
  exists s',
    dispatch 87 FromUSB s = Ok tt s' /\
    wrapPoint s' = int16_of (lo, hi) /\
    wrapPointInverse s' = - wrapPoint s' /\
    wrappingEnabled s' = negb (wrapPoint s' =? 0) /\
    - wrapPoint s' <= EncoderPos s' <= wrapPoint s' /\
    (EncoderPos s' = EncoderPos s \/ EncoderPos s' = wrapPoint s') /\
    tx (myUSB s') = tx (myUSB s) ++ [1].
Proof.
  intros E Hwp. pose proof (i16_range (u8 lo + 256 * u8 hi)) as Hr.
  unfold int16_of in *. cbn [fst snd] in *.
  set (wp := i16 (u8 lo + 256 * u8 hi)) in *.
  assert (dispatch 87 FromUSB s = case_W FromUSB s) as -> by reflexivity.
  unfold case_W. cbn [is_usb when]. unfold bind at 1.
  rewrite (readInt16_Ok_cons FromUSB _ _ _ _ E). fold wp.
  unfold bind, modify, writeByte, writeBytes, gets, when. cbn.
  assert (i16 (wp * -1) = - wp) as ->
    by (replace (wp * -1) with (- wp) by lia; apply i16_id; lia).
  destruct (Z.gtb_spec (EncoderPos s) wp); cbn [orb];
    [|destruct (Z.ltb_spec (EncoderPos s) (- wp))];
    eexists; (split; [reflexivity|]); cbn; repeat split; auto; lia.
Qed.

Lemma set_wrap_point_clamps_witness :
  exists s',
    dispatch 87 FromUSB wrapped_state = Ok tt s' /\
    wrapPoint s' = int16_of (255, 1) /\
    wrapPointInverse s' = - wrapPoint s' /\
    wrappingEnabled s' = negb (wrapPoint s' =? 0) /\
    - wrapPoint s' <= EncoderPos s' <= wrapPoint s' /\
    (EncoderPos s' = EncoderPos wrapped_state \/ EncoderPos s' = wrapPoint s') /\
    tx (myUSB s') = tx (myUSB wrapped_state) ++ [1].
Proof.
  apply (set_wrap_point_clamps wrapped_state 255 1 []); [reflexivity|].
  vm_compute. discriminate.
Defined.
(** ** Enabling thresholds *)

Lemma set_thresholdActive_id (s : State) : set_thresholdActive (thresholdActive s) s = s.
Proof. destruct s. reflexivity. Qed.

(** The loop of ';' and of 'E' rewrites the flags below [nThresholds] and
    nothing else. *)
Lemma enable_loop (f : Z -> bool) (s : State) :
  well_formed s ->
  exists flags,
    for_ (nThresholds s)
         (fun i => assign thresholdActive set_thresholdActive i (f i)) s
    = Ok tt (set_thresholdActive flags s) /\
    forall i, 0 <= i ->
      flags !! Z.to_nat i =
      if i <? nThresholds s then Some (f i) else thresholdActive s !! Z.to_nat i.
Proof.
  intros Hwf.
  destruct Hwf as (_ & Hact & _ & _ & _ & _ & Hn & _).
  unfold maxThresholds in *.
  destruct (for_inv
    (fun j x => exists flags, x = set_thresholdActive flags s /\
       Z.of_nat (length flags) = 8 /\
       forall i, 0 <= i ->
         flags !! Z.to_nat i =
         if i <? j then Some (f i) else thresholdActive s !! Z.to_nat i)
    (fun i => assign thresholdActive set_thresholdActive i (f i)) (nThresholds s) s)
    as (s' & E & flags & -> & _ & H); [lia | | | eauto].
  - exists (thresholdActive s). rewrite set_thresholdActive_id.
    split; [reflexivity|]. split; [exact Hact|].
    intros i Hi. destruct (Z.ltb_spec i 0); [lia | reflexivity].
  - intros j x Hj (flags & -> & Hlen & H).
    rewrite assign_Ok by (cbn; lia). eexists. split; [reflexivity|].
    exists (<[Z.to_nat j := f j]> flags). cbn. split; [reflexivity|].
    split; [rewrite length_insert; exact Hlen|].
    intros i Hi. destruct (Z.eq_dec i j) as [->|Hne].
    + rewrite list_lookup_insert_eq by lia.
      destruct (Z.ltb_spec j (j + 1)); [reflexivity | lia].
    + rewrite list_lookup_insert_ne by lia. rewrite (H i Hi).
      destruct (Z.ltb_spec i j), (Z.ltb_spec i (j + 1)); try reflexivity; lia.
Qed.

(** X6. The enable mask ';' from any source takes one payload byte and
    sets the flag of each programmed threshold to the bit of its index;
    the flags from [nThresholds] on are left as they were, the wrap count
    is zeroed, and nothing is written to any channel, the host included. *)
Theorem enable_mask_sets_programmed_flags
        (opSource : Source) (s : State) (b : Z) (rest : list Z) :
  well_formed s ->
  rx (chan opSource s) = b :: rest ->
  exists s',
    dispatch 59 opSource s = Ok tt s' /\
    (forall i, 0 <= i < nThresholds s ->
       thresholdActive s' !! Z.to_nat i = Some (Z.testbit (u8 b) i)) /\
    (forall i, nThresholds s <= i ->
       thresholdActive s' !! Z.to_nat i = thresholdActive s !! Z.to_nat i) /\
    nWraps s' = 0 /\
    rx (chan opSource s') = rest /\
    (forall c, tx (chan c s') = tx (chan c s)).
Proof.
  intros Hwf E.
  assert (dispatch 59 opSource s = case_semicolon opSource s) as -> by reflexivity.
  unfold case_semicolon, readByteFromSource. unfold bind at 1.
  rewrite (readByte_Ok _ _ _ _ E).
  set (s1 := set_chan opSource _ s).
  assert (well_formed s1) as Hwf1 by (destruct opSource; exact Hwf).
  assert (nThresholds s1 = nThresholds s) as Hn by (destruct opSource; reflexivity).
  assert (thresholdActive s1 = thresholdActive s) as Ha by (destruct opSource; reflexivity).
  destruct (enable_loop (Z.testbit (u8 b)) s1 Hwf1) as (flags & El & H).
  unfold bind at 1. cbn [gets]. unfold bind at 1. rewrite El.
  eexists. split; [reflexivity|]. cbn. rewrite Hn, Ha in H.
  destruct Hwf as (_ & _ & _ & _ & _ & _ & Hr & _).
  repeat split.
  - intros i Hi. rewrite H by lia. destruct (Z.ltb_spec i (nThresholds s)); [reflexivity | lia].
  - intros i Hi. rewrite H by lia. destruct (Z.ltb_spec i (nThresholds s)); [lia | reflexivity].
  - subst s1. destruct opSource; reflexivity.
  - intros c. subst s1. destruct opSource, c; reflexivity.
Qed.

Lemma enable_mask_sets_programmed_flags_witness :
  exists s',
    dispatch 59 FromStateMachine
             (set_StateMachineCOM {| rx := [2]; tx := [] |} two_thresholds) = Ok tt s' /\
    (forall i, 0 <= i < 2 ->
       thresholdActive s' !! Z.to_nat i = Some (Z.testbit (u8 2) i)) /\
    (forall i, 2 <= i ->
       thresholdActive s' !! Z.to_nat i = thresholdActive two_thresholds !! Z.to_nat i) /\
    nWraps s' = 0 /\
    rx (StateMachineCOM s') = [] /\
    (forall c, tx (chan c s') =
               tx (chan c (set_StateMachineCOM {| rx := [2]; tx := [] |} two_thresholds))).
Proof.
  apply (enable_mask_sets_programmed_flags FromStateMachine
           (set_StateMachineCOM {| rx := [2]; tx := [] |} two_thresholds) 2 []).
  - concrete_well_formed.
  - reflexivity.
Defined.

(** X7. 'E' from any source enables exactly the programmed thresholds: the
    flags below [nThresholds] become true, the others are left as they
    were, the wrap count is zeroed, and the channels are not touched. *)
Theorem enable_all_sets_programmed_flags (opSource : Source) (s : State) :
  well_formed s ->
  exists s',
    dispatch 69 opSource s = Ok tt s' /\
    (forall i, 0 <= i < nThresholds s ->
       thresholdActive s' !! Z.to_nat i = Some true) /\
    (forall i, nThresholds s <= i ->
       thresholdActive s' !! Z.to_nat i = thresholdActive s !! Z.to_nat i) /\
    nWraps s' = 0 /\
    (forall c, chan c s' = chan c s).
Proof.
  intros Hwf.
  assert (dispatch 69 opSource s = case_E opSource s) as -> by reflexivity.
  unfold case_E.
  destruct (enable_loop (fun _ => true) s Hwf) as (flags & El & H).
  unfold bind at 1. cbn [gets]. unfold bind at 1. rewrite El.
  eexists. split; [reflexivity|]. cbn.
  destruct Hwf as (_ & _ & _ & _ & _ & _ & Hr & _).
  repeat split.
  - intros i Hi. rewrite H by lia. destruct (Z.ltb_spec i (nThresholds s)); [reflexivity | lia].
  - intros i Hi. rewrite H by lia. destruct (Z.ltb_spec i (nThresholds s)); [lia | reflexivity].
  - intros c. destruct c; reflexivity.
Qed.

Lemma enable_all_sets_programmed_flags_witness :
  exists s',
    dispatch 69 FromOutputStream two_thresholds = Ok tt s' /\
    (forall i, 0 <= i < nThresholds two_thresholds ->
       thresholdActive s' !! Z.to_nat i = Some true) /\
    (forall i, nThresholds two_thresholds <= i ->
       thresholdActive s' !! Z.to_nat i = thresholdActive two_thresholds !! Z.to_nat i) /\
    nWraps s' = 0 /\
    (forall c, chan c s' = chan c two_thresholds).
Proof.
  apply (enable_all_sets_programmed_flags FromOutputStream two_thresholds).
  concrete_well_formed.
Defined.
(** ** Invariants of every run *)

(** X8. Whatever edges, bytes and loop iterations follow [setup], and
    however the run ends, the counters stay within their arrays: at most
    8 thresholds, at most 1024 samples in either half of the double buffer
    and in the batch being drained, buffer selectors 0 or 1; the arrays
    keep their sizes. *)
Theorem invariants_of_every_run (inputs : list Input) :
  well_formed (final (run inputs initial)).
Proof.
  exact (keeps_run _ inputs step_well_formed initial initial_well_formed).
Qed.

(** ** Steps without wrapping *)

Lemma wrapPosition_off (s : State) :
  wrappingEnabled s = false \/ (wrapMode s <> 0 /\ wrapMode s <> 1) ->
  wrapPosition s = Ok tt s.
Proof.
  intros H. unfold wrapPosition, bind, gets.
  destruct H as [H0 | [H1 H2]].
  - rewrite H0. reflexivity.
  - destruct (wrappingEnabled s); [|reflexivity]. cbn [when].
    destruct (Z.eqb_spec (wrapMode s) 0); [contradiction|].
    destruct (Z.eqb_spec (wrapMode s) 1); [contradiction|]. reflexivity.
Qed.

Lemma commitSample_nWraps (v : Z) : keeps (fun s => nWraps s = v) commitSample.
Proof. frame same_fields. Qed.

(** X9. A confirmed step taken while [wrappingEnabled] is false, or with
    a wrap mode other than 0 and 1, is never wrapped: in every state
    whatsoever it moves the position by one, with the overflow of its 16
    bits, and leaves the wrap count as it was, however the handler ends.
    What counts is the flag and not the wrap point: inside a 'W' command
    the wrap point can be 0 already while the flag is still raised. *)
Theorem step_without_wrapping (s : State) (a b : bool) :
  wrappingEnabled s = false \/ (wrapMode s <> 0 /\ wrapMode s <> 1) ->
  confirmed a b s = true ->
  EncoderPos (final (updatePosition a b s)) =
    i16 (if edge_direction a b s =? 0 then EncoderPos s + 1 else EncoderPos s - 1) /\
  nWraps (final (updatePosition a b s)) = nWraps s.
Proof.
  intros Hoff Hc.
  set (s1 := moved (edge_direction a b s) s).
  assert (EncoderPos (final (updatePosition a b s)) = EncoderPos (final (commitSample s1)) /\
          nWraps (final (updatePosition a b s)) = nWraps (final (commitSample s1)))
    as [-> ->].
  { rewrite updatePosition_confirmed by exact Hc. fold s1.
    unfold processPosition, bind.
    rewrite (wrapPosition_off s1) by (subst s1; assumption).
    destruct (commitSample s1); split; reflexivity. }
  split.
  - exact (commitSample_EncoderPos (EncoderPos s1) s1 eq_refl).
  - exact (commitSample_nWraps (nWraps s1) s1 eq_refl).
Qed.

Lemma step_without_wrapping_witness :
  EncoderPos (final (updatePosition true true (final (run free_running initial)))) = 1 /\
  nWraps (final (updatePosition true true (final (run free_running initial)))) = 0.
Proof.
  apply (step_without_wrapping (final (run free_running initial)) true true).
  - right. vm_compute. split; discriminate.
  - vm_compute. reflexivity.
Defined.
(** ** The double buffer *)

Lemma assign2_Ok {A} (arr : State -> list (A * A)) set_arr (i k : Z) (v : A)
      (row : A * A) (s : State) :
  0 <= i -> arr s !! Z.to_nat i = Some row -> k = 0 \/ k = 1 ->
  assign2 arr set_arr i k v s =
  Ok tt (set_arr (<[Z.to_nat i := if k =? 0 then (v, snd row) else (fst row, v)]> (arr s)) s).
Proof.
  intros Hi E Hk. unfold assign2. unfold bind at 1. rewrite (load_Ok arr i row s Hi E).
  pose proof (lookup_lt_Some _ _ _ E) as Hlt.
  destruct Hk as [-> | ->]; cbn [set_col Z.eqb ret]; unfold bind at 1; cbn [ret];
    apply assign_Ok; lia.
Qed.

Lemma assign2_Fault {A} (arr : State -> list (A * A)) set_arr (i k : Z) (v : A) (s : State) :
  Z.of_nat (length (arr s)) <= i -> assign2 arr set_arr i k v s = Fault s.
Proof.
  intros Hi. unfold assign2, load, index, bind, gets.
  destruct (Z.leb_spec 0 i); [|lia].
  rewrite (lookup_ge_None_2 (arr s) (Z.to_nat i)) by lia. reflexivity.
Qed.

Lemma column_insert (k : Z) (rows : list (Z * Z)) (i : nat) (row : Z * Z) :
  column k (<[i := row]> rows) = <[i := if k =? 0 then fst row else snd row]> (column k rows).
Proof.
  unfold column.
  exact (list_fmap_insert (fun r : Z * Z => if k =? 0 then fst r else snd r) rows i row).
Qed.

Lemma length_column (k : Z) (rows : list (Z * Z)) : length (column k rows) = length rows.
Proof. apply length_map. Qed.

(** A store into column [c] at row [i] leaves the other column as it is. *)
Lemma column_other (k c : Z) (rows : list (Z * Z)) (i : nat) (v : Z) (row : Z * Z) :
  (k = 0 \/ k = 1) -> (c = 0 \/ c = 1) -> k <> c ->
  rows !! i = Some row ->
  column k (<[i := if c =? 0 then (v, snd row) else (fst row, v)]> rows) = column k rows.
Proof.
  intros Hk Hc Hne E. rewrite column_insert. apply list_insert_id.
  unfold column. rewrite list_lookup_fmap, E.
  destruct Hk as [-> | ->], Hc as [-> | ->]; try contradiction; reflexivity.
Qed.

Lemma column_same (c : Z) (rows : list (Z * Z)) (i : nat) (v : Z) (row : Z * Z) :
  column c (<[i := if c =? 0 then (v, snd row) else (fst row, v)]> rows)
  = <[i := v]> (column c rows).
Proof. rewrite column_insert. destruct (c =? 0); reflexivity. Qed.

(** The store of [processPosition]: with room in the half written to, the
    sample goes to the next free row of its column, the count of that half
    goes up by one and the flag is raised; nothing else changes. *)
Lemma commitSample_Ok (s : State) :
  well_formed s -> pending_count s < 1024 ->
  exists pb tb counts,
    commitSample s =
    Ok tt (set_positionBufferFlag true (set_iPositionBuffer counts
            (set_timeBuffer tb (set_positionBuffer pb s)))) /\
    length pb = length (positionBuffer s) /\
    length tb = length (timeBuffer s) /\
    (if currentPositionBuffer s =? 0 then fst counts else snd counts)
      = pending_count s + 1 /\
    (if currentPositionBuffer s =? 0 then snd counts else fst counts)
      = (if currentPositionBuffer s =? 0 then snd (iPositionBuffer s)
         else fst (iPositionBuffer s)) /\
    (forall k,
       column k pb =
       if k =? currentPositionBuffer s
       then <[Z.to_nat (pending_count s) := EncoderPos s]> (column k (positionBuffer s))
       else if (k =? 0) || (k =? 1) then column k (positionBuffer s) else column k pb) /\
    (forall k,
       column k tb =
       if k =? currentPositionBuffer s
       then <[Z.to_nat (pending_count s) := i32 (currentTime s)]> (column k (timeBuffer s))
       else if (k =? 0) || (k =? 1) then column k (timeBuffer s) else column k tb).
Proof.
  intros Hwf Hroom.
  destruct Hwf as (_ & _ & _ & Hp & Ht & _ & _ & Hcur & _ & _ & Hc0 & Hc1).
  unfold positionBufferSize in *.
  set (n := pending_count s) in *.
  assert (0 <= n) as Hn0 by (subst n; unfold pending_count; destruct (_ =? 0); lia).
  destruct (lookup_lt_is_Some_2 (positionBuffer s) (Z.to_nat n)) as [prow Ep]; [lia|].
  destruct (lookup_lt_is_Some_2 (timeBuffer s) (Z.to_nat n)) as [trow Et]; [lia|].
  unfold commitSample. unfold bind at 1. cbn [gets]. unfold bind at 1. cbn [gets].
  unfold bind at 1. rewrite (col_Ok _ _ _ Hcur). fold (pending_count s). fold n.
  unfold bind at 1. cbn [gets].
  unfold bind at 1. rewrite (assign2_Ok positionBuffer _ n _ _ prow s Hn0 Ep Hcur).
  unfold bind at 1. cbn [gets currentTime set_positionBuffer].
  unfold bind at 1.
  match goal with |- context [assign2 timeBuffer _ _ _ _ ?x] =>
    rewrite (assign2_Ok timeBuffer _ n _ _ trow x Hn0 Et Hcur)
  end.
  rewrite (u32_id (n + 1)) by lia.
  unfold bind at 1.
  assert (forall x, set_col (currentPositionBuffer s) (n + 1) (iPositionBuffer s) x =
                    Ok (if currentPositionBuffer s =? 0
                        then (n + 1, snd (iPositionBuffer s))
                        else (fst (iPositionBuffer s), n + 1)) x) as ->
    by (intros x; destruct Hcur as [-> | ->]; reflexivity).
  unfold bind, modify.
  eexists. eexists. eexists. split; [reflexivity|].
  rewrite !length_insert. cbn [timeBuffer set_positionBuffer positionBuffer].
  split; [reflexivity|]. split; [reflexivity|].
  split; [destruct Hcur as [-> | ->]; reflexivity|].
  split; [destruct Hcur as [-> | ->]; reflexivity|].
  split; intros k.
  - destruct (Z.eqb_spec k (currentPositionBuffer s)) as [-> | Hne].
    + apply column_same.
    + destruct (Z.eqb_spec k 0) as [-> | Hk0]; cbn [orb].
      * apply column_other; auto.
      * destruct (Z.eqb_spec k 1) as [-> | Hk1]; [|reflexivity].
        apply column_other; auto.
  - destruct (Z.eqb_spec k (currentPositionBuffer s)) as [-> | Hne].
    + apply column_same.
    + destruct (Z.eqb_spec k 0) as [-> | Hk0]; cbn [orb].
      * apply column_other; auto.
      * destruct (Z.eqb_spec k 1) as [-> | Hk1]; [|reflexivity].
        apply column_other; auto.
Qed.
Lemma set_EncoderPos_nWraps_id (s : State) :
  set_nWraps (nWraps s) (set_EncoderPos (EncoderPos s) s) = s.
Proof. destruct s. reflexivity. Qed.

(** Wrap processing returns, and changes the position and the wrap count
    only. *)
Lemma wrapPosition_Ok (s : State) :
  exists p w, wrapPosition s = Ok tt (set_nWraps w (set_EncoderPos p s)).
Proof.
  unfold wrapPosition, bind, gets, wrapped_up, wrapped_down, modify.
  destruct (wrappingEnabled s); cbn [when];
    [|exists (EncoderPos s), (nWraps s); rewrite set_EncoderPos_nWraps_id; reflexivity].
  repeat match goal with
         | |- context [if ?c then _ else _] => destruct c
         end;
    try (eexists; eexists; reflexivity);
    exists (EncoderPos s), (nWraps s); rewrite set_EncoderPos_nWraps_id; reflexivity.
Qed.

Lemma updatePosition_sample (a b : bool) (s : State) :
  confirmed a b s = true ->
  exists p w,
    updatePosition a b s =
    (commitSample ;;
     modify (set_currentDir (edge_direction a b s)) ;;
     modify (set_LastEncoderPinAValue a)) (set_nWraps w (set_EncoderPos p s)).
Proof.
  intros Hc. rewrite (updatePosition_confirmed a b s Hc).
  destruct (wrapPosition_Ok (moved (edge_direction a b s) s)) as (p & w & E).
  exists p, w. unfold processPosition, bind. rewrite E. reflexivity.
Qed.

Lemma take_zip_insert (n : nat) (ps ts : list Z) (p t : Z) :
  (n < length ps)%nat -> (n < length ts)%nat ->
  take (S n) (zip (<[n := p]> ps) (<[n := t]> ts)) = take n (zip ps ts) ++ [(p, t)].
Proof.
  intros Hp Ht. rewrite <- (insert_zip_with pair ps ts n p t).
  rewrite (take_S_r _ n (p, t)).
  - rewrite take_insert_ge by lia. reflexivity.
  - apply list_lookup_insert_eq. rewrite length_zip_with. lia.
Qed.

(** X10. A confirmed step, taken while the half of the double buffer
    written to has room, returns and appends exactly one sample to the
    pending ones: the position after wrap processing and the time at the
    interrupt as a signed 32-bit value; it raises the flag that makes the
    main loop drain the buffer. *)
Theorem confirmed_step_appends_sample (a b : bool) (s : State) :
  well_formed s ->
  confirmed a b s = true ->
  pending_count s < 1024 ->
  exists s',
    updatePosition a b s = Ok tt s' /\
    pending s' = pending s ++ [(EncoderPos s', i32 (currentTime s))] /\
    positionBufferFlag s' = true.
Proof.
  intros Hwf Hc Hroom.
  destruct (updatePosition_sample a b s Hc) as (p & w & ->).
  set (s1 := set_nWraps w (set_EncoderPos p s)).
  assert (well_formed s1) as Hwf1 by exact Hwf.
  destruct (commitSample_Ok s1 Hwf1 Hroom) as (pb & tb & counts & E & _ & _ & Hn & _ & Hpb & Htb).
  unfold bind at 1. rewrite E. unfold bind, modify.
  eexists. split; [reflexivity|].
  split; [|reflexivity].
  unfold pending, pending_count in *.
  cbn [currentPositionBuffer iPositionBuffer positionBuffer timeBuffer EncoderPos currentTime
       set_LastEncoderPinAValue set_currentDir set_positionBufferFlag set_iPositionBuffer
       set_timeBuffer set_positionBuffer set_nWraps set_EncoderPos s1] in *.
  rewrite Hn, Hpb, Htb, Z.eqb_refl.
  destruct Hwf as (_ & _ & _ & Hp & Ht & _ & _ & Hcur & _ & _ & Hc0 & Hc1).
  unfold positionBufferSize in *.
  set (n := if currentPositionBuffer s =? 0 then _ else _) in *.
  assert (0 <= n) by (subst n; destruct (_ =? 0); lia).
  replace (Z.to_nat (n + 1)) with (S (Z.to_nat n)) by lia.
  apply take_zip_insert; rewrite length_column; lia.
Qed.

Lemma confirmed_step_appends_sample_witness :
  exists s',
    updatePosition true true initial = Ok tt s' /\
    pending s' = pending initial ++ [(EncoderPos s', i32 (currentTime initial))] /\
    positionBufferFlag s' = true.
Proof.
  apply (confirmed_step_appends_sample true true initial).
  - concrete_well_formed.
  - reflexivity.
  - reflexivity.
Defined.

(** With 1024 samples in the half written to, the store of
    [processPosition] is to row 1024, outside the array. *)
Lemma commitSample_Fault (s : State) :
  well_formed s -> pending_count s = 1024 -> commitSample s = Fault s.
Proof.
  intros Hwf Hfull.
  destruct Hwf as (_ & _ & _ & Hp & Ht & _ & _ & Hcur & _).
  unfold positionBufferSize in *.
  unfold commitSample.
  unfold bind at 1. cbn [gets]. unfold bind at 1. cbn [gets].
  unfold bind at 1. rewrite (col_Ok _ _ _ Hcur).
  unfold pending_count in Hfull. rewrite Hfull.
  unfold bind at 1. cbn [gets]. unfold bind at 1.
  rewrite assign2_Fault by lia. reflexivity.
Qed.

(** X11. A confirmed step that finds 1024 samples pending, the main loop
    not having run since, writes past the end of [positionBuffer]: the
    handler does not check the count. *)
Theorem confirmed_step_overruns_full_buffer (a b : bool) (s : State) :
  well_formed s ->
  confirmed a b s = true ->
  pending_count s = 1024 ->
  exists s', updatePosition a b s = Fault s' /\ pending s' = pending s.
Proof.
  intros Hwf Hc Hfull.
  destruct (updatePosition_sample a b s Hc) as (p & w & ->).
  exists (set_nWraps w (set_EncoderPos p s)). split; [|reflexivity].
  unfold bind at 1. rewrite commitSample_Fault; [reflexivity | exact Hwf | exact Hfull].
Qed.

Lemma confirmed_step_overruns_full_buffer_witness :
  exists s', updatePosition true true full_half = Fault s' /\ pending s' = pending full_half.
Proof.
  apply (confirmed_step_overruns_full_buffer true true full_half).
  - concrete_well_formed.
  - reflexivity.
  - reflexivity.
Defined.

(** The hand-over: the half written to becomes the batch, and the other
    half, emptied, is written to from then on. *)
Lemma swapBuffers_Ok (s : State) :
  well_formed s ->
  exists counts,
    swapBuffers s =
    Ok tt (set_iPositionBuffer counts
            (set_currentPositionBuffer (1 - currentPositionBuffer s)
              (set_thisPositionBuffer (currentPositionBuffer s)
                (set_nPositions (pending_count s)
                  (set_positionBufferFlag false s))))) /\
    (if currentPositionBuffer s =? 0 then snd counts else fst counts) = 0.
Proof.
  intros (_ & _ & _ & _ & _ & _ & _ & Hcur & _).
  unfold swapBuffers, bind, modify, gets, pending_count.
  destruct Hcur as [E | E]; rewrite E; cbn; rewrite E;
    eexists; (split; [reflexivity|]); reflexivity.
Qed.

(** X12. The hand-over at the start of a drain returns; the batch the
    main loop then works on is exactly the samples that were pending, in
    order; no sample is pending afterwards, the flag is cleared, and the
    interrupt handler writes to the other half from then on. *)
Theorem hand_over_of_pending_samples (s : State) :
  well_formed s ->
  exists s',
    swapBuffers s = Ok tt s' /\
    samples s' = pending s /\
    pending s' = [] /\
    positionBufferFlag s' = false /\
    thisPositionBuffer s' = currentPositionBuffer s /\
    currentPositionBuffer s' = 1 - currentPositionBuffer s.
Proof.
  intros Hwf. destruct (swapBuffers_Ok s Hwf) as (counts & E & H0).
  eexists. split; [exact E|].
  destruct Hwf as (_ & _ & _ & _ & _ & _ & _ & Hcur & _).
  split; [reflexivity|]. split; [|repeat split].
  unfold pending, pending_count. cbn [currentPositionBuffer iPositionBuffer
    set_iPositionBuffer set_currentPositionBuffer].
  destruct Hcur as [Ec | Ec]; rewrite Ec in *; cbn in H0 |- *; rewrite H0; reflexivity.
Qed.

Lemma hand_over_of_pending_samples_witness :
  exists s',
    swapBuffers full_half = Ok tt s' /\
    samples s' = pending full_half /\
    pending s' = [] /\
    positionBufferFlag s' = false /\
    thisPositionBuffer s' = currentPositionBuffer full_half /\
    currentPositionBuffer s' = 1 - currentPositionBuffer full_half.
Proof. apply (hand_over_of_pending_samples full_half). concrete_well_formed. Defined.

(** *** The interrupt handler and the batch being drained *)

Lemma swapBuffers_apart :
  keeps (fun s => (currentPositionBuffer s = 0 \/ currentPositionBuffer s = 1) /\
                  halves_apart s) swapBuffers.
Proof.
  intros s [Hcur _]. unfold swapBuffers, bind, modify, gets, halves_apart.
  destruct Hcur as [E | E]; cbn; rewrite E; cbn.
  - split; [right; reflexivity | right; discriminate].
  - split; [left; reflexivity | right; discriminate].
Qed.

Ltac apart_step :=
  lazymatch goal with
  | |- keeps _ swapBuffers => apply swapBuffers_apart
  | |- _ => frame_step same_fields
  end.

Lemma step_apart (i : Input) :
  keeps (fun s => (currentPositionBuffer s = 0 \/ currentPositionBuffer s = 1) /\
                  halves_apart s) (step i).
Proof.
  destruct i as [a b|d|c bytes|]; cbn [step].
  - repeat apart_step.
  - repeat apart_step.
  - repeat apart_step.
  - unfold loop. apply keeps_bind; [repeat apart_step | intros newOp].
    apply keeps_bind.
    + destruct newOp as [[opCode opSource]|]; [|apply keeps_ret].
      unfold dispatch. destruct (decode_opCode opCode) as [op|]; [|apply keeps_ret].
      destruct op; cbn [run_case]; repeat apart_step.
    + intros _. repeat apart_step.
Qed.

Lemma commitSample_samples (s : State) :
  well_formed s -> halves_apart s -> samples (final (commitSample s)) = samples s.
Proof.
  intros Hwf Hapart.
  pose proof Hwf as (_ & _ & _ & _ & _ & _ & _ & Hcur & Hthis & _ & Hc0 & Hc1).
  unfold positionBufferSize in *.
  assert (pending_count s < 1024 \/ pending_count s = 1024) as [Hroom | Hfull]
    by (unfold pending_count; destruct (_ =? 0); lia).
  - destruct (commitSample_Ok s Hwf Hroom) as (pb & tb & counts & -> & _ & _ & _ & _ & Hpb & Htb).
    unfold samples.
    cbn [final nPositions thisPositionBuffer positionBuffer timeBuffer
         set_positionBufferFlag set_iPositionBuffer set_timeBuffer set_positionBuffer].
    destruct Hapart as [-> | Hne]; [reflexivity|].
    rewrite Hpb, Htb.
    destruct (Z.eqb_spec (thisPositionBuffer s) (currentPositionBuffer s)); [contradiction|].
    destruct Hthis as [-> | ->]; reflexivity.
  - rewrite (commitSample_Fault s Hwf Hfull). reflexivity.
Qed.

(** X13. The interrupt handler never alters the batch the main loop has
    drained: in every state the module reaches, the samples of the batch
    are the same after an edge, whether the step is confirmed or not and
    however the handler ends; it writes to the other half of the double
    buffer. *)
Theorem edge_keeps_drained_batch (inputs : list Input) (s : State) (a b : bool) :
  run inputs initial = Ok tt s ->
  samples (final (updatePosition a b s)) = samples s.
Proof.
  intros Hreach.
  assert (well_formed s) as Hwf
    by exact (keeps_Ok _ _ _ _ _ (keeps_run _ inputs step_well_formed)
                initial_well_formed Hreach).
  assert (halves_apart s) as Hapart.
  { refine (proj2 (keeps_Ok _ _ _ _ _ (keeps_run _ inputs step_apart) _ Hreach)).
    split; left; reflexivity. }
  destruct (confirmed a b s) eqn:Hc.
  - destruct (updatePosition_sample a b s Hc) as (p & w & ->).
    set (s1 := set_nWraps w (set_EncoderPos p s)).
    pose proof (commitSample_samples s1 Hwf Hapart) as H.
    unfold bind at 1. destruct (commitSample s1); exact H.
  - rewrite (updatePosition_unconfirmed a b s Hc). reflexivity.
Qed.

Lemma edge_keeps_drained_batch_witness :
  samples (final (updatePosition true true
                    (final (run (steps_while_streaming 2) initial))))
  = samples (final (run (steps_while_streaming 2) initial)).
Proof.
  apply (edge_keeps_drained_batch (steps_while_streaming 2)). vm_compute. reflexivity.
Defined.
(** ** The module stream *)

Lemma le16_u32 (v : Z) : le16 (u32 v) = [v mod 256; (v / 256) mod 256].
Proof.
  unfold le16, u32. rewrite byte_at_0, byte_at_1.
  change (2 ^ 32) with 4294967296.
  f_equal; [|f_equal]; Z.div_mod_to_equations; lia.
Qed.

Lemma module_written_nil (s : State) : module_written [] s = s.
Proof.
  unfold module_written. rewrite app_nil_r.
  destruct s; repeat match goal with u : ArCOM |- _ => destruct u end; reflexivity.
Qed.

(** The loop of the module stream. *)
Lemma module_stream_records_eq (s : State) :
  well_formed s ->
  moduleStreaming s = true ->
  moduleStream s =
  Ok tt (module_written
           (flat_map (fun p => [u8 (moduleStreamPrefix s);
                                module_value s p mod 256;
                                (module_value s p / 256) mod 256]) (batch s)) s).
Proof.
  intros Hwf Hon. unfold moduleStream. unfold bind at 1. cbn [gets]. rewrite Hon.
  cbn [when]. unfold bind at 1. cbn [gets].
  pose proof Hwf as (_ & _ & _ & Hp & _ & _ & _ & _ & Hthis & Hn & _).
  unfold positionBufferSize in *.
  set (rec := fun p => [u8 (moduleStreamPrefix s); module_value s p mod 256;
                        (module_value s p / 256) mod 256]).
  destruct (for_inv
    (fun j x => x = module_written (flat_map rec (take (Z.to_nat j) (batch s))) s)
    (fun i =>
       prefix <- gets moduleStreamPrefix ;;
       writeByte FromOutputStream prefix ;;
       mode <- gets wrapMode ;;
       this <- gets thisPositionBuffer ;;
       p <- load2 positionBuffer i this ;;
       wp <- gets wrapPoint ;;
       let typeBuffer := if mode =? 0 then u32 (p + wp) else u32 p in
       if outputStreamDatatype =? 72 then writeUint16 FromOutputStream typeBuffer
       else if outputStreamDatatype =? 76 then writeUint32 FromOutputStream typeBuffer
       else ret tt)
    (nPositions s) s) as (s' & E & ->); [lia | | |].
  - change (Z.to_nat 0) with 0%nat. rewrite take_0. symmetry. apply module_written_nil.
  - intros j x Hj ->.
    destruct (lookup_lt_is_Some_2 (positionBuffer s) (Z.to_nat j)) as [row Erow]; [lia|].
    pose proof (batch_lookup s j row Hj Erow) as Eb.
    unfold bind at 1. cbn [gets]. unfold bind at 1.
    unfold writeByte at 1, writeBytes at 1, modify at 1.
    unfold bind at 1. cbn [gets]. unfold bind at 1. cbn [gets].
    unfold bind at 1.
    match goal with |- context [load2 positionBuffer j ?k ?x] =>
      rewrite (load2_Ok positionBuffer j k row x ltac:(lia) Erow Hthis)
    end.
    unfold bind at 1. cbn [gets]. cbv zeta.
    change (outputStreamDatatype =? 72) with true. cbv iota.
    unfold writeUint16, writeBytes, modify.
    eexists. split; [reflexivity|].
    replace (Z.to_nat (j + 1)) with (S (Z.to_nat j)) by lia.
    rewrite (take_S_r _ _ _ Eb), flat_map_app. cbn [flat_map]. rewrite app_nil_r.
    unfold module_written. cbn. rewrite <- !app_assoc. cbn [app].
    subst rec. cbn beta. unfold module_value.
    destruct (wrapMode s =? 0); rewrite le16_u32; reflexivity.
  - etransitivity; [exact E|]. f_equal. f_equal. f_equal. apply firstn_all2.
    rewrite length_batch by exact Hwf. lia.
Qed.

(** X14. With the module stream on, the drain writes to the output-stream
    channel, for each position of the batch in order, the prefix byte and
    the two low bytes, low byte first, of the value: the position, plus
    the wrap point in bipolar mode.  It always returns, whatever the size
    of the batch, and changes nothing else. *)
Theorem module_stream_records (s : State) :
  well_formed s ->
  moduleStreaming s = true ->
  moduleStream s =
  Ok tt (module_written
           (flat_map (fun p => [u8 (moduleStreamPrefix s);
                                module_value s p mod 256;
                                (module_value s p / 256) mod 256]) (batch s)) s).
Proof.
  exact (module_stream_records_eq s).
Qed.

Lemma module_stream_records_witness :
  moduleStream module_batch =
  Ok tt (module_written [77; 50; 2; 77; 106; 1; 77; 94; 3] module_batch).
Proof.
  apply (module_stream_records module_batch).
  - concrete_well_formed.
  - reflexivity.
Defined.
(** ** Writing the log *)

Lemma overwrite_nil (at_ : nat) (old : list Z) : overwrite at_ [] old = old.
Proof. unfold overwrite. cbn. rewrite Nat.add_0_r. apply take_drop. Qed.

(** Two writes in a row are one write of the two pieces. *)
Lemma overwrite_app (at_ : nat) (b1 b2 old : list Z) :
  (at_ <= length old)%nat ->
  overwrite (at_ + length b1) b2 (overwrite at_ b1 old) = overwrite at_ (b1 ++ b2) old.
Proof.
  intros H. unfold overwrite.
  assert (length (take at_ old) = at_) as Hl by (rewrite length_take; lia).
  rewrite (app_assoc (take at_ old) b1).
  rewrite take_app_length' by (rewrite length_app; lia).
  rewrite (drop_app_add' (take at_ old ++ b1)) by (rewrite length_app; lia).
  rewrite drop_drop, length_app, <- !app_assoc, Nat.add_assoc. reflexivity.
Qed.

Lemma length_le32 (v : Z) : length (le32 v) = 4%nat.
Proof. reflexivity. Qed.

Lemma length_log_records (ss : list (Z * Z)) :
  length (log_records ss) = (8 * length ss)%nat.
Proof.
  induction ss as [|x ss IH]; [reflexivity|].
  unfold log_records in *. cbn [flat_map length].
  rewrite !length_app, !length_le32, IH. lia.
Qed.

Lemma log_records_snoc (ss : list (Z * Z)) (p t : Z) :
  log_records (ss ++ [(p, t)]) = log_records ss ++ le32 p ++ le32 t.
Proof.
  unfold log_records. rewrite flat_map_app. cbn [flat_map fst snd].
  rewrite app_nil_r. reflexivity.
Qed.

Lemma u32_succ (d j : Z) : u32 (u32 (d + j) + 1) = u32 (d + (j + 1)).
Proof.
  unfold u32. rewrite Z.add_mod_idemp_l by lia. f_equal. lia.
Qed.

Lemma set_dataPos_DataFile_id (s : State) :
  set_dataPos (dataPos s)
    (set_DataFile {| content := content (DataFile s); cursor := cursor (DataFile s) |} s) = s.
Proof.
  destruct s. cbn.
  repeat match goal with f : File |- _ => destruct f end. reflexivity.
Qed.

(** The loop of [logCurrentPosition]. *)
Lemma log_of_drained_batch_eq (s : State) :
  well_formed s ->
  0 <= cursor (DataFile s) <= Z.of_nat (length (content (DataFile s))) ->
  0 <= dataPos s < 4294967296 ->
  logCurrentPosition s = Ok tt (logged s).
Proof.
  intros Hwf Hcur Hd.
  pose proof Hwf as (_ & _ & _ & Hp & Ht & _ & _ & _ & Hthis & Hn & _).
  unfold positionBufferSize in *.
  set (c := cursor (DataFile s)) in *. set (C := content (DataFile s)) in *.
  pose proof (length_samples s Hwf) as Hlen.
  destruct (for_inv
    (fun j x => x =
       set_dataPos (u32 (dataPos s + j))
         (set_DataFile
            {| content := overwrite (Z.to_nat c)
                            (log_records (take (Z.to_nat j) (samples s))) C;
               cursor := c + 8 * j |} s))
    (fun i =>
       this <- gets thisPositionBuffer ;;
       p <- load2 positionBuffer i this ;;
       t <- load2 timeBuffer i this ;;
       file_write (le32 p ++ le32 t) ;;
       modify (fun s => set_dataPos (u32 (dataPos s + 1)) s))
    (nPositions s) s) as (s' & E & ->); [lia | | |].
  - change (Z.to_nat 0) with 0%nat. rewrite take_0. cbn [log_records flat_map].
    rewrite overwrite_nil, !Z.add_0_r. unfold u32. rewrite Z.mod_small by lia.
    symmetry. apply set_dataPos_DataFile_id.
  - intros j x Hj ->.
    destruct (lookup_lt_is_Some_2 (positionBuffer s) (Z.to_nat j)) as [prow Ep]; [lia|].
    destruct (lookup_lt_is_Some_2 (timeBuffer s) (Z.to_nat j)) as [trow Et]; [lia|].
    pose proof (samples_lookup s j prow trow Hj Ep Et) as Es.
    unfold bind at 1. cbn [gets]. unfold bind at 1.
    match goal with |- context [load2 positionBuffer j ?k ?x] =>
      rewrite (load2_Ok positionBuffer j k prow x ltac:(lia) Ep Hthis)
    end.
    unfold bind at 1.
    match goal with |- context [load2 timeBuffer j ?k ?x] =>
      rewrite (load2_Ok timeBuffer j k trow x ltac:(lia) Et Hthis)
    end.
    unfold bind, file_write, modify. eexists. split; [reflexivity|].
    cbn [DataFile dataPos set_dataPos set_DataFile content cursor thisPositionBuffer].
    match goal with |- set_dataPos ?d (set_DataFile ?F _) = _ =>
      change (set_dataPos d (set_DataFile F s) = 
              set_dataPos (u32 (dataPos s + (j + 1)))
                (set_DataFile
                   {| content := overwrite (Z.to_nat c)
                                   (log_records (take (Z.to_nat (j + 1)) (samples s))) C;
                      cursor := c + 8 * (j + 1) |} s))
    end.
    rewrite u32_succ. f_equal. f_equal.
    replace (Z.to_nat (j + 1)) with (S (Z.to_nat j)) by lia.
    rewrite (take_S_r _ _ _ Es), log_records_snoc.
    set (R := log_records (take (Z.to_nat j) (samples s))).
    assert (length R = Z.to_nat (8 * j)) as HR.
    { subst R. rewrite length_log_records, length_take. lia. }
    set (bs := le32 _ ++ le32 _).
    assert (length bs = 8%nat) as Hbs by reflexivity.
    f_equal.
    + rewrite <- (overwrite_app (Z.to_nat c) R bs C) by lia.
      replace (Z.to_nat (c + 8 * j)) with (Z.to_nat c + length R)%nat by lia.
      reflexivity.
    + rewrite Hbs. lia.
  - unfold logCurrentPosition. unfold bind at 1. cbn [gets].
    destruct (Z.gtb_spec (nPositions s) 0) as [Hpos | Hzero]; cbn [when].
    + etransitivity; [exact E|]. unfold logged. fold c. fold C.
      rewrite firstn_all2 by lia. reflexivity.
    + assert (nPositions s = 0) as H0 by lia. unfold logged. fold c. fold C.
      assert (samples s = []) as -> by (apply nil_length_inv; lia).
      rewrite H0. cbn [log_records flat_map].
      rewrite overwrite_nil, !Z.add_0_r. unfold u32. rewrite Z.mod_small by lia.
      subst c C. rewrite set_dataPos_DataFile_id. reflexivity.
Qed.

(** X15. [logCurrentPosition] returns and writes the batch drained last to
    the file, from the read/write position on: one record of eight bytes
    for each sample in order, position and time as four bytes each, over
    what the file held there; the position moves past the records, and the
    counter goes up by the number of samples, modulo 2^32.  Nothing else
    changes. *)
Theorem log_of_drained_batch (s : State) :
  well_formed s ->
  0 <= cursor (DataFile s) <= Z.of_nat (length (content (DataFile s))) ->
  0 <= dataPos s < 4294967296 ->
  logCurrentPosition s = Ok tt (logged s).
Proof.
  exact (log_of_drained_batch_eq s).
Qed.

Lemma log_of_drained_batch_witness :
  logCurrentPosition after_session = Ok tt (logged after_session).
Proof.
  apply (log_of_drained_batch after_session).
  - concrete_well_formed.
  - vm_compute. split; discriminate.
  - vm_compute. split; [discriminate | reflexivity].
Defined.
(** X16. The 'F' command, from any source and whether or not logging is
    on, writes the batch drained last to the file once more and counts
    it, before it switches logging off; the log is marked available
    when the counter is then above zero. *)
Theorem stop_logging_writes_batch (opSource : Source) (s : State) :
  well_formed s ->
  0 <= cursor (DataFile s) <= Z.of_nat (length (content (DataFile s))) ->
  0 <= dataPos s < 4294967296 ->
  exists s',
    dispatch 70 opSource s = Ok tt s' /\
    DataFile s' = DataFile (logged s) /\
    dataPos s' = u32 (dataPos s + nPositions s) /\
    isLogging s' = false /\
    loggedDataAvailable s' = (0 <? dataPos s') || loggedDataAvailable s.
Proof.
  intros Hwf Hcur Hd.
  assert (dispatch 70 opSource s = case_F opSource s) as -> by reflexivity.
  unfold case_F. unfold bind at 1. rewrite (log_of_drained_batch_eq s Hwf Hcur Hd).
  unfold bind, modify, gets.
  cbn [dataPos logged set_dataPos set_DataFile set_isLogging].
  destruct (Z.gtb_spec (u32 (dataPos s + nPositions s)) 0) as [Hpos | Hzero]; cbn [when];
    eexists; (split; [reflexivity|]); cbn; repeat split.
  - destruct (Z.ltb_spec 0 (u32 (dataPos s + nPositions s))); [reflexivity | lia].
  - destruct (Z.ltb_spec 0 (u32 (dataPos s + nPositions s))); [lia | reflexivity].
Qed.

Lemma stop_logging_writes_batch_witness :
  exists s',
    dispatch 70 FromStateMachine after_session = Ok tt s' /\
    DataFile s' = DataFile (logged after_session) /\
    dataPos s' = u32 (dataPos after_session + nPositions after_session) /\
    isLogging s' = false /\
    loggedDataAvailable s' = (0 <? dataPos s') || loggedDataAvailable after_session.
Proof.
  apply (stop_logging_writes_batch FromStateMachine after_session).
  - concrete_well_formed.
  - vm_compute. split; discriminate.
  - vm_compute. split; [discriminate | reflexivity].
Defined.

(** X17. The limit [dataMax] is tested once for a batch, not for each
    sample: a batch that starts below the limit is logged whole, and when
    it takes the counter past 2^32 - 1 the counter wraps around and ends
    below the number of samples just written. *)
Theorem log_counter_wraps_past_limit (s : State) :
  well_formed s ->
  0 <= cursor (DataFile s) <= Z.of_nat (length (content (DataFile s))) ->
  isLogging s = true ->
  0 <= dataPos s < dataMax ->
  4294967296 <= dataPos s + nPositions s ->
  logPositions s = Ok tt (logged s) /\
  dataPos (logged s) = dataPos s + nPositions s - 4294967296 /\
  dataPos (logged s) < nPositions s.
Proof.
  unfold dataMax. intros Hwf Hcur Hon Hd Hover.
  pose proof Hwf as (_ & _ & _ & _ & _ & _ & _ & _ & _ & Hn & _).
  unfold positionBufferSize in Hn.
  assert (dataPos (logged s) = dataPos s + nPositions s - 4294967296) as Hwrap.
  { unfold logged. cbn [dataPos set_dataPos]. unfold u32.
    change (2 ^ 32) with 4294967296. Z.div_mod_to_equations. lia. }
  split; [|split; [exact Hwrap | lia]].
  unfold logPositions. unfold bind at 1. cbn [gets]. rewrite Hon. cbn [when].
  unfold bind at 1. cbn [gets]. unfold dataMax.
  destruct (Z.ltb_spec (dataPos s) 4294967295); [|lia]. cbn [when].
  apply log_of_drained_batch_eq; [exact Hwf | exact Hcur | lia].
Qed.

Lemma log_counter_wraps_past_limit_witness :
  logPositions counter_near_max = Ok tt (logged counter_near_max) /\
  dataPos (logged counter_near_max) = 4294967294 + 3 - 4294967296 /\
  dataPos (logged counter_near_max) < 3.
Proof.
  apply (log_counter_wraps_past_limit counter_near_max).
  - concrete_well_formed.
  - vm_compute. split; discriminate.
  - reflexivity.
  - vm_compute. split; [discriminate | reflexivity].
  - vm_compute. discriminate.
Defined.

(** ** The order of events *)

Lemma ascending_snoc (l : list Z) (v : Z) :
  ascending l -> (forall x, In x l -> x < v) -> ascending (l ++ [v]).
Proof.
  intros Hl Hv a b x y Hab Ea Eb.
  destruct (Nat.lt_ge_cases b (length l)) as [Hb | Hb].
  - rewrite lookup_app_l in Ea by lia. rewrite lookup_app_l in Eb by lia.
    exact (Hl a b x y Hab Ea Eb).
  - rewrite lookup_app_r in Eb by lia.
    destruct (b - length l)%nat as [|k] eqn:Ek; [|destruct k; discriminate Eb].
    injection Eb as <-.
    rewrite lookup_app_l in Ea by lia.
    apply Hv. apply list_elem_of_In. eapply list_elem_of_lookup_2. exact Ea.
Qed.

Lemma ascending_nil : ascending [].
Proof. intros a b x y _ E. discriminate E. Qed.

Lemma fired_upto_ascending (s : State) (n : nat) :
  (n <= 8)%nat -> ascending (map event_byte (fired_upto s n)).
Proof.
  induction n as [|n IH]; intros Hn; cbn [fired_upto]; [apply ascending_nil|].
  destruct (fires s (Z.of_nat n)); [|rewrite app_nil_r; apply IH; lia].
  rewrite map_app. apply ascending_snoc; [apply IH; lia|].
  intros x Hx. apply in_map_iff in Hx as (i & <- & Hi).
  apply fired_upto_In in Hi as [Hi _].
  unfold event_byte. rewrite !u8_id by lia. lia.
Qed.

(** X18. The events of one run of the detector go to the state machine
    in the order of the threshold indices, whatever the order in which
    the positions of the batch crossed the thresholds; the run changes
    nothing but the channel to the state machine and the enabled flags,
    and the flag of a threshold without an event is left as it was. *)
Theorem detector_events_in_index_order (s : State) :
  well_formed s ->
  exists s' events,
    thresholdDetector s = Ok tt s' /\
    tx (StateMachineCOM s') = tx (StateMachineCOM s) ++ events /\
    ascending events /\
    (forall i, 0 <= i -> ~ In (i + 1) events ->
       thresholdActive s' !! Z.to_nat i = thresholdActive s !! Z.to_nat i) /\
    s' = set_StateMachineCOM (StateMachineCOM s')
           (set_thresholdActive (thresholdActive s') s).
Proof.
  intros Hwf. pose proof Hwf as (_ & _ & _ & _ & _ & _ & Hn & _).
  unfold maxThresholds in Hn.
  exists (final (thresholdDetector s)), (detector_events s).
  rewrite (thresholdDetector_Ok s Hwf). cbn [final]. unfold detector_events.
  destruct (sendEvents s && (nWraps s =? 0)).
  - split; [reflexivity|]. split; [reflexivity|].
    split; [apply fired_upto_ascending; lia|].
    split; [|reflexivity].
    intros i Hi Hno. cbn [announce thresholdActive set_StateMachineCOM set_thresholdActive].
    apply deactivate_other. intros j Hj Heq. apply Hno.
    pose proof Hj as Hj'. apply fired_upto_In in Hj' as [Hr _].
    assert (j = i) as -> by lia.
    apply event_byte_In; [lia | lia | exact Hj].
  - split; [reflexivity|]. split; [rewrite app_nil_r; reflexivity|].
    split; [apply ascending_nil|]. split; [reflexivity|].
    destruct s. reflexivity.
Qed.

Lemma detector_events_in_index_order_witness :
  exists s' events,
    thresholdDetector crossed_in_reverse = Ok tt s' /\
    tx (StateMachineCOM s') = tx (StateMachineCOM crossed_in_reverse) ++ events /\
    ascending events /\
    (forall i, 0 <= i -> ~ In (i + 1) events ->
       thresholdActive s' !! Z.to_nat i = thresholdActive crossed_in_reverse !! Z.to_nat i) /\
    s' = set_StateMachineCOM (StateMachineCOM s')
           (set_thresholdActive (thresholdActive s') crossed_in_reverse).
Proof.
  apply (detector_events_in_index_order crossed_in_reverse). concrete_well_formed.
Defined.
(** ** Records sent on commands *)

Lemma send_record_sent (tag b1 b2 time : Z) (s : State) :
  7 <= Z.of_nat (length (usbStreamingBuffer s)) ->
  send_record tag b1 b2 time s =
  Ok tt (host_written
           [tag; b1; b2; byte_at 0 time; byte_at 1 time; byte_at 2 time; byte_at 3 time]
           (set_usbStreamingBuffer
              ([tag; b1; b2; byte_at 0 time; byte_at 1 time; byte_at 2 time; byte_at 3 time]
               ++ drop 7 (usbStreamingBuffer s)) s)).
Proof.
  intros H. unfold send_record.
  repeat (unfold bind at 1; rewrite assign_Ok by (cbn; rewrite ?length_insert; lia)).
  unfold bind, gets, writeByteArray. cbn. rewrite !length_insert.
  destruct (Z.leb_spec 7 (Z.of_nat (length (usbStreamingBuffer s)))); [|lia].
  cbn [andb]. unfold writeBytes, modify, host_written. cbn.
  pose proof (seven_stores [] (usbStreamingBuffer s) tag b1 b2
                (byte_at 0 time) (byte_at 1 time) (byte_at 2 time) (byte_at 3 time)
                ltac:(lia)) as E.
  cbn in E.
  change (Z.to_nat 0) with 0%nat. change (Z.to_nat 1) with 1%nat.
  change (Z.to_nat 2) with 2%nat. change (Z.to_nat 3) with 3%nat.
  change (Z.to_nat 4) with 4%nat. change (Z.to_nat 5) with 5%nat.
  change (Z.to_nat 6) with 6%nat. change (Z.to_nat 7) with 7%nat.
  match goal with
  | |- Ok tt (set_myUSB ?u (set_usbStreamingBuffer ?b _)) = ?rhs =>
    change (Ok tt (set_myUSB u (set_usbStreamingBuffer b s)) = rhs)
  end.
  rewrite E. reflexivity.
Qed.

(** X19. 'Z' from any source while the host stream is on zeroes the
    position and the wrap count and sends the host one record in the
    format of the position stream, with the position 0 and the current
    time; no sample is put into the double buffer. *)
Theorem zero_position_is_streamed (opSource : Source) (s : State) :
  well_formed s ->
  usbStreaming s = true ->
  exists s',
    dispatch 90 opSource s = Ok tt s' /\
    tx (myUSB s') = tx (myUSB s) ++ position_record 0 (currentTime s) /\
    EncoderPos s' = 0 /\ nWraps s' = 0 /\
    pending s' = pending s /\ positionBufferFlag s' = positionBufferFlag s.
Proof.
  intros Hwf Hon.
  pose proof Hwf as (_ & _ & _ & _ & _ & Hbuf & _). unfold usbStreamingBufferSize in Hbuf.
  assert (dispatch 90 opSource s = case_Z opSource s) as -> by reflexivity.
  unfold case_Z. unfold bind at 1. unfold modify at 1. unfold bind at 1. unfold modify at 1.
  unfold bind at 1. cbn [gets usbStreaming set_nWraps set_EncoderPos]. rewrite Hon.
  cbn [when]. unfold bind at 1. cbn [gets]. unfold bind at 1. unfold modify at 1.
  rewrite send_record_sent by (cbn; lia).
  eexists. split; [reflexivity|]. cbn. repeat split.
Qed.

Lemma zero_position_is_streamed_witness :
  exists s',
    dispatch 90 FromStateMachine streaming_batch = Ok tt s' /\
    tx (myUSB s') = tx (myUSB streaming_batch) ++ position_record 0 (currentTime streaming_batch) /\
    EncoderPos s' = 0 /\ nWraps s' = 0 /\
    pending s' = pending streaming_batch /\
    positionBufferFlag s' = positionBufferFlag streaming_batch.
Proof.
  apply (zero_position_is_streamed FromStateMachine streaming_batch).
  - concrete_well_formed.
  - reflexivity.
Defined.

(** X20. '#' from the state machine takes one payload byte, the event
    code, and records it with the current time; while the host stream is
    on it sends the host the record 'E', 0, code, time, and otherwise it
    sends nothing. *)
Theorem event_is_streamed (s : State) (code : Z) (rest : list Z) :
  well_formed s ->
  rx (StateMachineCOM s) = code :: rest ->
  exists s',
    dispatch 35 FromStateMachine s = Ok tt s' /\
    tx (myUSB s') =
      tx (myUSB s) ++ (if usbStreaming s then event_record (u8 code) (currentTime s) else []) /\
    newEventCode s' = u8 code /\ newEventTime s' = currentTime s /\
    newEvent s' = true /\
    rx (StateMachineCOM s') = rest /\ tx (StateMachineCOM s') = tx (StateMachineCOM s).
Proof.
  intros Hwf E.
  pose proof Hwf as (_ & _ & _ & _ & _ & Hbuf & _). unfold usbStreamingBufferSize in Hbuf.
  assert (dispatch 35 FromStateMachine s = case_hash FromStateMachine s) as -> by reflexivity.
  unfold case_hash. cbn [is_state_machine when]. unfold bind at 1.
  rewrite (readByte_Ok FromStateMachine s code rest E).
  unfold bind at 1. unfold modify at 1. unfold bind at 1. cbn [gets].
  unfold bind at 1. unfold modify at 1. unfold bind at 1. unfold modify at 1.
  unfold bind at 1. cbn [gets]. unfold bind at 1.
  cbn [usbStreaming set_newEventType set_newEventTime set_newEventCode set_chan
       set_StateMachineCOM].
  destruct (usbStreaming s); cbn [when].
  - rewrite send_record_sent by (cbn; lia).
    eexists. split; [reflexivity|]. cbn. repeat split.
  - eexists. split; [reflexivity|]. cbn. rewrite app_nil_r. repeat split.
Qed.

Lemma event_is_streamed_witness :
  exists s',
    dispatch 35 FromStateMachine event_pending = Ok tt s' /\
    tx (myUSB s') =
      tx (myUSB event_pending) ++
      (if usbStreaming event_pending then event_record (u8 7) (currentTime event_pending)
       else []) /\
    newEventCode s' = u8 7 /\ newEventTime s' = currentTime event_pending /\
    newEvent s' = true /\
    rx (StateMachineCOM s') = [] /\
    tx (StateMachineCOM s') = tx (StateMachineCOM event_pending).
Proof.
  apply (event_is_streamed event_pending 7 []).
  - concrete_well_formed.
  - reflexivity.
Defined.

(** ** The thresholds enabled at the start *)

(** X21. Of the eight thresholds only the first is enabled by the
    initialisation: until a loop runs a ';' or 'E' command, whatever else
    happens, the thresholds 2 to 8 stay disabled, while [nThresholds] is 8
    from the start. *)
Theorem only_first_threshold_enabled_at_start (inputs : list Input) (k : nat) :
  never_reenabled inputs initial = true ->
  (1 <= k < 8)%nat ->
  thresholdActive (final (run inputs initial)) !! k = Some false.
Proof.
  intros Hq Hk. apply (run_disabled k inputs initial Hq).
  do 8 (destruct k as [|k]; [first [lia | reflexivity]|]). lia.
Qed.

Lemma only_first_threshold_enabled_at_start_witness :
  thresholdActive (final (run at_511 initial)) !! 3%nat = Some false.
Proof.
  apply (only_first_threshold_enabled_at_start at_511 3).
  - vm_compute. reflexivity.
  - lia.
Defined.
(** ** One drain, all consumers *)

Lemma batch_samples (s : State) : well_formed s -> batch s = map fst (samples s).
Proof.
  intros (_ & _ & _ & Hp & Ht & _). unfold positionBufferSize in *.
  unfold batch, samples. rewrite <- firstn_map. f_equal.
  symmetry. apply fst_zip. rewrite !length_column. lia.
Qed.

(** The host stream leaves the batch and the other consumers' state as
    they are. *)
Lemma usbStream_frame (s0 : State) :
  keeps (fun x => samples x = samples s0 /\ batch x = batch s0 /\
                  nPositions x = nPositions s0 /\
                  isLogging x = isLogging s0 /\ moduleStreaming x = moduleStreaming s0 /\
                  DataFile x = DataFile s0 /\ dataPos x = dataPos s0 /\
                  OutputStreamCOM x = OutputStreamCOM s0 /\
                  wrapMode x = wrapMode s0 /\ wrapPoint x = wrapPoint s0 /\
                  moduleStreamPrefix x = moduleStreamPrefix s0) usbStream.
Proof. frame same_fields. Qed.

Lemma usbStream_well_formed : keeps well_formed usbStream.
Proof. repeat shapes_step. Qed.

(** X22. One drain with the host stream, the log and the module stream
    on, and events possibly too: the hand-over, the three writers and the
    detector all return, and the host, the file and the output-stream
    channel receive the same samples, those that were pending, in order,
    each in its own format. *)
Theorem drain_feeds_all_consumers (s : State) :
  well_formed s ->
  usbStreaming s = true -> isLogging s = true -> moduleStreaming s = true ->
  pending_count s <= 142 ->
  0 <= cursor (DataFile s) <= Z.of_nat (length (content (DataFile s))) ->
  0 <= dataPos s < dataMax ->
  exists s',
    drain s = Ok tt s' /\
    samples s' = pending s /\
    tx (myUSB s') = tx (myUSB s) ++ stream_bytes (pending s) /\
    content (DataFile s') =
      overwrite (Z.to_nat (cursor (DataFile s))) (log_records (pending s))
        (content (DataFile s)) /\
    tx (OutputStreamCOM s') =
      tx (OutputStreamCOM s) ++
      flat_map (fun p => [u8 (moduleStreamPrefix s);
                          module_value s p mod 256;
                          (module_value s p / 256) mod 256]) (map fst (pending s)).
Proof.
  unfold dataMax. intros Hwf Husb Hlog Hmod Hfit Hcur Hd.
  destruct (swapBuffers_Ok s Hwf) as (counts & E1 & _).
  set (s1 := set_iPositionBuffer counts _) in E1.
  assert (well_formed s1) as Hwf1
    by exact (keeps_Ok _ _ _ _ _ swapBuffers_well_formed Hwf E1).
  assert (samples s1 = pending s) as Hs1 by reflexivity.
  destruct (usbStream_Ok s1 Hwf1 Husb Hfit) as (s2 & E2 & _ & Htx2).
  pose proof (keeps_Ok _ _ _ _ _ usbStream_well_formed Hwf1 E2) as Hwf2.
  pose proof (keeps_Ok _ _ _ _ _ (usbStream_frame s1)
                (conj eq_refl (conj eq_refl (conj eq_refl (conj eq_refl (conj eq_refl
                  (conj eq_refl (conj eq_refl (conj eq_refl (conj eq_refl
                    (conj eq_refl eq_refl)))))))))) E2)
    as (Hs2 & Hb2 & Hn2 & Hlog2 & Hmod2 & Hf2 & Hd2 & Ho2 & Hwm2 & Hwp2 & Hpre2).
  assert (logPositions s2 = Ok tt (logged s2)) as E3.
  { unfold logPositions. unfold bind at 1. cbn [gets]. rewrite Hlog2.
    change (isLogging s1) with (isLogging s). rewrite Hlog. cbn [when].
    unfold bind at 1. cbn [gets]. rewrite Hd2. change (dataPos s1) with (dataPos s).
    unfold dataMax. destruct (Z.ltb_spec (dataPos s) 4294967295); [|lia]. cbn [when].
    apply log_of_drained_batch_eq; [exact Hwf2 | rewrite Hf2; exact Hcur|].
    rewrite Hd2. change (dataPos s1) with (dataPos s). lia. }
  assert (well_formed (logged s2)) as Hwf3 by exact Hwf2.
  pose proof (module_stream_records_eq (logged s2) Hwf3) as E4.
  change (moduleStreaming (logged s2)) with (moduleStreaming s2) in E4.
  rewrite Hmod2 in E4. specialize (E4 Hmod).
  set (s4 := module_written _ (logged s2)) in E4.
  assert (well_formed s4) as Hwf4 by exact Hwf2.
  pose proof (thresholdDetector_Ok s4 Hwf4) as E5.
  eexists. split.
  { unfold drain. unfold bind at 1. rewrite E1. unfold bind at 1. rewrite E2.
    unfold bind at 1. rewrite E3. unfold bind at 1. rewrite E4. exact E5. }
  assert (forall x, samples (if sendEvents s4 && (nWraps s4 =? 0) then announce x s4 else s4)
                    = samples s2) as Hsamples
    by (intros x; destruct (_ && _); reflexivity).
  assert (forall x, myUSB (if sendEvents s4 && (nWraps s4 =? 0) then announce x s4 else s4)
                    = myUSB s2) as Hhost
    by (intros x; destruct (_ && _); reflexivity).
  assert (forall x, DataFile (if sendEvents s4 && (nWraps s4 =? 0) then announce x s4 else s4)
                    = DataFile (logged s2)) as Hfile
    by (intros x; destruct (_ && _); reflexivity).
  assert (forall x, OutputStreamCOM
                      (if sendEvents s4 && (nWraps s4 =? 0) then announce x s4 else s4)
                    = OutputStreamCOM s4) as Hout
    by (intros x; destruct (_ && _); reflexivity).
  rewrite Hsamples, Hhost, Hfile, Hout, Hs2, Htx2, Hs1.
  split; [reflexivity|]. split; [reflexivity|]. split.
  - unfold logged. cbn [DataFile set_dataPos set_DataFile content]. rewrite Hf2, Hs2.
    reflexivity.
  - subst s4. unfold module_written.
    cbn [OutputStreamCOM set_OutputStreamCOM tx logged set_dataPos set_DataFile].
    rewrite Ho2. f_equal.
    change (moduleStreamPrefix (logged s2)) with (moduleStreamPrefix s2).
    change (batch (logged s2)) with (batch s2).
    rewrite Hb2, Hpre2, (batch_samples s1 Hwf1), Hs1.
    apply flat_map_ext. intros p. unfold module_value.
    change (wrapMode (logged s2)) with (wrapMode s2).
    change (wrapPoint (logged s2)) with (wrapPoint s2).
    rewrite Hwm2, Hwp2. reflexivity.
Qed.

Lemma drain_feeds_all_consumers_witness :
  exists s',
    drain all_consumers = Ok tt s' /\
    samples s' = pending all_consumers /\
    tx (myUSB s') = tx (myUSB all_consumers) ++ stream_bytes (pending all_consumers) /\
    content (DataFile s') =
      overwrite (Z.to_nat (cursor (DataFile all_consumers)))
        (log_records (pending all_consumers)) (content (DataFile all_consumers)) /\
    tx (OutputStreamCOM s') =
      tx (OutputStreamCOM all_consumers) ++
      flat_map (fun p => [u8 (moduleStreamPrefix all_consumers);
                          module_value all_consumers p mod 256;
                          (module_value all_consumers p / 256) mod 256])
               (map fst (pending all_consumers)).
Proof.
  apply (drain_feeds_all_consumers all_consumers).
  - concrete_well_formed.
  - reflexivity.
  - reflexivity.
  - reflexivity.
  - vm_compute. discriminate.
  - vm_compute. split; discriminate.
  - vm_compute. split; [discriminate | reflexivity].
Defined.

(** ** Edges that fall inside the 'W' case *)

Lemma edges_Ok_wrap_settings (es : list (bool * bool)) (s s' : State) :
  edges es s = Ok tt s' -> wrap_settings s' = wrap_settings s.
Proof.
  intros E.
  pose proof (keeps_Ok _ _ _ _ _
                (edges_wrap_settings es (wrappingEnabled s) (wrapPoint s)
                   (wrapPointInverse s) (wrapMode s))
                (conj eq_refl (conj eq_refl (conj eq_refl eq_refl))) E)
    as (He & Hw & Hi & _).
  unfold wrap_settings. rewrite He, Hw, Hi. reflexivity.
Qed.

(** Statements with known effects on the wrap settings, preempted by
    edges: the effects compose, the edges add nothing. *)
Lemma preempted_wrap_settings (stmts : list (M unit))
      (effects : list (Z * bool * Z -> Z * bool * Z)) :
  Forall2 (fun st f => forall x x', st x = Ok tt x' -> wrap_settings x' = f (wrap_settings x))
          stmts effects ->
  forall irqs s s',
    preempted stmts irqs s = Ok tt s' ->
    wrap_settings s' = foldl (fun t f => f t) (wrap_settings s) effects.
Proof.
  induction 1 as [|st f stmts effects Hst _ IH]; intros irqs s s' E.
  - cbn [preempted] in E. injection E as <-. reflexivity.
  - cbn [preempted] in E. unfold bind in E.
    destruct (st s) as [[] s1| |] eqn:E1; [|discriminate..].
    destruct (edges (hd [] irqs) s1) as [[] s2| |] eqn:E2; [|discriminate..].
    rewrite (IH _ _ _ E). cbn [foldl].
    rewrite (edges_Ok_wrap_settings _ _ _ E2), (Hst _ _ E1). reflexivity.
Qed.

Lemma case_W_lines_wrap_settings (wp : Z) :
  Forall2 (fun st f => forall x x', st x = Ok tt x' -> wrap_settings x' = f (wrap_settings x))
          (case_W_lines wp)
          [ (fun t => (wp, snd (fst t), snd t));
            (fun t => t);
            (fun t => (fst (fst t), negb (wp =? 0), snd t));
            (fun t => (fst t, i16 (wp * -1)));
            (fun t => t);
            (fun t => t) ].
Proof.
  unfold case_W_lines.
  repeat constructor; intros x x'; unfold writeByte, writeBytes, modify.
  - intros [= <-]. reflexivity.
  - intros [= <-]. reflexivity.
  - intros [= <-]. reflexivity.
  - intros [= <-]. reflexivity.
  - intros [= <-]. reflexivity.
  - unfold bind, gets, when, modify. destruct (_ || _); intros [= <-]; reflexivity.
Qed.

Lemma readInt16_host (s s' : State) (wp : Z) :
  readInt16 FromUSB s = Ok wp s' ->
  wrap_settings s' = wrap_settings s /\
  exists lo hi rest, rx (myUSB s) = lo :: hi :: rest /\ wp = int16_of (lo, hi).
Proof.
  intros E. destruct (rx (myUSB s)) as [|lo [|hi rest]] eqn:Erx.
  - unfold readInt16, bind, readByte in E. cbn [chan] in E. rewrite Erx in E. discriminate.
  - unfold readInt16 in E. unfold bind at 1 in E.
    rewrite (readByte_Ok FromUSB s lo [] Erx) in E.
    unfold bind, readByte in E. cbn in E. discriminate.
  - rewrite (readInt16_Ok_cons FromUSB s lo hi rest Erx) in E. injection E as <- <-.
    split; [reflexivity|]. exists lo, hi, rest. split; reflexivity.
Qed.

(** X23. Edges that fall inside a 'W' command from the host, at any of
    its statement boundaries.  Without such edges the statements are the
    'W' case.  With them, once the case has stored the wrap point (line
    205) that is the payload, but up to the store of line 212
    [wrapPointInverse] is still the one of the wrap point before, so a
    step taken there is processed with mixed settings; from the store of
    line 212 on, and so when the case returns, [wrappingEnabled] and
    [wrapPointInverse] are the values derived from the wrap point. *)
Theorem wrap_settings_inside_W (s : State) (irqs : list (list (bool * bool))) :
  case_W_preempted FromUSB [] s = case_W FromUSB s /\
  forall (k : nat) (s' : State),
    case_W_upto k irqs s = Ok tt s' ->
    ((1 <= k)%nat ->
     exists lo hi rest,
       rx (myUSB s) = lo :: hi :: rest /\ wrapPoint s' = int16_of (lo, hi)) /\
    ((1 <= k <= 3)%nat -> wrapPointInverse s' = wrapPointInverse s) /\
    ((4 <= k)%nat -> wrap_settings_ok s').
Proof.
  split.
  { unfold case_W_preempted, case_W_upto, case_W. cbn [is_usb when].
    unfold bind at 1 2. destruct (readInt16 FromUSB s) as [wp s1| |]; [|reflexivity..].
    cbn [take case_W_lines preempted edges hd tl].
    unfold bind, writeByte, writeBytes, modify, gets, when, ret.
    cbn [EncoderPos wrapPointInverse set_nWraps set_wrapPointInverse set_wrappingEnabled
         set_chan set_myUSB set_wrapPoint].
    repeat match goal with |- context [if ?c then _ else _] => destruct c end; reflexivity. }
  intros k s' H. unfold case_W_upto in H. unfold bind at 1 in H.
  destruct (readInt16 FromUSB s) as [wp s0| |] eqn:Eread; [|discriminate..].
  pose proof (readInt16_Ok _ _ _ _ Eread) as Hwp.
  destruct (readInt16_host _ _ _ Eread) as (Hs0 & lo & hi & rest & Erx & Ewp).
  pose proof (preempted_wrap_settings _ _
                (Forall2_take _ _ _ k (case_W_lines_wrap_settings wp)) irqs s0 s' H) as Hset.
  rewrite Hs0 in Hset. unfold wrap_settings in Hset.
  destruct k as [|[|[|[|[|[|k]]]]]]; cbn [take foldl fst snd] in Hset;
    rewrite ?take_nil in Hset; cbn [foldl] in Hset;
    apply pair_equal_spec in Hset as [Hwe Hi]; apply pair_equal_spec in Hwe as [Hw He];
    (split; [intros Hk1; first [lia | exists lo, hi, rest; split; [exact Erx | congruence]]|]);
    (split; [intros Hk3; first [lia | exact Hi] |]);
    intros Hk; try lia;
    unfold wrap_settings_ok; rewrite Hw, He, Hi; auto.
Qed.

Lemma wrap_settings_inside_W_witness :
  wrap_settings_ok (final (case_W_upto 6 [[(false, true)]] W_polled)).
Proof.
  refine (proj2 (proj2 (proj2 (wrap_settings_inside_W W_polled [[(false, true)]]) 6%nat _ _)) _).
  - vm_compute. reflexivity.
  - lia.
Defined.
